(** * AlApiClient: endpoint resolution, request normalisation, TTL cache and
      retry engine of the API client (api-client.ts), embedded in Rocq.

    The client is a JavaScript object whose methods are [async] functions.
    Every method is translated as a state transformer over a [World], which
    holds the object heap (request descriptors are shared, mutable objects),
    the client instance's fields, the class-level static watch-list, the
    table of promises and a trace of what was handed to the transport.
    An [async] method is cut at its [await]s into the straight-line pieces
    the event loop runs atomically; the pieces are composed either run to
    completion against a transport oracle (one logical call at a time) or
    interleaved by an explicit event loop (overlapping calls). *)

From Stdlib Require Import ZArith Ascii String DecimalString.
From stdpp Require Import gmap strings list.

Local Open Scope Z_scope.
Set Warnings "-register-all".


(** ** JavaScript values *)

(** Response bodies and endpoint collections are plain JSON values.
    Numbers are integers (status codes, counts, milliseconds); object
    properties keep insertion order.

    One object of the client is shared and changed after it has been handed
    on: the array [AlApiClient.defaultServiceList], which [prepare] passes
    on by reference and pushes to (lines 385-389) and which the failure
    handler of [getServiceEndpoints] puts in the cache as it is (line 423).
    [JStatic] is that array itself, as a cached value or as the value of a
    promise; its elements are in the world, and the code that looks into a
    value the client holds resolves it with [view] first.  The functions of
    this section look at a value without the world: given [JStatic] they
    see none of its elements.  Bodies of responses and fields of
    descriptors come from outside the client and hold no reference. *)
Inductive JsVal : Type :=
| JNull
| JBool (b : bool)
| JNum (n : Z)
| JStr (s : string)
| JArr (items : list JsVal)
| JObj (props : list (string * JsVal))
| JStatic.

(** [if ( v )] *)
Definition truthy (v : JsVal) : bool :=
  match v with
  | JNull => false
  | JBool b => b
  | JNum n => negb (n =? 0)
  | JStr s => negb (String.eqb s "")
  | JArr _ | JObj _ | JStatic => true
  end.

(** A value that may be [null]/[undefined]. *)
Definition truthy_opt (v : option JsVal) : bool :=
  match v with Some x => truthy x | None => false end.

(** [n.toString()] on an integer. *)
Definition toDecimal (n : Z) : string := NilZero.string_of_int (Z.to_int n).

Definition indexKey (i : nat) : string := toDecimal (Z.of_nat i).

Fixpoint join (sep : string) (l : list string) : string :=
  match l with
  | [] => ""
  | [x] => x
  | x :: rest => x +:+ sep +:+ join sep rest
  end.

(** [v.toString()]; [None] is the TypeError raised on [null]. *)
Fixpoint toString_elem (v : JsVal) : string :=
  match v with
  | JNull => ""
  | JBool true => "true"
  | JBool false => "false"
  | JNum n => toDecimal n
  | JStr s => s
  | JArr items => join "," (map toString_elem items)
  | JObj _ => "[object Object]"
  | JStatic => ""
  end.

Definition toString (v : JsVal) : option string :=
  match v with
  | JNull => None
  | _ => Some (toString_elem v)
  end.

(** The string a value contributes to [x + "..."]. *)
Definition concatString (v : option JsVal) : string :=
  match v with
  | None => "undefined"
  | Some JNull => "null"
  | Some x => toString_elem x
  end.

(** Own enumerable property names, [Object.keys( v )]. *)
Definition chars (s : string) : list string :=
  map (fun a => String a EmptyString) (String.list_ascii_of_string s).

Definition ownKeys (v : JsVal) : list string :=
  match v with
  | JObj props => map fst props
  | JArr items => map indexKey (seq 0 (length items))
  | JStr s => map indexKey (seq 0 (String.length s))
  | _ => []
  end.

Fixpoint assoc {A : Type} (k : string) (l : list (string * A)) : option A :=
  match l with
  | [] => None
  | (k', x) :: rest => if String.eqb k k' then Some x else assoc k rest
  end.

(** [o[k] = x]: an existing property keeps its place, a new one goes last. *)
Fixpoint assign {A : Type} (k : string) (x : A) (l : list (string * A)) : list (string * A) :=
  match l with
  | [] => [(k, x)]
  | (k', y) :: rest => if String.eqb k k' then (k, x) :: rest else (k', y) :: assign k x rest
  end.

Definition inList (k : string) (l : list string) : bool :=
  existsb (String.eqb k) l.

(** [v.hasOwnProperty( k )] for a value that is not [null]. *)
Definition hasOwnProperty (v : JsVal) (k : string) : bool :=
  match v with
  | JObj props => inList k (map fst props)
  | JArr _ | JStr _ => inList k (ownKeys v) || String.eqb k "length"
  | _ => false
  end.

(** [v[k]] restricted to own properties. *)
Definition getProperty (v : JsVal) (k : string) : option JsVal :=
  match v with
  | JObj props => assoc k props
  | JArr items =>
      if String.eqb k "length" then Some (JNum (Z.of_nat (length items)))
      else assoc k (combine (ownKeys v) items)
  | JStr s =>
      if String.eqb k "length" then Some (JNum (Z.of_nat (String.length s)))
      else assoc k (combine (ownKeys v) (map JStr (chars s)))
  | _ => None
  end.

(** [Object.entries( v )]; [None] is the TypeError raised on [null]. *)
Definition entries (v : JsVal) : option (list (string * JsVal)) :=
  match v with
  | JNull => None
  | JObj props => Some props
  | JArr items => Some (combine (ownKeys v) items)
  | JStr s => Some (combine (ownKeys v) (map JStr (chars s)))
  | _ => Some []
  end.

(** [s.startsWith( p )] *)
Fixpoint startsWith (p s : string) : bool :=
  match p, s with
  | EmptyString, _ => true
  | String a p', String b s' => Ascii.eqb a b && startsWith p' s'
  | String _ _, EmptyString => false
  end.

(** ** encodeURIComponent on a UTF-8 byte string *)

Definition unreserved (a : ascii) : bool :=
  let n := Z.of_nat (Ascii.nat_of_ascii a) in
  ((65 <=? n) && (n <=? 90)) || ((97 <=? n) && (n <=? 122)) || ((48 <=? n) && (n <=? 57))
  || inList (String a EmptyString) ["-"; "_"; "."; "!"; "~"; "*"; "'"; "("; ")"].

Definition hexDigit (n : nat) : ascii :=
  nth n (String.list_ascii_of_string "0123456789ABCDEF") "0"%char.

Definition percent (a : ascii) : string :=
  let n := Ascii.nat_of_ascii a in
  String "%" (String (hexDigit (n / 16)%nat) (String (hexDigit (n mod 16)%nat) EmptyString)).

Fixpoint encodeURIComponent (s : string) : string :=
  match s with
  | EmptyString => EmptyString
  | String a rest =>
      (if unreserved a then String a EmptyString else percent a) +:+ encodeURIComponent rest
  end.

(** ** The ephemeral cabinet *)

(** Modelled from the spec: [AlCabinet.ephemeral] (package @al/common), the
    store behind [this.storage], is not part of the source tree.  An entry is
    a value with an absolute expiry in milliseconds; [set] takes the lifetime
    in seconds and keeps the value it is given, without copying it; an entry
    is never returned past its expiry and is evicted when found expired. *)
Record CabinetEntry := { entry_value : JsVal; entry_expires : Z }.

Definition cabinet_get (clock : Z) (key : string) (c : gmap string CabinetEntry)
  : option JsVal * gmap string CabinetEntry :=
  match c !! key with
  | None => (None, c)
  | Some e =>
      if entry_expires e <? clock then (None, delete key c)
      else (Some (entry_value e), c)
  end.

Definition cabinet_set (clock : Z) (key : string) (v : JsVal) (seconds : Z)
    (c : gmap string CabinetEntry) : gmap string CabinetEntry :=
  <[key := {| entry_value := v; entry_expires := clock + seconds * 1000 |}]> c.

Definition cabinet_delete (key : string) (c : gmap string CabinetEntry)
  : gmap string CabinetEntry := delete key c.

Definition cabinet_destroy (c : gmap string CabinetEntry) : gmap string CabinetEntry := ∅.

(** ** Request descriptors *)

Inductive ServiceVersion := VersionString (s : string) | VersionNumber (n : Z).
Inductive CacheTtl := TtlNumber (n : Z) | TtlFlag (b : bool).

(** [APIRequestParams]: an absent property is [None].  [headers] and
    [params] are references to objects of their own. *)
Record APIRequestParams := {
  service_stack : option string;
  service_name : option string;
  residency : option string;
  version : option ServiceVersion;
  account_id : option string;
  path : option string;
  noEndpointsResolution : option bool;
  ttl : option CacheTtl;
  retry_count : option Z;
  retry_interval : option Z;
  accept_header : option string;
  response_type : option string;
  url : option string;
  method : option string;
  headers : option nat;
  params : option nat;
  data : option JsVal;
  responseType : option string
}.

Definition emptyParams : APIRequestParams :=
  Build_APIRequestParams None None None None None None None None None
                         None None None None None None None None None.

Definition set_url (v : option string) (c : APIRequestParams) : APIRequestParams :=
  Build_APIRequestParams (service_stack c) (service_name c) (residency c) (version c)
    (account_id c) (path c) (noEndpointsResolution c) (ttl c) (retry_count c)
    (retry_interval c) (accept_header c) (response_type c) v (method c)
    (headers c) (params c) (data c) (responseType c).

Definition set_method (v : option string) (c : APIRequestParams) : APIRequestParams :=
  Build_APIRequestParams (service_stack c) (service_name c) (residency c) (version c)
    (account_id c) (path c) (noEndpointsResolution c) (ttl c) (retry_count c)
    (retry_interval c) (accept_header c) (response_type c) (url c) v
    (headers c) (params c) (data c) (responseType c).

Definition set_headers (v : option nat) (c : APIRequestParams) : APIRequestParams :=
  Build_APIRequestParams (service_stack c) (service_name c) (residency c) (version c)
    (account_id c) (path c) (noEndpointsResolution c) (ttl c) (retry_count c)
    (retry_interval c) (accept_header c) (response_type c) (url c) (method c)
    v (params c) (data c) (responseType c).

Definition set_params (v : option nat) (c : APIRequestParams) : APIRequestParams :=
  Build_APIRequestParams (service_stack c) (service_name c) (residency c) (version c)
    (account_id c) (path c) (noEndpointsResolution c) (ttl c) (retry_count c)
    (retry_interval c) (accept_header c) (response_type c) (url c) (method c)
    (headers c) v (data c) (responseType c).

Definition set_accept_header (v : option string) (c : APIRequestParams) : APIRequestParams :=
  Build_APIRequestParams (service_stack c) (service_name c) (residency c) (version c)
    (account_id c) (path c) (noEndpointsResolution c) (ttl c) (retry_count c)
    (retry_interval c) v (response_type c) (url c) (method c)
    (headers c) (params c) (data c) (responseType c).

Definition set_response_type (v : option string) (c : APIRequestParams) : APIRequestParams :=
  Build_APIRequestParams (service_stack c) (service_name c) (residency c) (version c)
    (account_id c) (path c) (noEndpointsResolution c) (ttl c) (retry_count c)
    (retry_interval c) (accept_header c) v (url c) (method c)
    (headers c) (params c) (data c) (responseType c).

Definition set_responseType (v : option string) (c : APIRequestParams) : APIRequestParams :=
  Build_APIRequestParams (service_stack c) (service_name c) (residency c) (version c)
    (account_id c) (path c) (noEndpointsResolution c) (ttl c) (retry_count c)
    (retry_interval c) (accept_header c) (response_type c) (url c) (method c)
    (headers c) (params c) (data c) v.

Definition orElse {A : Type} (x y : option A) : option A :=
  match x with Some _ => x | None => y end.

(** [Object.assign( {}, g, c )]: the own properties of [g], overridden by
    those of [c]; nested objects are copied by reference. *)
Definition objectAssign (g c : APIRequestParams) : APIRequestParams :=
  Build_APIRequestParams
    (orElse (service_stack c) (service_stack g)) (orElse (service_name c) (service_name g))
    (orElse (residency c) (residency g)) (orElse (version c) (version g))
    (orElse (account_id c) (account_id g)) (orElse (path c) (path g))
    (orElse (noEndpointsResolution c) (noEndpointsResolution g)) (orElse (ttl c) (ttl g))
    (orElse (retry_count c) (retry_count g)) (orElse (retry_interval c) (retry_interval g))
    (orElse (accept_header c) (accept_header g)) (orElse (response_type c) (response_type g))
    (orElse (url c) (url g)) (orElse (method c) (method g))
    (orElse (headers c) (headers g)) (orElse (params c) (params g))
    (orElse (data c) (data g)) (orElse (responseType c) (responseType g)).

(** ** Heap, promises and the world *)

(** Descriptor objects and the plain objects they refer to ([headers],
    [params]), each addressed by a reference. *)
Record Heap := {
  objs : gmap nat APIRequestParams;
  dicts : gmap nat (list (string * JsVal))
}.

Record AxiosResponse := { status : Z; response_data : JsVal }.

(** What the transport adapter does with one request. *)
Inductive Outcome := Responded (r : AxiosResponse) | Unreachable.

(** What a promise can reject with: a response turned down by the response
    interceptor, a transport-level error (which carries no status), or a
    TypeError raised by the code itself. *)
Inductive Reason := BadStatus (r : AxiosResponse) | NetworkError | TypeError.

(** How an asynchronous computation ends. *)
Inductive Completion (A : Type) := Fulfilled (a : A) | Rejected (e : Reason).
Arguments Fulfilled {A} a.
Arguments Rejected {A} e.

Inductive PromiseState := Pending | Settled (s : Completion JsVal).

(** The array handed to [getServiceEndpoints]: the static default list
    itself (by reference) or an array of the call's own. *)
Inductive ServiceListRef := TheDefaultList | OwnList (l : list string).

Record Request := {
  req_method : option string;
  req_url : option string;
  req_headers : option (list (string * JsVal));
  req_params : option (list (string * JsVal));
  req_data : option JsVal
}.

(** A discovery request handed to the transport and not yet answered,
    with what its [then] handlers close over. *)
Record Inflight := {
  call_index : nat;
  call_request : Request;
  call_account : string;
  call_list : ServiceListRef;
  call_promise : nat
}.

Inductive Event := Sent (attemptIndex : Z) (r : Request) | Slept (ms : Z).

(** The fields of one [AlApiClient] instance. *)
Record Client := {
  storage : gmap string CabinetEntry;
  endpointResolution : gmap string nat;
  globalServiceParams : APIRequestParams;
  defaultAccountId : option string
}.

Record World := {
  heap : Heap;
  defaultServiceList : list string;   (* AlApiClient.defaultServiceList, static *)
  self : Client;                      (* this *)
  promises : gmap nat PromiseState;
  inflight : list Inflight;
  clock : Z;                          (* Date.now() *)
  trace : list Event;                 (* oldest first *)
  draws : nat                         (* calls to Math.random() so far *)
}.

Definition set_heap (h : Heap) (w : World) : World :=
  Build_World h (defaultServiceList w) (self w) (promises w) (inflight w) (clock w) (trace w) (draws w).
Definition set_defaultServiceList (l : list string) (w : World) : World :=
  Build_World (heap w) l (self w) (promises w) (inflight w) (clock w) (trace w) (draws w).
Definition set_self (c : Client) (w : World) : World :=
  Build_World (heap w) (defaultServiceList w) c (promises w) (inflight w) (clock w) (trace w) (draws w).
Definition set_promises (p : gmap nat PromiseState) (w : World) : World :=
  Build_World (heap w) (defaultServiceList w) (self w) p (inflight w) (clock w) (trace w) (draws w).
Definition set_inflight (l : list Inflight) (w : World) : World :=
  Build_World (heap w) (defaultServiceList w) (self w) (promises w) l (clock w) (trace w) (draws w).
Definition set_clock (t : Z) (w : World) : World :=
  Build_World (heap w) (defaultServiceList w) (self w) (promises w) (inflight w) t (trace w) (draws w).
Definition set_trace (t : list Event) (w : World) : World :=
  Build_World (heap w) (defaultServiceList w) (self w) (promises w) (inflight w) (clock w) t (draws w).
Definition set_draws (n : nat) (w : World) : World :=
  Build_World (heap w) (defaultServiceList w) (self w) (promises w) (inflight w) (clock w) (trace w) n.

Definition set_storage (s : gmap string CabinetEntry) (w : World) : World :=
  set_self (Build_Client s (endpointResolution (self w)) (globalServiceParams (self w))
                         (defaultAccountId (self w))) w.
Definition set_endpointResolution (r : gmap string nat) (w : World) : World :=
  set_self (Build_Client (storage (self w)) r (globalServiceParams (self w))
                         (defaultAccountId (self w))) w.
Definition set_globalServiceParams (g : APIRequestParams) (w : World) : World :=
  set_self (Build_Client (storage (self w)) (endpointResolution (self w)) g
                         (defaultAccountId (self w))) w.

(** Reading and writing objects through references. *)
Definition obj (w : World) (l : nat) : APIRequestParams :=
  default emptyParams (objs (heap w) !! l).
Definition dict (w : World) (l : nat) : list (string * JsVal) :=
  default [] (dicts (heap w) !! l).
Definition dictOf (w : World) (r : option nat) : option (list (string * JsVal)) :=
  match r with Some l => Some (dict w l) | None => None end.

Definition store_obj (l : nat) (c : APIRequestParams) (w : World) : World :=
  set_heap {| objs := <[l := c]> (objs (heap w)); dicts := dicts (heap w) |} w.
Definition store_dict (l : nat) (d : list (string * JsVal)) (w : World) : World :=
  set_heap {| objs := objs (heap w); dicts := <[l := d]> (dicts (heap w)) |} w.

(** A new object: a reference not in use. *)
Definition new_obj (c : APIRequestParams) (w : World) : World * nat :=
  let l := fresh (dom (objs (heap w))) in (store_obj l c w, l).
Definition new_dict (d : list (string * JsVal)) (w : World) : World * nat :=
  let l := fresh (dom (dicts (heap w))) in (store_dict l d w, l).
Definition new_promise (s : PromiseState) (w : World) : World * nat :=
  let p := fresh (dom (promises w)) in (set_promises (<[p := s]> (promises w)) w, p).

Definition log (e : Event) (w : World) : World := set_trace (trace w ++ [e]) w.

(** What of a descriptor reaches the transport: its method, URL, headers,
    query parameters and body, as they are when it is sent.  The settings
    of the axios instance (lines 436-444) are the same for every request
    and are left out; no subscriber of the before-request event is taken
    to rewrite the request. *)
Definition snapshot (w : World) (c : APIRequestParams) : Request :=
  {| req_method := method c; req_url := url c;
     req_headers := dictOf w (headers c);
     req_params := dictOf w (params c); req_data := data c |}.

Definition isSent (e : Event) : bool :=
  match e with Sent _ _ => true | Slept _ => false end.

Fixpoint countSent (t : list Event) : nat :=
  match t with
  | [] => O
  | e :: rest => ((if isSent e then 1 else 0) + countSent rest)%nat
  end.

Definition sentCount (w : World) : nat := countSent (trace w).

(** ** The cache wrappers (lines 544-557) *)

Definition getCachedValue (key : string) (w : World) : World * option JsVal :=
  let found := cabinet_get (clock w) key (storage (self w)) in
  (set_storage (snd found) w, fst found).

Definition setCachedValue (key : string) (v : JsVal) (ttl : Z) (w : World) : World :=
  if ttl <? 1000 then w
  else set_storage (cabinet_set (clock w) key v (ttl / 1000) (storage (self w))) w.

Definition deleteCachedValue (key : string) (w : World) : World :=
  set_storage (cabinet_delete key (storage (self w))) w.

(** ** The retry predicate (lines 514-529) *)

(** [error.status]: only a response has one. *)
Definition reasonStatus (e : Reason) : option Z :=
  match e with BadStatus r => Some (status r) | _ => None end.

(** [error] is [None] for a [null]/[undefined] failure value. *)
Definition isRetryableError (error : option Reason) (config : APIRequestParams)
    (attemptIndex : Z) : bool :=
  match retry_count config with
  | None => false
  | Some budget =>
      if budget <=? attemptIndex then false
      else match error with
           | None => true
           | Some e =>
               match reasonStatus e with
               | Some s =>
                   (s =? 0) || ((300 <=? s) && (s <=? 399)) || ((500 <=? s) && (s <=? 599))
               | None => false
               end
           end
  end.

(** ** The axios instance (lines 431-479) *)

(** [validateStatus] accepts every status, so every response reaches the
    response interceptor [onRequestResponse]. *)
Definition onRequestResponse (response : AxiosResponse) : Completion AxiosResponse :=
  if (status response <? 200) || (400 <=? status response)
  then Rejected (BadStatus response)
  else Fulfilled response.

Definition ax (o : Outcome) : Completion AxiosResponse :=
  match o with
  | Responded r => onRequestResponse r
  | Unreachable => Rejected NetworkError
  end.

(** ** Pieces of the retry engine *)

Definition verbs : list string :=
  ["debork"; "breaker"; "breaker-breaker"; "fix"; "unbork"; "corex"; "help"].

Definition sleep (ms : Z) (w : World) : World :=
  set_clock (clock w + Z.max 0 ms) (log (Slept ms) w).

(** [config.params = config.params || {}] *)
Definition ensureParams (config : nat) (w : World) : World * nat :=
  match params (obj w config) with
  | Some l => (w, l)
  | None =>
      let '(w1, l) := new_dict [] w in
      (store_obj config (set_params (Some l) (obj w1 config)) w1, l)
  end.

Definition retryInterval (config : APIRequestParams) : Z :=
  match retry_interval config with
  | Some i => if i =? 0 then 1000 else i
  | None => 1000
  end.

Definition attemptsLeft (config : APIRequestParams) (attemptIndex : Z) : nat :=
  match retry_count config with
  | Some budget => Z.to_nat (budget - attemptIndex)
  | None => O
  end.

(** ** Pieces of endpoint discovery and of URL building *)

Definition endpointsCacheKey (accountId : string) : string := "/endpoints/" +:+ accountId.

Definition derefList (r : ServiceListRef) (w : World) : list string :=
  match r with TheDefaultList => defaultServiceList w | OwnList l => l end.

(** The array behind a [ServiceListRef] as a value: the static list is the
    object itself, an array of the call's own is known by its elements
    (nothing changes it once it is built). *)
Definition listValue (r : ServiceListRef) : JsVal :=
  match r with TheDefaultList => JStatic | OwnList l => JArr (map JStr l) end.

(** What a value the client holds looks like now: the static list has the
    elements it has in this world. *)
Definition view (w : World) (v : JsVal) : JsVal :=
  match v with
  | JStatic => JArr (map JStr (defaultServiceList w))
  | _ => v
  end.

(** A string property that is present and truthy. *)
Definition nonEmpty (s : option string) : option string :=
  match s with
  | Some x => if String.eqb x "" then None else Some x
  | None => None
  end.

(** [requestParams.account_id || this.defaultAccountId || "0"] *)
Definition accountOf (requestParams : APIRequestParams) (w : World) : string :=
  default "0" (orElse (nonEmpty (account_id requestParams)) (nonEmpty (defaultAccountId (self w)))).

(** [requestParams.service_name] as a property name; every call site passes
    a descriptor whose [service_name] is a non-empty string. *)
Definition serviceOf (requestParams : APIRequestParams) : string :=
  default "undefined" (service_name requestParams).

(** [( endpointHost as string ).startsWith( "http" ) ? ... : ...]; a host
    that is not a string has no [startsWith] and raises. *)
Definition translateHost (endpointHost : JsVal) : option JsVal :=
  match endpointHost with
  | JStr h => Some (JStr (if startsWith "http" h then h else "https://" +:+ h))
  | _ => None
  end.

Fixpoint translate (es translated : list (string * JsVal)) : option (list (string * JsVal)) :=
  match es with
  | [] => Some translated
  | (serviceName, endpointHost) :: rest =>
      match translateHost endpointHost with
      | Some h => translate rest (assign serviceName h translated)
      | None => None
      end
  end.

(** The segments [calculateRequestURL] appends to the host (lines 356-372). *)
Definition requestPath (p : APIRequestParams) (host : string) : string :=
  let p1 := match nonEmpty (service_name p) with
            | Some n => host +:+ "/" +:+ n
            | None => host
            end in
  let p2 := match version p with
            | Some (VersionString v) => if String.eqb v "" then p1 else p1 +:+ "/" +:+ v
            | Some (VersionNumber n) => if 0 <? n then p1 +:+ "/v" +:+ toDecimal n else p1
            | None => p1
            end in
  let p3 := match nonEmpty (account_id p) with
            | Some a => if String.eqb a "0" then p2 else p2 +:+ "/" +:+ a
            | None => p2
            end in
  match path p with
  | Some (String c rest) =>
      p3 +:+ (if Ascii.eqb c "/" then "" else "/") +:+ String c rest
  | _ => p3
  end.

Definition usesEndpoints (InsightAPI : string) (p : APIRequestParams) : bool :=
  match nonEmpty (service_name p), service_stack p with
  | Some _, Some stack =>
      String.eqb stack InsightAPI && negb (default false (noEndpointsResolution p))
  | _, _ => false
  end.

(** The query string and cache key of [get] (lines 109-113). *)
Definition queryParam (pv : string * JsVal) : option string :=
  match toString (snd pv) with
  | Some v => Some (fst pv +:+ "=" +:+ encodeURIComponent v)
  | None => None
  end.

Definition queryParams (ps : option (list (string * JsVal))) : option string :=
  match ps with
  | None => Some ""
  | Some l => join "&" <$> mapM queryParam l
  end.

Definition fullUrl (query : string) : string :=
  "normalized.url" +:+ (if String.eqb query "" then "" else "?" +:+ query).

Definition cacheTTL (normalized : APIRequestParams) : Z :=
  match ttl normalized with
  | Some (TtlNumber n) => if 0 <? n then n else 0
  | Some (TtlFlag true) => 60000
  | _ => 0
  end.

Definition hasIdentity (config : APIRequestParams) : bool :=
  match service_name config, service_stack config with
  | None, None => false
  | _, _ => true
  end.

(** ** The client against its collaborators *)

Section Client.

(** The collaborators outside the source tree: the locator table of
    @al/common, the transport behind axios and the random source. *)
Variable InsightAPI GlobalAPI : string.                   (* AlLocation.* *)
Variable resolveURL : option string -> option string -> string.
                                                 (* AlLocatorService.resolveURL( stack, path ) *)
Variable transport : nat -> Request -> Outcome * Z.
                     (* the n-th request handed over: its outcome and the time it took *)
Variable random : nat -> Z -> Z.        (* the n-th [Math.floor( Math.random() * k )] *)

(** [AlApiClient.defaultServiceParams] (lines 63-68). *)
Definition defaultServiceParams : APIRequestParams :=
  Build_APIRequestParams (Some InsightAPI) None (Some "default") (Some (VersionString "v1"))
    None None None (Some (TtlFlag false)) None None None None None None None None None None.

(** [reset] (lines 86-92); the static list is not part of it. *)
Definition reset (w : World) : World :=
  set_self {| storage := cabinet_destroy (storage (self w));
              endpointResolution := ∅;
              globalServiceParams := objectAssign emptyParams defaultServiceParams;
              defaultAccountId := defaultAccountId (self w) |} w.

(** [setGlobalParameters] (lines 98-101). *)
Definition setGlobalParameters (parameters : APIRequestParams) (w : World) : World :=
  set_globalServiceParams (objectAssign (globalServiceParams (self w)) parameters) w.

(** [generateCacheBuster] (lines 534-539). *)
Definition generateCacheBuster (attemptIndex : Z) (w : World) : World * string :=
  let verb := nth (Z.to_nat (random (draws w) (Z.of_nat (length verbs)))) verbs "undefined" in
  let hash := toDecimal (clock w mod 60000) +:+ toDecimal (random (S (draws w)) 100000) in
  (set_draws (S (S (draws w))) w, verb +:+ "-" +:+ hash +:+ "-" +:+ toDecimal attemptIndex).

(** [ax( config )]: the descriptor as it stands goes to the transport. *)
Definition send (attemptIndex : Z) (config : nat) (w : World) : World * Completion AxiosResponse :=
  let r := snapshot w (obj w config) in
  let '(o, elapsed) := transport (sentCount w) r in
  (set_clock (clock w + Z.max 0 elapsed) (log (Sent attemptIndex r) w), ax o).

(** What a failed, retryable attempt does before the next one (lines
    496-501): the index is incremented, the timer runs for
    [retry_interval * attemptIndex], and the callback puts a fresh
    [breaker] into the descriptor's [params]. *)
Definition afterRetryDelay (config : nat) (attemptIndex : Z) (w1 : World) : World :=
  let attemptIndex := attemptIndex + 1 in                          (* attemptIndex++ *)
  let delay := retryInterval (obj w1 config) * attemptIndex in
  let w2 := sleep delay w1 in                                      (* AlStopwatch.once *)
  let '(w3, l) := ensureParams config w2 in
  let '(w4, breaker) := generateCacheBuster attemptIndex w3 in
  store_dict l (assign "breaker" (JStr breaker) (dict w4 l)) w4.

(** [axiosRequest] (lines 486-509).  The recursion of the source goes
    through a timer; [fuel] bounds the number of attempts and [None] means
    it ran out.  The recursive call is [this.axiosRequest( config,
    attemptIndex + 1 )] with the index already incremented. *)
Fixpoint axiosRequest_fuel (fuel : nat) (config : nat) (attemptIndex : Z) (w : World)
  : option (World * Completion AxiosResponse) :=
  match fuel with
  | O => None
  | S fuel' =>
      let '(w1, r) := send attemptIndex config w in
      match r with
      | Fulfilled response => Some (w1, Fulfilled response)
      | Rejected error =>
          if isRetryableError (Some error) (obj w1 config) attemptIndex then
            axiosRequest_fuel fuel' config (attemptIndex + 1 + 1)
                              (afterRetryDelay config attemptIndex w1)
          else Some (w1, Rejected error)
      end
  end.

Definition axiosRequest (config : nat) (attemptIndex : Z) (w : World)
  : option (World * Completion AxiosResponse) :=
  axiosRequest_fuel (S (attemptsLeft (obj w config) attemptIndex)) config attemptIndex w.

(** *** Endpoint discovery *)

Definition endpointsRequest (accountId : string) (serviceList : list string) : Request :=
  {| req_method := Some "POST";
     req_url := Some (resolveURL (Some GlobalAPI)
                        (Some ("/endpoints/v1/" +:+ accountId +:+ "/residency/default/endpoints")));
     req_headers := None;
     req_params := None;
     req_data := Some (JArr (map JStr serviceList)) |}.

(** [getServiceEndpoints] up to the moment its request is with the
    transport (lines 401-411).  The result is the promise the call
    returns: already fulfilled from the cache, or pending on the request.
    The request carries no [retry_count], so [axiosRequest] makes one
    attempt and hands its outcome to the [then] handlers. *)
Definition getServiceEndpoints_call (accountId : string) (serviceList : ServiceListRef)
    (w : World) : World * nat :=
  let cacheKey := endpointsCacheKey accountId in
  let '(w1, cached) := getCachedValue cacheKey w in
  if truthy_opt cached then new_promise (Settled (Fulfilled (default JNull cached))) w1
  else
    let r := endpointsRequest accountId (derefList serviceList w1) in
    let '(w2, p) := new_promise Pending w1 in
    let c := {| call_index := sentCount w2; call_request := r; call_account := accountId;
                call_list := serviceList; call_promise := p |} in
    (set_inflight (inflight w2 ++ [c]) (log (Sent 0 r) w2), p).

Definition fallbackLocations (serviceList : list string) : list (string * JsVal) :=
  fold_left (fun serviceLocations serviceId =>
               assign serviceId (JStr (resolveURL (Some InsightAPI) None)) serviceLocations)
            serviceList [].

(** The two [then] handlers of [getServiceEndpoints] (lines 412-425). *)
Definition getServiceEndpoints_then (c : Inflight) (r : Completion AxiosResponse) (w : World)
  : World * Completion JsVal :=
  let cacheKey := endpointsCacheKey (call_account c) in
  match r with
  | Fulfilled response =>
      match entries (response_data response) with
      | None => (w, Rejected TypeError)
      | Some es =>
          match translate es [] with
          | None => (w, Rejected TypeError)
          | Some translated =>
              (setCachedValue cacheKey (JObj translated) (15 * 60 * 1000) w,
               Fulfilled (JObj translated))
          end
      end
  | Rejected error =>
      let serviceList := derefList (call_list c) w in
      let serviceLocations := fallbackLocations serviceList in
      (setCachedValue cacheKey (listValue (call_list c)) (5 * 60 * 1000) w,
       Fulfilled (JObj serviceLocations))
  end.

(** The transport answers request [c]: its handlers run and its promise
    settles. *)
Definition answer (c : Inflight) (o : Outcome) (elapsed : Z) (w : World) : World :=
  let w1 := set_clock (clock w + Z.max 0 elapsed) w in
  let '(w2, s) := getServiceEndpoints_then c (ax o) w1 in
  set_promises (<[call_promise c := Settled s]> (promises w2)) w2.

(** Every request in flight is answered by the oracle, oldest first. *)
Definition settle (w : World) : World :=
  fold_left (fun w c => let '(o, elapsed) := transport (call_index c) (call_request c) in
                        answer c o elapsed w)
            (inflight w) (set_inflight [] w).

(** [prepare] up to its [await] (lines 383-391): the promise awaited. *)
Definition prepare_enter (requestParams : APIRequestParams) (w : World) : World * nat :=
  let accountId := accountOf requestParams w in
  match endpointResolution (self w) !! accountId with
  | Some p => (w, p)
  | None =>
      let serviceList := defaultServiceList w in
      let w1 := if inList (serviceOf requestParams) serviceList then w
                else set_defaultServiceList (serviceList ++ [serviceOf requestParams]) w in
      let '(w2, p) := getServiceEndpoints_call accountId TheDefaultList w1 in
      (set_endpointResolution (<[accountId := p]> (endpointResolution (self w2))) w2, p)
  end.

(** How [prepare] goes on once the awaited collection is there. *)
Inductive PrepareNext := Return (collection : JsVal) | ReturnPromise (p : nat).

(** [prepare] after its [await] (lines 392-397); [accountId] was computed
    before it. *)
Definition prepare_resume (accountId : string) (requestParams : APIRequestParams)
    (collection : JsVal) (w : World) : World * PrepareNext :=
  if hasOwnProperty (view w collection) (serviceOf requestParams) then (w, Return collection)
  else
    let w1 := deleteCachedValue (endpointsCacheKey accountId) w in
    let serviceList := ownKeys (view w collection) ++ [serviceOf requestParams] in
    let '(w2, p) := getServiceEndpoints_call accountId (OwnList serviceList) w1 in
    (set_endpointResolution (<[accountId := p]> (endpointResolution (self w2))) w2,
     ReturnPromise p).

Definition settled (p : nat) (w : World) : option (Completion JsVal) :=
  match promises w !! p with
  | Some (Settled s) => Some s
  | _ => None
  end.

(** [prepare] run to completion with nothing else going on; [None] when
    the awaited promise never settles. *)
Definition prepare (requestParams : APIRequestParams) (w : World)
  : option (World * Completion JsVal) :=
  let accountId := accountOf requestParams w in
  let '(w1, p) := prepare_enter requestParams w in
  let w2 := settle w1 in
  s ← settled p w2;
  match s with
  | Rejected e => Some (w2, Rejected e)
  | Fulfilled collection =>
      let '(w3, next) := prepare_resume accountId requestParams collection w2 in
      match next with
      | Return c => Some (w3, Fulfilled c)
      | ReturnPromise q =>
          let w4 := settle w3 in
          s' ← settled q w4; Some (w4, s')
      end
  end.

(** *** Request normalisation *)

(** [calculateRequestURL] (lines 346-373). *)
Definition calculateRequestURL (params : APIRequestParams) (w : World)
  : option (World * Completion string) :=
  if usesEndpoints InsightAPI params then
    '(w1, r) ← prepare params w;
    match r with
    | Rejected e => Some (w1, Rejected e)
    | Fulfilled serviceCollection =>
        let fullPath :=
          concatString (getProperty (view w1 serviceCollection) (serviceOf params)) in
        Some (w1, Fulfilled (requestPath params fullPath))
    end
  else Some (w, Fulfilled (requestPath params (resolveURL (service_stack params) None))).

(** The folding of the deprecated shorthands into the descriptor at
    [config] (lines 331-342). *)
Definition foldShorthands (config : nat) (w : World) : World :=
  let w1 :=
    match nonEmpty (accept_header (obj w config)) with
    | Some accept =>
        let '(wa, h) := match headers (obj w config) with
                        | Some h => (w, h)
                        | None =>
                            let '(wn, h) := new_dict [] w in
                            (store_obj config (set_headers (Some h) (obj wn config)) wn, h)
                        end in
        let wb := store_dict h (assign "Accept" (JStr accept) (dict wa h)) wa in
        store_obj config (set_accept_header None (obj wb config)) wb
    | None => w
    end in
  match nonEmpty (response_type (obj w1 config)) with
  | Some t =>
      store_obj config
        (set_response_type None (set_responseType (Some t) (obj w1 config))) w1
  | None => w1
  end.

(** [normalizeRequest] (lines 323-344): the reference it returns. *)
Definition normalizeRequest (config : nat) (w : World) : option (World * Completion nat) :=
  if hasIdentity (obj w config) then
    let '(w1, merged) := new_obj (objectAssign (globalServiceParams (self w)) (obj w config)) w in
    '(w2, r) ← calculateRequestURL (obj w1 merged) w1;
    match r with
    | Rejected e => Some (w2, Rejected e)
    | Fulfilled u =>
        let w3 := store_obj merged (set_url (Some u) (obj w2 merged)) w2 in
        Some (foldShorthands merged w3, Fulfilled merged)
    end
  else Some (foldShorthands config w, Fulfilled config).

(** *** The request methods *)

(** [get] (lines 106-135). *)
Definition get (config : nat) (w : World) : option (World * Completion JsVal) :=
  let w0 := store_obj config (set_method (Some "GET") (obj w config)) w in
  '(w1, r) ← normalizeRequest config w0;
  match r with
  | Rejected e => Some (w1, Rejected e)
  | Fulfilled normalized =>
      match queryParams (dictOf w1 (params (obj w1 config))) with
      | None => Some (w1, Rejected TypeError)
      | Some query =>
          let fullUrl := fullUrl query in
          let cacheTTL := cacheTTL (obj w1 normalized) in
          let '(w2, cachedValue) :=
            if cacheTTL =? 0 then (w1, None) else getCachedValue fullUrl w1 in
          if truthy_opt cachedValue then Some (w2, Fulfilled (default JNull cachedValue))
          else
            '(w3, r) ← axiosRequest normalized 0 w2;
            match r with
            | Rejected e => Some (w3, Rejected e)
            | Fulfilled response =>
                let w4 := if cacheTTL =? 0 then w3
                          else setCachedValue fullUrl (response_data response) cacheTTL w3 in
                Some (w4, Fulfilled (response_data response))
            end
      end
  end.

(** What [post], [put], [delete] and [form] share once the method (and,
    for [form], the headers) are set: lines 151-155 and their copies. *)
Definition write (config : nat) (w0 : World) : option (World * Completion JsVal) :=
  '(w1, r) ← normalizeRequest config w0;
  match r with
  | Rejected e => Some (w1, Rejected e)
  | Fulfilled normalized =>
      let w2 := deleteCachedValue (default "undefined" (url (obj w1 normalized))) w1 in
      '(w3, r) ← axiosRequest normalized 0 w2;
      match r with
      | Rejected e => Some (w3, Rejected e)
      | Fulfilled response => Some (w3, Fulfilled (response_data response))
      end
  end.

Definition post (config : nat) (w : World) : option (World * Completion JsVal) :=
  write config (store_obj config (set_method (Some "POST") (obj w config)) w).

Definition put (config : nat) (w : World) : option (World * Completion JsVal) :=
  write config (store_obj config (set_method (Some "PUT") (obj w config)) w).

Definition delete_ (config : nat) (w : World) : option (World * Completion JsVal) :=
  write config (store_obj config (set_method (Some "DELETE") (obj w config)) w).

Definition form (config : nat) (w : World) : option (World * Completion JsVal) :=
  let w0 := store_obj config (set_method (Some "POST") (obj w config)) w in
  let '(w0', h) := new_dict [("Content-Type", JStr "multipart/form-data")] w0 in
  write config (store_obj config (set_headers (Some h) (obj w0' config)) w0').

End Client.

(** ** Authentication (lines 262-305) *)

Section Authentication.

Variable InsightAPI GlobalAPI : string.
Variable resolveURL : option string -> option string -> string.
Variable transport : nat -> Request -> Outcome * Z.
Variable random : nat -> Z -> Z.
Variable base64Encode : string -> string.
                        (* lines 310-321: [btoa] or base64-js, outside the source tree *)

(** The descriptor both methods post: the [authenticate] path of [aims]
    on the global stack. *)
Definition aimsAuthenticate (h : nat) (payload : JsVal) : APIRequestParams :=
  Build_APIRequestParams (Some GlobalAPI) (Some "aims") None None None (Some "authenticate")
    None None None None None None None None (Some h) None (Some payload) None.

(** The body of [authenticate]: [{}] unless an MFA code is given. *)
Definition mfaPayload (mfa : option string) : JsVal :=
  match nonEmpty mfa with
  | Some code => JObj [("mfa_code", JStr code)]
  | None => JObj []
  end.

(** [authenticate] (lines 262-279); the warning on the console apart. *)
Definition authenticate (user pass : string) (mfa : option string) (w : World)
  : option (World * Completion JsVal) :=
  let payload := mfaPayload mfa in
  let '(w1, h) :=
    new_dict [("Authorization", JStr ("Basic " +:+ base64Encode (user +:+ ":" +:+ pass)))] w in
  let '(w2, config) := new_obj (aimsAuthenticate h payload) w1 in
  post InsightAPI GlobalAPI resolveURL transport random config w2.

(** [authenticateWithMFASessionToken] (lines 290-305). *)
Definition authenticateWithMFASessionToken (token mfa_code : string) (w : World)
  : option (World * Completion JsVal) :=
  let '(w1, h) := new_dict [("X-AIMS-Session-Token", JStr token)] w in
  let '(w2, config) := new_obj (aimsAuthenticate h (JObj [("mfa_code", JStr mfa_code)])) w1 in
  post InsightAPI GlobalAPI resolveURL transport random config w2.

End Authentication.

(** ** Overlapping calls of [prepare] *)

(** JavaScript runs one piece of code at a time.  A call of [prepare] runs
    up to its [await] and is suspended on a promise; when the transport
    answers a discovery request the [then] handlers run, the promise
    settles, and the calls suspended on it continue one after another, in
    the order in which they suspended, before anything else happens. *)
Section EventLoop.

Variable InsightAPI GlobalAPI : string.
Variable resolveURL : option string -> option string -> string.

Inductive Continuation :=
| AfterAwait (accountId : string) (requestParams : APIRequestParams)   (* line 391 *)
| AfterReturn.                                                          (* line 397 *)

Record Waiter := {
  waiter_call : nat;
  waiter_promise : nat;
  waiter_then : Continuation
}.

Record Loop := {
  world : World;
  waiting : list Waiter;                    (* suspended calls, oldest first *)
  returned : list (nat * Completion JsVal); (* calls that have settled *)
  calls : nat                               (* calls of [prepare] so far *)
}.

Inductive Stimulus :=
| CallPrepare (requestParams : APIRequestParams)
| Answer (index : nat) (o : Outcome) (elapsed : Z).

Definition finish (call : nat) (s : Completion JsVal) (w : World) (l : Loop) : Loop :=
  {| world := w; waiting := waiting l; returned := returned l ++ [(call, s)]; calls := calls l |}.

Definition resume (x : Waiter) (s : Completion JsVal) (l : Loop) : Loop :=
  match s, waiter_then x with
  | Rejected e, _ => finish (waiter_call x) (Rejected e) (world l) l
  | Fulfilled v, AfterReturn => finish (waiter_call x) (Fulfilled v) (world l) l
  | Fulfilled collection, AfterAwait accountId requestParams =>
      let '(w, next) :=
        prepare_resume GlobalAPI resolveURL accountId requestParams collection (world l) in
      match next with
      | Return c => finish (waiter_call x) (Fulfilled c) w l
      | ReturnPromise q =>
          {| world := w;
             waiting := waiting l ++ [{| waiter_call := waiter_call x; waiter_promise := q;
                                         waiter_then := AfterReturn |}];
             returned := returned l; calls := calls l |}
      end
  end.

(** The oldest suspended call whose promise has settled. *)
Fixpoint pick (ws : list Waiter) (w : World)
  : option (Waiter * Completion JsVal * list Waiter) :=
  match ws with
  | [] => None
  | x :: rest =>
      match settled (waiter_promise x) w with
      | Some s => Some (x, s, rest)
      | None => '(y, s, rest') ← pick rest w; Some (y, s, x :: rest')
      end
  end.

Fixpoint drain (fuel : nat) (l : Loop) : Loop :=
  match fuel with
  | O => l
  | S fuel' =>
      match pick (waiting l) (world l) with
      | None => l
      | Some (x, s, rest) =>
          drain fuel' (resume x s {| world := world l; waiting := rest;
                                     returned := returned l; calls := calls l |})
      end
  end.

(** A suspended call continues at most twice (lines 391 and 397). *)
Definition continue (l : Loop) : Loop := drain (S (2 * length (waiting l))) l.

Fixpoint takeCall (index : nat) (cs : list Inflight) : option (Inflight * list Inflight) :=
  match cs with
  | [] => None
  | c :: rest =>
      if Nat.eqb (call_index c) index then Some (c, rest)
      else '(d, rest') ← takeCall index rest; Some (d, c :: rest')
  end.

Definition step (l : Loop) (e : Stimulus) : Loop :=
  match e with
  | CallPrepare requestParams =>
      let accountId := accountOf requestParams (world l) in
      let '(w, p) := prepare_enter GlobalAPI resolveURL requestParams (world l) in
      continue {| world := w;
                  waiting := waiting l ++ [{| waiter_call := calls l; waiter_promise := p;
                                              waiter_then := AfterAwait accountId requestParams |}];
                  returned := returned l; calls := S (calls l) |}
  | Answer index o elapsed =>
      match takeCall index (inflight (world l)) with
      | None => l
      | Some (c, rest) =>
          continue {| world := answer InsightAPI resolveURL c o elapsed
                                 (set_inflight rest (world l));
                      waiting := waiting l; returned := returned l; calls := calls l |}
      end
  end.

Definition run (l : Loop) (es : list Stimulus) : Loop := fold_left step es l.

(** The discovery requests of an account that are with the transport. *)
Definition outstanding (accountId : string) (l : Loop) : list Inflight :=
  List.filter (fun c => String.eqb (call_account c) accountId) (inflight (world l)).

End EventLoop.

(** A client as its constructor leaves it, in a world where nothing has
    happened yet. *)
Definition newClient (InsightAPI : string) : Client :=
  {| storage := ∅; endpointResolution := ∅;
     globalServiceParams := objectAssign emptyParams (defaultServiceParams InsightAPI);
     defaultAccountId := None |}.

Definition initialWorld (InsightAPI : string) : World :=
  {| heap := {| objs := ∅; dicts := ∅ |};
     defaultServiceList := ["aims"; "subscriptions"; "search"; "sources"; "assets_query";
                            "assets_write"; "dashboards"; "iris"; "suggestions"; "cargo"];
     self := newClient InsightAPI;
     promises := ∅; inflight := []; clock := 0; trace := []; draws := O |}.

Definition initialLoop (InsightAPI : string) : Loop :=
  {| world := initialWorld InsightAPI; waiting := []; returned := []; calls := O |}.

(** ** Reading the trace, and the vocabulary of the properties *)

Fixpoint attempts (t : list Event) : list Z :=
  match t with
  | [] => []
  | Sent i _ :: rest => i :: attempts rest
  | Slept _ :: rest => attempts rest
  end.

Fixpoint delays (t : list Event) : list Z :=
  match t with
  | [] => []
  | Sent _ _ :: rest => delays rest
  | Slept ms :: rest => ms :: delays rest
  end.

Fixpoint requests (t : list Event) : list Request :=
  match t with
  | [] => []
  | Sent _ r :: rest => r :: requests rest
  | Slept _ :: rest => requests rest
  end.

(** The statuses worth another attempt. *)
Definition retryableStatus (s : Z) : Prop :=
  s = 0 \/ 300 <= s <= 399 \/ 500 <= s <= 599.

(** Strictly increasing, every element at least [lo]. *)
Fixpoint increasingFrom (lo : Z) (l : list Z) : Prop :=
  match l with
  | [] => True
  | x :: rest => lo <= x /\ increasingFrom (x + 1) rest
  end.

(** The continuations a list of suspended calls still has to run: a call
    suspended at line 391 may suspend once more at line 397. *)
Fixpoint pendingWork (ws : list Waiter) : nat :=
  match ws with
  | [] => O
  | x :: rest =>
      (match waiter_then x with AfterAwait _ _ => 2 | AfterReturn => 1 end + pendingWork rest)%nat
  end.

(** What a call of [axiosRequest] leaves as it found it. *)
Definition untouchedByRequest (config : nat) (w w' : World) : Prop :=
  self w' = self w
  /\ defaultServiceList w' = defaultServiceList w
  /\ promises w' = promises w
  /\ inflight w' = inflight w
  /\ (forall l, l <> config -> objs (heap w') !! l = objs (heap w) !! l)
  /\ (exists p, obj w' config = set_params p (obj w config))
  /\ (forall l, is_Some (dicts (heap w) !! l) -> params (obj w config) <> Some l ->
        dicts (heap w') !! l = dicts (heap w) !! l).

(** The cache lookup of [get]: none when the TTL is 0. *)
Definition getLookup (query : string) (normalized : nat) (w1 : World) : World * option JsVal :=
  if cacheTTL (obj w1 normalized) =? 0 then (w1, None)
  else getCachedValue (fullUrl query) w1.

(** The descriptor whose shorthands [normalizeRequest] folds: the
    argument, or its copy merged over the global parameters. *)
Definition normalizeSource (config : nat) (w : World) : APIRequestParams :=
  if hasIdentity (obj w config)
  then objectAssign (globalServiceParams (self w)) (obj w config)
  else obj w config.

(** A host as the success handler stores it. *)
Definition withScheme (host : JsVal) : Prop :=
  exists h, host = JStr h /\ startsWith "http" h = true.

(** ** The first resolution of an account *)

Section FirstResolutionModel.

Variable InsightAPI GlobalAPI : string.
Variable resolveURL : option string -> option string -> string.
Variable transport : nat -> Request -> Outcome * Z.

(** The services the first discovery request of a call asks for. *)
Definition firstServiceList (requestParams : APIRequestParams) (w : World) : list string :=
  if inList (serviceOf requestParams) (defaultServiceList w) then defaultServiceList w
  else defaultServiceList w ++ [serviceOf requestParams].

Definition firstCall (requestParams : APIRequestParams) (w : World) : Inflight :=
  {| call_index := sentCount w;
     call_request := endpointsRequest GlobalAPI resolveURL (accountOf requestParams w)
                       (firstServiceList requestParams w);
     call_account := accountOf requestParams w;
     call_list := TheDefaultList;
     call_promise := fresh (dom (promises w)) |}.

(** The world in which the handlers of the first discovery request run,
    and what they make of the transport's answer. *)
Definition firstAnswered (requestParams : APIRequestParams) (w : World)
  : World * Completion JsVal :=
  let c := firstCall requestParams w in
  let reply := transport (call_index c) (call_request c) in
  let entered := fst (prepare_enter GlobalAPI resolveURL requestParams w) in
  getServiceEndpoints_then InsightAPI resolveURL c (ax (fst reply))
    (set_clock (clock entered + Z.max 0 (snd reply)) (set_inflight [] entered)).

Definition firstSettled (requestParams : APIRequestParams) (w : World) : World :=
  let result := firstAnswered requestParams w in
  set_promises (<[fresh (dom (promises w)) := Settled (snd result)]> (promises (fst result)))
               (fst result).

End FirstResolutionModel.

(** ** Concrete collaborators used in the examples *)

Module Example.

Definition InsightAPI : string := "insight:api".
Definition GlobalAPI : string := "global:api".

Definition resolveURL (stack path : option string) : string :=
  "https://" +:+ default "unknown" stack +:+ default "" path.

Definition random (n : nat) (k : Z) : Z := Z.of_nat n mod k.

(** A transport that answers every request with the same status. *)
Definition always (code : Z) (n : nat) (r : Request) : Outcome * Z :=
  (Responded {| status := code; response_data := JNull |}, 40).

(** A transport that answers the n-th request with the body ["reply n"]. *)
Definition numbered (n : nat) (r : Request) : Outcome * Z :=
  (Responded {| status := 200; response_data := JStr ("reply " +:+ indexKey n) |}, 40).

Definition unreachable (n : nat) (r : Request) : Outcome * Z := (Unreachable, 40).

(** A backend: the discovery service places every service it is asked for
    on one host (given without a scheme); any other request is answered as
    by [numbered]. *)
Definition backend (n : nat) (r : Request) : Outcome * Z :=
  match req_data r with
  | Some (JArr names) =>
      if startsWith "https://global:api/endpoints/v1/" (default "" (req_url r))
      then (Responded {| status := 200;
                         response_data :=
                           JObj (map (fun name => (toString_elem name, JStr "api.example")) names) |},
            40)
      else numbered n r
  | _ => numbered n r
  end.

Definition world0 : World := initialWorld InsightAPI.

(** A descriptor that names a URL directly. *)
Definition plain (u : string) : APIRequestParams := set_url (Some u) emptyParams.

(** A descriptor that names a service of an account. *)
Definition service (name account : string) : APIRequestParams :=
  Build_APIRequestParams (Some InsightAPI) (Some name) None None (Some account)
    None None None None None None None None None None None None None.

Definition with_retry (count interval : Z) (c : APIRequestParams) : APIRequestParams :=
  Build_APIRequestParams (service_stack c) (service_name c) (residency c) (version c)
    (account_id c) (path c) (noEndpointsResolution c) (ttl c) (Some count)
    (Some interval) (accept_header c) (response_type c) (url c) (method c)
    (headers c) (params c) (data c) (responseType c).

Definition with_ttl (t : CacheTtl) (c : APIRequestParams) : APIRequestParams :=
  Build_APIRequestParams (service_stack c) (service_name c) (residency c) (version c)
    (account_id c) (path c) (noEndpointsResolution c) (Some t) (retry_count c)
    (retry_interval c) (accept_header c) (response_type c) (url c) (method c)
    (headers c) (params c) (data c) (responseType c).

End Example.

(** ** Descriptors that differ in one field *)

Definition set_version (v : option ServiceVersion) (c : APIRequestParams) : APIRequestParams :=
  Build_APIRequestParams (service_stack c) (service_name c) (residency c) v
    (account_id c) (path c) (noEndpointsResolution c) (ttl c) (retry_count c)
    (retry_interval c) (accept_header c) (response_type c) (url c) (method c)
    (headers c) (params c) (data c) (responseType c).

Definition set_account_id (v : option string) (c : APIRequestParams) : APIRequestParams :=
  Build_APIRequestParams (service_stack c) (service_name c) (residency c) (version c)
    v (path c) (noEndpointsResolution c) (ttl c) (retry_count c)
    (retry_interval c) (accept_header c) (response_type c) (url c) (method c)
    (headers c) (params c) (data c) (responseType c).

Definition set_path (v : option string) (c : APIRequestParams) : APIRequestParams :=
  Build_APIRequestParams (service_stack c) (service_name c) (residency c) (version c)
    (account_id c) v (noEndpointsResolution c) (ttl c) (retry_count c)
    (retry_interval c) (accept_header c) (response_type c) (url c) (method c)
    (headers c) (params c) (data c) (responseType c).

Definition set_noEndpointsResolution (v : option bool) (c : APIRequestParams)
  : APIRequestParams :=
  Build_APIRequestParams (service_stack c) (service_name c) (residency c) (version c)
    (account_id c) (path c) v (ttl c) (retry_count c)
    (retry_interval c) (accept_header c) (response_type c) (url c) (method c)
    (headers c) (params c) (data c) (responseType c).

(** ** The schedule of a request that keeps failing *)

(** The attempt indices and the delays of [n] retries that start at index
    [i]: the index advances by two per retry. *)
Fixpoint retryIndices (n : nat) (i : Z) : list Z :=
  match n with
  | O => [i]
  | S n' => i :: retryIndices n' (i + 2)
  end.

Fixpoint retryDelays (n : nat) (interval i : Z) : list Z :=
  match n with
  | O => []
  | S n' => interval * (i + 1) :: retryDelays n' interval (i + 2)
  end.

(** The retries a budget allows from index [i] on. *)
Definition retriesDue (budget i : Z) : nat := Z.to_nat ((budget - i + 1) / 2).

(** ** Scenarios *)

(** The retry scenario of C1: [retry_count = 3], [retry_interval = 1000],
    every attempt answered with 503. *)
Definition retryScenario : World * nat :=
  new_obj (Example.with_retry 3 1000 (Example.plain "https://api.example/v1/things"))
          Example.world0.

(** Three calls of [prepare] for account 7, for services that are not on
    the default list, issued before the discovery request is answered; then
    the transport fails that request. *)
Definition overlappingCalls : list Stimulus :=
  [CallPrepare (Example.service "A" "7");
   CallPrepare (Example.service "B" "7");
   CallPrepare (Example.service "C" "7")].

Definition overlapRun (es : list Stimulus) : Loop :=
  run Example.InsightAPI Example.GlobalAPI Example.resolveURL
      (initialLoop Example.InsightAPI) es.

(** A descriptor that names a URL and carries the [accept_header]
    shorthand, and one that names a service, has [headers] of its own and
    carries the shorthand too. *)
Definition shorthandScenario : World * nat :=
  new_obj (set_accept_header (Some "text/csv") (Example.plain "https://api.example/report"))
          Example.world0.

Definition sharedHeadersScenario : World * nat :=
  let '(w, h) := new_dict [("X-Trace", JStr "1")] Example.world0 in
  new_obj (set_headers (Some h) (set_accept_header (Some "text/csv") (Example.service "aims" "7"))) w.

Definition normalizeExample (scenario : World * nat) : option (World * Completion nat) :=
  normalizeRequest Example.InsightAPI Example.GlobalAPI Example.resolveURL Example.unreachable
                   (snd scenario) (fst scenario).

(** Two descriptors for different services of account 7, without query
    parameters and cacheable for a minute, and a descriptor for a write to
    the first service. *)
Definition readsAndWrites : World * (nat * nat * nat) :=
  let '(w1, things) :=
    new_obj (Example.with_ttl (TtlNumber 60000) (Example.service "things" "7")) Example.world0 in
  let '(w2, others) :=
    new_obj (Example.with_ttl (TtlNumber 60000) (Example.service "others" "7")) w1 in
  let '(w3, update) := new_obj (Example.service "things" "7") w2 in
  (w3, (things, others, update)).

Definition things : nat := fst (fst (snd readsAndWrites)).
Definition others : nat := snd (fst (snd readsAndWrites)).
Definition update : nat := snd (snd readsAndWrites).

Definition exampleGet (config : nat) (w : World) : option (World * Completion JsVal) :=
  get Example.InsightAPI Example.GlobalAPI Example.resolveURL Example.backend Example.random
      config w.

Definition examplePost (config : nat) (w : World) : option (World * Completion JsVal) :=
  post Example.InsightAPI Example.GlobalAPI Example.resolveURL Example.backend Example.random
       config w.

Definition worldAfter {A : Type} (r : option (World * A)) (w : World) : World :=
  match r with Some (w', _) => w' | None => w end.

(** The world once the first service has been read, and the second
    descriptor normalised in it for a GET. *)
Definition afterFirstGet : World :=
  worldAfter (exampleGet things (fst readsAndWrites)) (fst readsAndWrites).

Definition othersNormalized : option (World * Completion nat) :=
  normalizeRequest Example.InsightAPI Example.GlobalAPI Example.resolveURL Example.backend others
    (store_obj others (set_method (Some "GET") (obj afterFirstGet others)) afterFirstGet).

Definition normalizedOf (r : option (World * Completion nat)) : nat :=
  match r with Some (_, Fulfilled n) => n | _ => O end.

(** What a run ended with. *)
Definition outcomeOf {A : Type} (r : option (World * Completion A)) (d : Completion A)
  : Completion A :=
  match r with Some (_, c) => c | None => d end.

(** A GET of a service that is not cached, one that is cached for a minute
    and one with a lifetime of half a second. *)
Definition getScenario (t : option CacheTtl) : World * nat :=
  new_obj (match t with
           | Some t => Example.with_ttl t (Example.service "things" "7")
           | None => Example.service "things" "7"
           end) Example.world0.

Definition getNormalized (tr : nat -> Request -> Outcome * Z) (t : option CacheTtl)
  : option (World * Completion nat) :=
  normalizeRequest Example.InsightAPI Example.GlobalAPI Example.resolveURL tr
    (snd (getScenario t))
    (store_obj (snd (getScenario t))
       (set_method (Some "GET") (obj (fst (getScenario t)) (snd (getScenario t))))
       (fst (getScenario t))).

Definition getRequested (tr : nat -> Request -> Outcome * Z) (t : option CacheTtl)
  : option (World * Completion AxiosResponse) :=
  axiosRequest tr Example.random (normalizedOf (getNormalized tr t)) 0
    (worldAfter (getNormalized tr t) (fst (getScenario t))).

Definition getW1 (tr : nat -> Request -> Outcome * Z) (t : option CacheTtl) : World :=
  worldAfter (getNormalized tr t) (fst (getScenario t)).

Definition getN (tr : nat -> Request -> Outcome * Z) (t : option CacheTtl) : nat :=
  normalizedOf (getNormalized tr t).

(** The request of the GET, sent from the world the cache lookup leaves. *)
Definition getSent (tr : nat -> Request -> Outcome * Z) (t : option CacheTtl) (w2 : World)
  : option (World * Completion AxiosResponse) :=
  axiosRequest tr Example.random (getN tr t) 0 w2.

(** A POST to a service. *)
Definition postScenario : World * nat :=
  new_obj (set_method (Some "POST") (Example.service "things" "7")) Example.world0.

Definition postNormalized : option (World * Completion nat) :=
  normalizeRequest Example.InsightAPI Example.GlobalAPI Example.resolveURL Example.backend
    (snd postScenario) (fst postScenario).


(** A discovery request for account 7 and an answer that places two
    services, one of them without a scheme. *)
Definition discoveryCall : Inflight :=
  {| call_index := 0;
     call_request := endpointsRequest Example.GlobalAPI Example.resolveURL "7" ["aims"; "iris"];
     call_account := "7";
     call_list := OwnList ["aims"; "iris"];
     call_promise := 0 |}.

Definition discoveryResponse : AxiosResponse :=
  {| status := 200;
     response_data := JObj [("aims", JStr "api.example"); ("iris", JStr "http://iris.example")] |}.

(** What the example backend answers the first discovery request for the
    service [things] with. *)
Definition backendHosts : list (string * JsVal) :=
  map (fun name => (name, JStr "api.example"))
      (defaultServiceList Example.world0 ++ ["things"]).

(** One call of [prepare] for account 7, suspended on its discovery
    request. *)
Definition pendingLoop : Loop := overlapRun [CallPrepare (Example.service "A" "7")].

(** An encoder standing in for base64. *)
Definition exampleEncode (s : string) : string := "b64(" +:+ s +:+ ")".

(** The world after a first resolution for account 7, for a service that
    is not on the default list, whose discovery request failed. *)
Definition failedWorld : World :=
  worldAfter (prepare Example.InsightAPI Example.GlobalAPI Example.resolveURL
                Example.unreachable (Example.service "A" "7") Example.world0)
             Example.world0.

(** An account whose resolved collection knows one service. *)
Definition resolvedWorld : World :=
  set_endpointResolution {["7" := 0%nat]}
    (set_promises {[0%nat := Settled (Fulfilled (JObj [("aims", JStr "https://api.example")]))]}
       Example.world0).

(** * Properties *)

#[global] Arguments endpointsCacheKey : simpl never.
#[global] Arguments cabinet_get : simpl never.
#[global] Arguments cabinet_set : simpl never.
#[global] Arguments cabinet_delete : simpl never.
#[global] Arguments fullUrl : simpl never.

(** ** The cache *)

Lemma cabinet_get_set clock key v seconds (c : gmap string CabinetEntry) :
  0 <= seconds ->
  cabinet_get clock key (cabinet_set clock key v seconds c)
  = (Some v, cabinet_set clock key v seconds c).
Proof.
  intros Hs. unfold cabinet_get, cabinet_set.
  rewrite lookup_insert_eq. simpl.
  destruct (Z.ltb_spec (clock + seconds * 1000) clock) as [Hlt | Hge]; [lia | reflexivity].
Qed.

Lemma cabinet_get_delete clock key (c : gmap string CabinetEntry) :
  cabinet_get clock key (cabinet_delete key c) = (None, cabinet_delete key c).
Proof.
  unfold cabinet_get, cabinet_delete. now rewrite lookup_delete_eq.
Qed.

Lemma cabinet_get_absent clock key (c : gmap string CabinetEntry) :
  c !! key = None -> cabinet_get clock key c = (None, c).
Proof. intros H. unfold cabinet_get. now rewrite H. Qed.

Lemma setCachedValue_long key v ttl w :
  1000 <= ttl ->
  setCachedValue key v ttl w
  = set_storage (cabinet_set (clock w) key v (ttl / 1000) (storage (self w))) w.
Proof.
  intros Httl. unfold setCachedValue. destruct (Z.ltb_spec ttl 1000); [lia | reflexivity].
Qed.

Lemma storage_set_storage s w : storage (self (set_storage s w)) = s.
Proof. reflexivity. Qed.

Lemma getCachedValue_after_delete key w :
  getCachedValue key (deleteCachedValue key w) = (deleteCachedValue key w, None).
Proof.
  unfold getCachedValue.
  replace (storage (self (deleteCachedValue key w)))
    with (cabinet_delete key (storage (self w))) by reflexivity.
  rewrite cabinet_get_delete. reflexivity.
Qed.

Lemma getCachedValue_after_set key v ttl w :
  1000 <= ttl -> snd (getCachedValue key (setCachedValue key v ttl w)) = Some v.
Proof.
  intros Httl. unfold setCachedValue.
  destruct (Z.ltb_spec ttl 1000) as [Hlt | _]; [lia |].
  unfold getCachedValue. cbn.
  rewrite cabinet_get_set; [reflexivity |].
  apply Z.div_pos; lia.
Qed.

(** C6, as amended: with a ttl strictly below 1000 ms [setCachedValue]
    leaves the world (the store included) as it is, so an immediate
    [getCachedValue] of the key answers what it answered before the call;
    it is absent whenever the key had no entry. *)
Theorem setCachedValue_short_ttl key v ttl w :
  ttl < 1000 ->
  setCachedValue key v ttl w = w
  /\ getCachedValue key (setCachedValue key v ttl w) = getCachedValue key w
  /\ (storage (self w) !! key = None ->
      snd (getCachedValue key (setCachedValue key v ttl w)) = None).
Proof.
  intros Httl.
  assert (Hnoop : setCachedValue key v ttl w = w).
  { unfold setCachedValue. destruct (Z.ltb_spec ttl 1000); [reflexivity | lia]. }
  rewrite Hnoop. repeat split.
  intros Habsent. unfold getCachedValue.
  now rewrite (cabinet_get_absent _ _ _ Habsent).
Qed.

Lemma setCachedValue_short_ttl_witness :
  999 < 1000
  /\ setCachedValue "k" (JNum 7) 999 Example.world0 = Example.world0
  /\ snd (getCachedValue "k" (setCachedValue "k" (JNum 7) 999 Example.world0)) = None.
Proof.
  split; [lia |].
  destruct (setCachedValue_short_ttl "k" (JNum 7) 999 Example.world0) as (H1 & _ & H3); [lia |].
  split; [exact H1 | apply H3; reflexivity].
Defined.

(** C6 as stated fails on a key that is already cached: the short-lived
    [set] is skipped and the earlier value is still answered. *)
Lemma setCachedValue_short_ttl_keeps_entry :
  let w := setCachedValue "k" (JStr "old") 60000 Example.world0 in
  snd (getCachedValue "k" (setCachedValue "k" (JStr "new") 999 w)) = Some (JStr "old").
Proof. vm_compute. reflexivity. Qed.

(** ** The retry predicate *)

Lemma retryableStatus_spec s :
  (s =? 0) || ((300 <=? s) && (s <=? 399)) || ((500 <=? s) && (s <=? 599)) = true
  <-> retryableStatus s.
Proof.
  unfold retryableStatus.
  rewrite !orb_true_iff, !andb_true_iff, Z.eqb_eq, !Z.leb_le. tauto.
Qed.

Lemma isRetryableError_true error config attemptIndex :
  isRetryableError error config attemptIndex = true <->
  exists budget, retry_count config = Some budget /\ attemptIndex < budget
    /\ (error = None
        \/ exists e s, error = Some e /\ reasonStatus e = Some s /\ retryableStatus s).
Proof.
  unfold isRetryableError.
  destruct (retry_count config) as [budget |];
    [| split; [discriminate | intros (b & H & _); discriminate]].
  destruct (Z.leb_spec budget attemptIndex) as [Hle | Hlt].
  { split; [discriminate |]. intros (b & [= <-] & Hb & _). lia. }
  destruct error as [e |].
  - destruct (reasonStatus e) as [s |] eqn:Hs.
    + rewrite retryableStatus_spec. split.
      * intros H. exists budget. repeat split; [assumption |]. right. now exists e, s.
      * intros (b & _ & _ & [H | (e' & s' & [= <-] & Hs' & H)]); congruence.
    + split; [discriminate |].
      intros (b & _ & _ & [H | (e' & s & [= <-] & Hs' & _)]); congruence.
  - split; [| reflexivity]. intros _. exists budget. repeat split; [assumption | now left].
Qed.

(** C5: [isRetryableError] answers true exactly when the descriptor has a
    [retry_count], the attempt index is strictly below it, and the failure
    is no response at all or a status of 0, 300..399 or 500..599; a status
    of 400..499 is never retried. *)
Theorem isRetryableError_iff error config attemptIndex :
  (isRetryableError error config attemptIndex = true <->
   exists budget, retry_count config = Some budget /\ attemptIndex < budget
     /\ (error = None
         \/ exists e s, error = Some e /\ reasonStatus e = Some s /\ retryableStatus s))
  /\ (forall r, 400 <= status r <= 499 ->
        isRetryableError (Some (BadStatus r)) config attemptIndex = false).
Proof.
  split; [apply isRetryableError_true |].
  intros r Hr. apply not_true_is_false. rewrite isRetryableError_true.
  intros (budget & _ & _ & [Hnone | (e & s & [= <-] & [= <-] & Hs)]); [discriminate |].
  unfold retryableStatus in Hs. lia.
Qed.

(** ** The retry engine *)

Lemma increasingFrom_weaken lo lo' l :
  lo' <= lo -> increasingFrom lo l -> increasingFrom lo' l.
Proof.
  destruct l as [| x rest]; simpl; [trivial |]. intros Hle [Hx Hrest]. split; [lia | exact Hrest].
Qed.

Lemma attempts_app t1 t2 : attempts (t1 ++ t2) = attempts t1 ++ attempts t2.
Proof.
  induction t1 as [| [i r | ms] t1 IH]; simpl; [reflexivity | now rewrite IH | exact IH].
Qed.

Lemma delays_app t1 t2 : delays (t1 ++ t2) = delays t1 ++ delays t2.
Proof.
  induction t1 as [| [i r | ms] t1 IH]; simpl; [reflexivity | exact IH | now rewrite IH].
Qed.

Lemma requests_app t1 t2 : requests (t1 ++ t2) = requests t1 ++ requests t2.
Proof.
  induction t1 as [| [i r | ms] t1 IH]; simpl; [reflexivity | now rewrite IH | exact IH].
Qed.

Section RetryEngine.

Variable transport : nat -> Request -> Outcome * Z.
Variable random : nat -> Z -> Z.

Lemma axiosRequest_fuel_step fuel config attemptIndex w :
  axiosRequest_fuel transport random (S fuel) config attemptIndex w
  = let '(w1, r) := send transport attemptIndex config w in
    match r with
    | Fulfilled response => Some (w1, Fulfilled response)
    | Rejected error =>
        if isRetryableError (Some error) (obj w1 config) attemptIndex
        then axiosRequest_fuel transport random fuel config (attemptIndex + 1 + 1)
               (afterRetryDelay random config attemptIndex w1)
        else Some (w1, Rejected error)
    end.
Proof. reflexivity. Qed.

Lemma send_obj attemptIndex config w :
  heap (fst (send transport attemptIndex config w)) = heap w.
Proof.
  unfold send. destruct (transport (sentCount w) _) as [o elapsed]. reflexivity.
Qed.

Lemma send_trace attemptIndex config w :
  trace (fst (send transport attemptIndex config w))
  = trace w ++ [Sent attemptIndex (snapshot w (obj w config))].
Proof.
  unfold send. destruct (transport (sentCount w) _) as [o elapsed]. reflexivity.
Qed.

Lemma afterRetryDelay_budget config attemptIndex w :
  retry_count (obj (afterRetryDelay random config attemptIndex w) config) = retry_count (obj w config).
Proof.
  unfold afterRetryDelay, ensureParams, generateCacheBuster, obj.
  destruct (params (default emptyParams (objs (heap (sleep _ w)) !! config))) as [l |] eqn:Hp;
    cbn in *.
  - reflexivity.
  - rewrite lookup_insert_eq. reflexivity.
Qed.

Lemma afterRetryDelay_trace config attemptIndex w :
  trace (afterRetryDelay random config attemptIndex w)
  = trace w ++ [Slept (retryInterval (obj w config) * (attemptIndex + 1))].
Proof.
  unfold afterRetryDelay, ensureParams, generateCacheBuster.
  destruct (params (obj (sleep _ w) config)) as [l |]; reflexivity.
Qed.

(** [axiosRequest] always comes to an end: with a budget [b] and starting
    at index [i] it makes at most [b - i + 1] attempts, and the attempt
    indices it logs increase strictly. *)
Lemma axiosRequest_fuel_enough fuel : forall config attemptIndex w,
  (attemptsLeft (obj w config) attemptIndex < fuel)%nat ->
  exists w' r evs,
    axiosRequest_fuel transport random fuel config attemptIndex w = Some (w', r)
    /\ trace w' = trace w ++ evs
    /\ increasingFrom attemptIndex (attempts evs)
    /\ (0 < length (attempts evs) <= S (attemptsLeft (obj w config) attemptIndex))%nat.
Proof.
  induction fuel as [| fuel IH]; intros config attemptIndex w Hfuel; [lia |].
  rewrite axiosRequest_fuel_step.
  pose proof (send_obj attemptIndex config w) as Hheap.
  pose proof (send_trace attemptIndex config w) as Htrace.
  destruct (send transport attemptIndex config w) as [w1 r]. simpl in Hheap, Htrace.
  assert (Hobj : obj w1 config = obj w config) by (unfold obj; now rewrite Hheap).
  assert (Hone : increasingFrom attemptIndex (attempts [Sent attemptIndex (snapshot w (obj w config))])
                 /\ (0 < length (attempts [Sent attemptIndex (snapshot w (obj w config))])
                     <= S (attemptsLeft (obj w config) attemptIndex))%nat)
    by (simpl; split; [split; [lia | trivial] | lia]).
  destruct r as [response | error].
  { exists w1, (Fulfilled response), [Sent attemptIndex (snapshot w (obj w config))].
    split; [reflexivity | split; [exact Htrace | exact Hone]]. }
  destruct (isRetryableError (Some error) (obj w1 config) attemptIndex) eqn:Hretry.
  2:{ exists w1, (Rejected error), [Sent attemptIndex (snapshot w (obj w config))].
      split; [reflexivity | split; [exact Htrace | exact Hone]]. }
  apply isRetryableError_true in Hretry.
  destruct Hretry as (budget & Hbudget & Hlt & _).
  rewrite Hobj in Hbudget.
  set (w5 := afterRetryDelay random config attemptIndex w1).
  assert (Hbudget5 : retry_count (obj w5 config) = Some budget).
  { unfold w5. rewrite afterRetryDelay_budget, Hobj. exact Hbudget. }
  assert (Hleft : attemptsLeft (obj w config) attemptIndex = Z.to_nat (budget - attemptIndex))
    by (unfold attemptsLeft; now rewrite Hbudget).
  assert (Hleft5 : attemptsLeft (obj w5 config) (attemptIndex + 1 + 1)
                   = Z.to_nat (budget - (attemptIndex + 1 + 1)))
    by (unfold attemptsLeft; now rewrite Hbudget5).
  destruct (IH config (attemptIndex + 1 + 1) w5) as (w' & r & evs & Hrun & Htr & Hinc & Hlen);
    [lia |].
  exists w', r,
    (Sent attemptIndex (snapshot w (obj w config))
       :: Slept (retryInterval (obj w1 config) * (attemptIndex + 1)) :: evs).
  split; [exact Hrun |]. split.
  - rewrite Htr. unfold w5. rewrite afterRetryDelay_trace, Htrace.
    now rewrite <- !app_assoc.
  - simpl. split.
    + split; [lia |]. apply (increasingFrom_weaken (attemptIndex + 1 + 1)); [lia | exact Hinc].
    + lia.
Qed.

Lemma axiosRequest_terminates config attemptIndex w :
  exists w' r evs,
    axiosRequest transport random config attemptIndex w = Some (w', r)
    /\ trace w' = trace w ++ evs
    /\ increasingFrom attemptIndex (attempts evs)
    /\ (0 < length (attempts evs) <= S (attemptsLeft (obj w config) attemptIndex))%nat.
Proof. apply axiosRequest_fuel_enough. lia. Qed.

(** A descriptor without [retry_count] is tried exactly once. *)
Lemma axiosRequest_without_budget config attemptIndex w :
  retry_count (obj w config) = None ->
  axiosRequest transport random config attemptIndex w
  = Some (send transport attemptIndex config w).
Proof.
  intros Hnone. unfold axiosRequest.
  rewrite axiosRequest_fuel_step.
  pose proof (send_obj attemptIndex config w) as Hheap.
  destruct (send transport attemptIndex config w) as [w1 [response | error]]; [reflexivity |].
  simpl in Hheap. unfold isRetryableError, obj. rewrite Hheap. fold (obj w config).
  now rewrite Hnone.
Qed.

End RetryEngine.

(** C1, what the code does in the scenario: after a failure the attempt
    index is incremented once for the delay and once more for the next call,
    so the 503s are met with three attempts (indices 0, 2 and 4) and two
    delays (1000 ms and 3000 ms) before the rejection; the spec's four
    attempts and 1000/2000/3000 ms are not what happens. *)
Theorem axiosRequest_always_503 :
  match axiosRequest (Example.always 503) Example.random (snd retryScenario) 0 (fst retryScenario) with
  | Some (w, r) => Some (attempts (trace w), delays (trace w), r)
  | None => None
  end
  = Some ([0; 2; 4], [1000; 3000],
          Rejected (BadStatus {| status := 503; response_data := JNull |})).
Proof. vm_compute. reflexivity. Qed.

(** ** Endpoint discovery *)

Lemma assoc_assign_same {A : Type} k (x : A) l : assoc k (assign k x l) = Some x.
Proof.
  induction l as [| [k' y] l IH]; simpl.
  - now rewrite String.eqb_refl.
  - destruct (String.eqb k k') eqn:E; simpl; rewrite ?String.eqb_refl, ?E; [reflexivity | exact IH].
Qed.

Lemma assoc_assign_other {A : Type} k k' (x : A) l :
  k <> k' -> assoc k' (assign k x l) = assoc k' l.
Proof.
  intros Hne. induction l as [| [k0 y] l IH]; simpl.
  - destruct (String.eqb_spec k' k); [congruence | reflexivity].
  - destruct (String.eqb_spec k k0) as [-> | Hk]; simpl.
    + destruct (String.eqb_spec k' k0); [congruence | reflexivity].
    + destruct (String.eqb k' k0); [reflexivity | exact IH].
Qed.

Lemma inList_In k l : inList k l = true <-> In k l.
Proof.
  unfold inList. rewrite existsb_exists. split.
  - intros (x & Hx & Heq). apply String.eqb_eq in Heq. now subst.
  - intros H. exists k. split; [exact H | apply String.eqb_refl].
Qed.

Section Discovery.

Variable InsightAPI GlobalAPI : string.
Variable resolveURL : option string -> option string -> string.

Lemma fallbackLocations_fold serviceList : forall acc s,
  In s serviceList \/ assoc s acc = Some (JStr (resolveURL (Some InsightAPI) None)) ->
  assoc s (fold_left (fun serviceLocations serviceId =>
                        assign serviceId (JStr (resolveURL (Some InsightAPI) None)) serviceLocations)
                     serviceList acc)
  = Some (JStr (resolveURL (Some InsightAPI) None)).
Proof.
  induction serviceList as [| x rest IH]; intros acc s H; simpl.
  - destruct H as [[] | H]; exact H.
  - apply IH. destruct H as [[-> | Hin] | Hacc].
    + right. apply assoc_assign_same.
    + now left.
    + right. destruct (String.eqb_spec x s) as [-> | Hne].
      * apply assoc_assign_same.
      * now rewrite assoc_assign_other.
Qed.

Lemma fallbackLocations_lookup serviceList s :
  In s serviceList ->
  getProperty (JObj (fallbackLocations InsightAPI resolveURL serviceList)) s
  = Some (JStr (resolveURL (Some InsightAPI) None)).
Proof. intros H. apply fallbackLocations_fold. now left. Qed.

(** C3, what the code does when the discovery request fails: the promise
    is fulfilled (nothing is thrown) with the map that sends every requested
    service to the default host, but the value put in the cache under the
    account's key, for 5 minutes, is the list of service names, not that
    map.  It is the array the call was given, as an object: for a first
    resolution the static default list itself. *)
Theorem discovery_failure_caches_service_list (c : Inflight) (error : Reason) (w : World) :
  let serviceList := derefList (call_list c) w in
  let cacheKey := endpointsCacheKey (call_account c) in
  let result := getServiceEndpoints_then InsightAPI resolveURL c (Rejected error) w in
  snd result = Fulfilled (JObj (fallbackLocations InsightAPI resolveURL serviceList))
  /\ (forall s, In s serviceList ->
        getProperty (JObj (fallbackLocations InsightAPI resolveURL serviceList)) s
        = Some (JStr (resolveURL (Some InsightAPI) None)))
  /\ storage (self (fst result)) !! cacheKey
     = Some {| entry_value := listValue (call_list c);
               entry_expires := clock w + 5 * 60 * 1000 |}
  /\ snd (getCachedValue cacheKey (fst result)) = Some (listValue (call_list c))
  /\ view (fst result) (listValue (call_list c)) = JArr (map JStr serviceList).
Proof.
  cbv zeta. split; [reflexivity |]. split; [intros s; apply fallbackLocations_lookup |].
  split; [| split].
  - unfold getServiceEndpoints_then. cbn [fst].
    rewrite setCachedValue_long, storage_set_storage by lia.
    unfold cabinet_set. now rewrite lookup_insert_eq.
  - unfold getServiceEndpoints_then. cbn [fst]. apply getCachedValue_after_set. lia.
  - unfold getServiceEndpoints_then. cbn [fst].
    rewrite setCachedValue_long by lia. now destruct (call_list c).
Qed.

(** [getServiceEndpoints] past the cache: the request goes out. *)
Lemma getServiceEndpoints_call_miss accountId serviceList w :
  truthy_opt (snd (getCachedValue (endpointsCacheKey accountId) w)) = false ->
  let w1 := fst (getCachedValue (endpointsCacheKey accountId) w) in
  let r := endpointsRequest GlobalAPI resolveURL accountId (derefList serviceList w) in
  let p := fresh (dom (promises w)) in
  getServiceEndpoints_call GlobalAPI resolveURL accountId serviceList w
  = (set_inflight (inflight w ++ [{| call_index := sentCount w; call_request := r;
                                     call_account := accountId; call_list := serviceList;
                                     call_promise := p |}])
       (log (Sent 0 r) (set_promises (<[p := Pending]> (promises w)) w1)), p).
Proof.
  intros Hmiss. unfold getServiceEndpoints_call.
  destruct (getCachedValue (endpointsCacheKey accountId) w) as [w1 cached] eqn:Hget.
  simpl in Hmiss. rewrite Hmiss. cbv zeta.
  unfold getCachedValue in Hget.
  destruct (cabinet_get (clock w) (endpointsCacheKey accountId) (storage (self w))) as [v s].
  injection Hget as <- <-. reflexivity.
Qed.

Lemma fresh_promise_differs (w : World) p s :
  promises w !! p = Some s -> fresh (dom (promises w)) <> p.
Proof.
  intros Hp Heq. apply (is_fresh (dom (promises w))). rewrite Heq.
  apply elem_of_dom. now exists s.
Qed.

(** C7: when the resolved collection of the account lacks the requested
    service, [prepare] deletes the account's cached endpoints entry, hands
    exactly one further discovery request to the transport, for the
    services the collection knows followed by the new one, and stores the
    new pending promise in place of the old one.  The collection is looked
    at as it is when the call resumes. *)
Theorem prepare_missing_service (w : World) (requestParams : APIRequestParams)
    (p : nat) (collection : JsVal) :
  endpointResolution (self w) !! accountOf requestParams w = Some p ->
  settled p w = Some (Fulfilled collection) ->
  hasOwnProperty (view w collection) (serviceOf requestParams) = false ->
  let accountId := accountOf requestParams w in
  let serviceList := ownKeys (view w collection) ++ [serviceOf requestParams] in
  let r := endpointsRequest GlobalAPI resolveURL accountId serviceList in
  let after := prepare_resume GlobalAPI resolveURL accountId requestParams collection w in
  prepare_enter GlobalAPI resolveURL requestParams w = (w, p)
  /\ exists q,
       snd after = ReturnPromise q
       /\ storage (self (fst after)) !! endpointsCacheKey accountId = None
       /\ trace (fst after) = trace w ++ [Sent 0 r]
       /\ req_data r = Some (JArr (map JStr serviceList))
       /\ (forall s, In s (ownKeys (view w collection)) -> In s serviceList)
       /\ In (serviceOf requestParams) serviceList
       /\ endpointResolution (self (fst after)) !! accountId = Some q
       /\ q <> p
       /\ promises (fst after) !! q = Some Pending
       /\ inflight (fst after)
          = inflight w ++ [{| call_index := sentCount w; call_request := r;
                              call_account := accountId; call_list := OwnList serviceList;
                              call_promise := q |}].
Proof.
  intros Hres Hsettled Hlacks. cbv zeta. split.
  { unfold prepare_enter. now rewrite Hres. }
  exists (fresh (dom (promises w))).
  unfold prepare_resume. rewrite Hlacks.
  rewrite getServiceEndpoints_call_miss.
  2:{ now rewrite getCachedValue_after_delete. }
  rewrite getCachedValue_after_delete. cbn.
  rewrite !lookup_insert_eq. unfold cabinet_delete. rewrite lookup_delete_eq.
  repeat split.
  - intros s Hs. apply in_or_app. now left.
  - apply in_or_app. right. now left.
  - unfold settled in Hsettled. destruct (promises w !! p) as [s |] eqn:Hp; [| discriminate].
    now apply (fresh_promise_differs w p s).
Qed.

End Discovery.

Lemma prepare_missing_service_witness :
  endpointResolution (self resolvedWorld) !! accountOf (Example.service "iris" "7") resolvedWorld
  = Some 0%nat
  /\ hasOwnProperty (JObj [("aims", JStr "https://api.example")]) "iris" = false
  /\ requests (trace (fst (prepare_resume Example.GlobalAPI Example.resolveURL "7"
                             (Example.service "iris" "7")
                             (JObj [("aims", JStr "https://api.example")]) resolvedWorld)))
     = [endpointsRequest Example.GlobalAPI Example.resolveURL "7" ["aims"; "iris"]].
Proof.
  assert (H1 : endpointResolution (self resolvedWorld)
               !! accountOf (Example.service "iris" "7") resolvedWorld = Some 0%nat)
    by (vm_compute; reflexivity).
  assert (H2 : settled 0 resolvedWorld
               = Some (Fulfilled (JObj [("aims", JStr "https://api.example")])))
    by (vm_compute; reflexivity).
  assert (H3 : hasOwnProperty (JObj [("aims", JStr "https://api.example")])
                 (serviceOf (Example.service "iris" "7")) = false)
    by reflexivity.
  destruct (prepare_missing_service Example.GlobalAPI Example.resolveURL resolvedWorld
              (Example.service "iris" "7") 0%nat _ H1 H2 H3) as [_ (q & _ & _ & Htrace & _)].
  split; [exact H1 |]. split; [exact H3 |].
  change (accountOf (Example.service "iris" "7") resolvedWorld) with "7" in Htrace.
  rewrite Htrace. reflexivity.
Defined.

(** ** The static default list *)

Section DefaultList.

Variable InsightAPI GlobalAPI : string.
Variable resolveURL : option string -> option string -> string.

Lemma getServiceEndpoints_call_static accountId serviceList w :
  defaultServiceList (fst (getServiceEndpoints_call GlobalAPI resolveURL accountId serviceList w))
  = defaultServiceList w.
Proof.
  unfold getServiceEndpoints_call, getCachedValue. cbv zeta.
  destruct (truthy_opt _); reflexivity.
Qed.

Lemma setCachedValue_static key v ttl w :
  defaultServiceList (setCachedValue key v ttl w) = defaultServiceList w.
Proof. unfold setCachedValue. destruct (ttl <? 1000); reflexivity. Qed.

Lemma answer_static c o elapsed w :
  defaultServiceList (answer InsightAPI resolveURL c o elapsed w) = defaultServiceList w.
Proof.
  unfold answer, getServiceEndpoints_then.
  destruct (ax o) as [response | error].
  - destruct (entries (response_data response)) as [es |]; [| reflexivity].
    destruct (translate es []); [| reflexivity].
    cbn. now rewrite setCachedValue_static.
  - cbn. now rewrite setCachedValue_static.
Qed.

Lemma prepare_enter_static requestParams w :
  defaultServiceList (fst (prepare_enter GlobalAPI resolveURL requestParams w))
  = defaultServiceList w
  \/ defaultServiceList (fst (prepare_enter GlobalAPI resolveURL requestParams w))
     = defaultServiceList w ++ [serviceOf requestParams].
Proof.
  unfold prepare_enter.
  destruct (endpointResolution (self w) !! accountOf requestParams w); [now left |].
  match goal with
  | |- context [getServiceEndpoints_call _ _ ?a ?l ?w1] =>
      pose proof (getServiceEndpoints_call_static a l w1) as Hcall;
      destruct (getServiceEndpoints_call GlobalAPI resolveURL a l w1) as [w2 p]
  end.
  cbn in *. rewrite Hcall.
  destruct (inList (serviceOf requestParams) (defaultServiceList w)); [now left | now right].
Qed.

Lemma prepare_resume_static accountId requestParams collection w :
  defaultServiceList (fst (prepare_resume GlobalAPI resolveURL accountId requestParams collection w))
  = defaultServiceList w.
Proof.
  unfold prepare_resume.
  destruct (hasOwnProperty _ (serviceOf requestParams)); [reflexivity |].
  match goal with
  | |- context [getServiceEndpoints_call _ _ ?a ?l ?w1] =>
      pose proof (getServiceEndpoints_call_static a l w1) as Hcall;
      destruct (getServiceEndpoints_call GlobalAPI resolveURL a l w1) as [w2 p]
  end.
  cbn in *. now rewrite Hcall.
Qed.

Lemma resume_static x s l :
  defaultServiceList (world (resume GlobalAPI resolveURL x s l)) = defaultServiceList (world l).
Proof.
  unfold resume. destruct s as [collection | e]; [| reflexivity].
  destruct (waiter_then x) as [accountId requestParams |]; [| reflexivity].
  pose proof (prepare_resume_static accountId requestParams collection (world l)) as H.
  destruct (prepare_resume _ _ _ _ _ _) as [w next]. destruct next; exact H.
Qed.

Lemma drain_static fuel : forall l,
  defaultServiceList (world (drain GlobalAPI resolveURL fuel l)) = defaultServiceList (world l).
Proof.
  induction fuel as [| fuel IH]; intros l; simpl; [reflexivity |].
  destruct (pick (waiting l) (world l)) as [[[x s] rest] |]; [| reflexivity].
  rewrite IH. now rewrite resume_static.
Qed.

Lemma step_keeps_services l e s :
  In s (defaultServiceList (world l)) ->
  In s (defaultServiceList (world (step InsightAPI GlobalAPI resolveURL l e))).
Proof.
  intros Hin. destruct e as [requestParams | index o elapsed]; simpl.
  - pose proof (prepare_enter_static requestParams (world l)) as H.
    destruct (prepare_enter GlobalAPI resolveURL requestParams (world l)) as [w p].
    unfold continue. rewrite drain_static. simpl in *.
    destruct H as [-> | ->]; [exact Hin | apply in_or_app; now left].
  - destruct (takeCall index (inflight (world l))) as [[c rest] |]; [| exact Hin].
    unfold continue. rewrite drain_static. simpl. now rewrite answer_static.
Qed.

Lemma run_keeps_services es : forall l s,
  In s (defaultServiceList (world l)) ->
  In s (defaultServiceList (world (run InsightAPI GlobalAPI resolveURL l es))).
Proof.
  induction es as [| e es IH]; intros l s Hin; simpl; [exact Hin |].
  apply IH. now apply step_keeps_services.
Qed.

(** C9: a first resolution for a service that is not on the static default
    list appends the service to that list itself.  The list stays enlarged:
    [reset] does not restore it and no later call or answer removes the
    name; every later first resolution, for any account and through any
    client instance, asks the discovery service for it too. *)
Theorem prepare_extends_default_list (w : World) (requestParams : APIRequestParams) :
  endpointResolution (self w) !! accountOf requestParams w = None ->
  inList (serviceOf requestParams) (defaultServiceList w) = false ->
  let w' := fst (prepare_enter GlobalAPI resolveURL requestParams w) in
  defaultServiceList w' = defaultServiceList w ++ [serviceOf requestParams]
  /\ defaultServiceList (reset InsightAPI w') = defaultServiceList w'
  /\ (forall (l : Loop) (es : list Stimulus),
        world l = w' ->
        In (serviceOf requestParams)
           (defaultServiceList (world (run InsightAPI GlobalAPI resolveURL l es))))
  /\ (forall (later : World) (other : APIRequestParams),
        In (serviceOf requestParams) (defaultServiceList later) ->
        endpointResolution (self later) !! accountOf other later = None ->
        truthy_opt (snd (getCachedValue (endpointsCacheKey (accountOf other later)) later)) = false ->
        exists serviceList,
          In (serviceOf requestParams) serviceList
          /\ trace (fst (prepare_enter GlobalAPI resolveURL other later))
             = trace later
               ++ [Sent 0 (endpointsRequest GlobalAPI resolveURL (accountOf other later) serviceList)]).
Proof.
  intros Hnone Hnew. cbv zeta.
  assert (Happ : defaultServiceList (fst (prepare_enter GlobalAPI resolveURL requestParams w))
                 = defaultServiceList w ++ [serviceOf requestParams]).
  { unfold prepare_enter. rewrite Hnone, Hnew.
    match goal with
    | |- context [getServiceEndpoints_call _ _ ?a ?l ?w1] =>
        pose proof (getServiceEndpoints_call_static a l w1) as Hcall;
        destruct (getServiceEndpoints_call GlobalAPI resolveURL a l w1) as [w2 p]
    end.
    exact Hcall. }
  split; [exact Happ |]. split; [reflexivity |]. split.
  - intros l es Hl. apply run_keeps_services. rewrite Hl, Happ.
    apply in_or_app. right. now left.
  - intros later other Hin Hfirst Hmiss.
    unfold prepare_enter. rewrite Hfirst.
    destruct (inList (serviceOf other) (defaultServiceList later)) eqn:Hother.
    + rewrite getServiceEndpoints_call_miss by exact Hmiss.
      exists (defaultServiceList later). split; [exact Hin | reflexivity].
    + rewrite getServiceEndpoints_call_miss by exact Hmiss.
      exists (defaultServiceList later ++ [serviceOf other]).
      split; [apply in_or_app; now left | reflexivity].
Qed.

End DefaultList.

Lemma prepare_extends_default_list_witness :
  defaultServiceList
    (fst (prepare_enter Example.GlobalAPI Example.resolveURL
            (Example.service "kevlar" "7") Example.world0))
  = defaultServiceList Example.world0 ++ ["kevlar"].
Proof.
  apply (prepare_extends_default_list Example.InsightAPI Example.GlobalAPI Example.resolveURL
           Example.world0 (Example.service "kevlar" "7")); reflexivity.
Defined.

(** ** Overlapping resolutions *)

Section Overlap.

Variable InsightAPI GlobalAPI : string.
Variable resolveURL : option string -> option string -> string.

(** A call for an account whose resolution is stored joins it: nothing is
    sent and the call waits on the stored promise. *)
Lemma prepare_enter_joins requestParams w p :
  endpointResolution (self w) !! accountOf requestParams w = Some p ->
  prepare_enter GlobalAPI resolveURL requestParams w = (w, p).
Proof. intros H. unfold prepare_enter. now rewrite H. Qed.

(** Entering [prepare] for one account leaves the stored resolution of
    every other account alone. *)
Lemma prepare_enter_other_accounts requestParams w accountId :
  accountId <> accountOf requestParams w ->
  endpointResolution (self (fst (prepare_enter GlobalAPI resolveURL requestParams w))) !! accountId
  = endpointResolution (self w) !! accountId.
Proof.
  intros Hne. unfold prepare_enter.
  destruct (endpointResolution (self w) !! accountOf requestParams w); [reflexivity |].
  unfold getServiceEndpoints_call, getCachedValue. cbv zeta.
  destruct (truthy_opt _); cbn; rewrite lookup_insert_ne by congruence;
    destruct (inList _ _); reflexivity.
Qed.

Lemma pendingWork_app ws1 ws2 :
  pendingWork (ws1 ++ ws2) = (pendingWork ws1 + pendingWork ws2)%nat.
Proof. induction ws1 as [| x ws1 IH]; simpl; [reflexivity | rewrite IH; lia]. Qed.

Lemma pendingWork_bound ws : (pendingWork ws <= 2 * length ws)%nat.
Proof.
  induction ws as [| x ws IH]; simpl; [lia |]. destruct (waiter_then x); lia.
Qed.

Lemma pick_work ws w x s rest :
  pick ws w = Some (x, s, rest) ->
  pendingWork ws = (pendingWork [x] + pendingWork rest)%nat.
Proof.
  revert rest. induction ws as [| y ws IH]; intros rest; simpl; [discriminate |].
  destruct (settled (waiter_promise y) w) as [s' |].
  - intros [= -> -> ->]. lia.
  - destruct (pick ws w) as [[[z t] rest'] |]; simpl; [| discriminate].
    intros [= -> -> <-]. specialize (IH rest' eq_refl). simpl in *. lia.
Qed.

Lemma resume_work x s w ws r n :
  (pendingWork (waiting (resume GlobalAPI resolveURL x s
                           {| world := w; waiting := ws; returned := r; calls := n |}))
   < pendingWork [x] + pendingWork ws)%nat.
Proof.
  unfold resume. simpl.
  destruct s as [collection | e]; [| destruct (waiter_then x); simpl; lia].
  destruct (waiter_then x) as [accountId requestParams |]; [| simpl; lia].
  destruct (prepare_resume _ _ _ _ _ _) as [w' [c | q]]; simpl; [lia |].
  rewrite pendingWork_app. simpl. lia.
Qed.

(** The fuel of [continue] is enough: when it stops, no suspended call is
    left whose promise has settled. *)
Lemma drain_quiet fuel : forall l,
  (pendingWork (waiting l) < fuel)%nat ->
  pick (waiting (drain GlobalAPI resolveURL fuel l)) (world (drain GlobalAPI resolveURL fuel l))
  = None.
Proof.
  induction fuel as [| fuel IH]; intros l Hfuel; [lia |]. simpl.
  destruct (pick (waiting l) (world l)) as [[[x s] rest] |] eqn:Hpick; [| exact Hpick].
  apply IH. apply pick_work in Hpick.
  pose proof (resume_work x s (world l) rest (returned l) (calls l)). lia.
Qed.

Lemma continue_quiet l :
  pick (waiting (continue GlobalAPI resolveURL l)) (world (continue GlobalAPI resolveURL l)) = None.
Proof.
  unfold continue. apply drain_quiet. pose proof (pendingWork_bound (waiting l)). lia.
Qed.

End Overlap.

(** C8, what the code does: the three calls share one discovery request
    while it is pending; once it is answered, the second and the third call
    each find their service missing from the collection and each send a
    discovery request of their own, so two requests for the same account
    are with the transport at once, and three have been sent in all. *)
Theorem overlapping_prepare_two_outstanding :
  length (outstanding "7" (overlapRun overlappingCalls)) = 1%nat
  /\ length (requests (trace (world (overlapRun overlappingCalls)))) = 1%nat
  /\ length (outstanding "7" (overlapRun (overlappingCalls ++ [Answer 0 Unreachable 40]))) = 2%nat
  /\ length (requests (trace (world (overlapRun (overlappingCalls ++ [Answer 0 Unreachable 40])))))
     = 3%nat
  /\ map (fun c => req_data (call_request c))
         (outstanding "7" (overlapRun (overlappingCalls ++ [Answer 0 Unreachable 40])))
     = [Some (JArr (map JStr (defaultServiceList Example.world0 ++ ["A"; "B"])));
        Some (JArr (map JStr (defaultServiceList Example.world0 ++ ["A"; "C"])))].
Proof. vm_compute. repeat split. Qed.

(** ** Request normalisation and the caller's objects *)

Lemma setCachedValue_heap key v ttl w : heap (setCachedValue key v ttl w) = heap w.
Proof. unfold setCachedValue. destruct (ttl <? 1000); reflexivity. Qed.

Lemma obj_store_obj l c w : obj (store_obj l c w) l = c.
Proof. unfold obj, store_obj. cbn. now rewrite lookup_insert_eq. Qed.

Lemma obj_same_heap w w' l : heap w' = heap w -> obj w' l = obj w l.
Proof. intros H. unfold obj. now rewrite H. Qed.

Section Normalisation.

Variable InsightAPI GlobalAPI : string.
Variable resolveURL : option string -> option string -> string.
Variable transport : nat -> Request -> Outcome * Z.

Lemma getServiceEndpoints_call_heap accountId serviceList w :
  heap (fst (getServiceEndpoints_call GlobalAPI resolveURL accountId serviceList w)) = heap w.
Proof.
  unfold getServiceEndpoints_call, getCachedValue. cbv zeta.
  destruct (truthy_opt _); reflexivity.
Qed.

Lemma answer_heap c o elapsed w :
  heap (answer InsightAPI resolveURL c o elapsed w) = heap w.
Proof.
  unfold answer, getServiceEndpoints_then.
  destruct (ax o) as [response | error].
  - destruct (entries (response_data response)) as [es |]; [| reflexivity].
    destruct (translate es []); [| reflexivity].
    cbn. now rewrite setCachedValue_heap.
  - cbn. now rewrite setCachedValue_heap.
Qed.

Lemma settle_heap w : heap (settle InsightAPI resolveURL transport w) = heap w.
Proof.
  unfold settle.
  change (heap w) with (heap (set_inflight [] w)).
  generalize (set_inflight [] w) as w0. generalize (inflight w) as cs.
  induction cs as [| c cs IH]; intros w0; simpl; [reflexivity |].
  rewrite IH. destruct (transport (call_index c) (call_request c)) as [o elapsed].
  apply answer_heap.
Qed.

Lemma prepare_enter_heap requestParams w :
  heap (fst (prepare_enter GlobalAPI resolveURL requestParams w)) = heap w.
Proof.
  unfold prepare_enter.
  destruct (endpointResolution (self w) !! accountOf requestParams w); [reflexivity |].
  match goal with
  | |- context [getServiceEndpoints_call _ _ ?a ?l ?w1] =>
      pose proof (getServiceEndpoints_call_heap a l w1) as Hcall;
      destruct (getServiceEndpoints_call GlobalAPI resolveURL a l w1) as [w2 p]
  end.
  cbn in *. rewrite Hcall. destruct (inList _ _); reflexivity.
Qed.

Lemma prepare_resume_heap accountId requestParams collection w :
  heap (fst (prepare_resume GlobalAPI resolveURL accountId requestParams collection w)) = heap w.
Proof.
  unfold prepare_resume.
  destruct (hasOwnProperty _ (serviceOf requestParams)); [reflexivity |].
  match goal with
  | |- context [getServiceEndpoints_call _ _ ?a ?l ?w1] =>
      pose proof (getServiceEndpoints_call_heap a l w1) as Hcall;
      destruct (getServiceEndpoints_call GlobalAPI resolveURL a l w1) as [w2 p]
  end.
  cbn in *. now rewrite Hcall.
Qed.

Lemma prepare_heap requestParams w w' r :
  prepare InsightAPI GlobalAPI resolveURL transport requestParams w = Some (w', r) ->
  heap w' = heap w.
Proof.
  unfold prepare.
  pose proof (prepare_enter_heap requestParams w) as Henter.
  destruct (prepare_enter GlobalAPI resolveURL requestParams w) as [w1 p]. simpl in Henter.
  pose proof (settle_heap w1) as Hsettle.
  destruct (settled p (settle InsightAPI resolveURL transport w1)) as [[collection | e] |];
    simpl; [| intros [= <- <-]; congruence | discriminate].
  pose proof (prepare_resume_heap (accountOf requestParams w) requestParams collection
                (settle InsightAPI resolveURL transport w1)) as Hresume.
  destruct (prepare_resume _ _ _ _ _ _) as [w3 [c | q]]; simpl in Hresume.
  - intros [= <- <-]. congruence.
  - pose proof (settle_heap w3) as Hsettle3.
    destruct (settled q (settle InsightAPI resolveURL transport w3)); simpl; [| discriminate].
    intros [= <- <-]. congruence.
Qed.

Lemma calculateRequestURL_heap params w w' r :
  calculateRequestURL InsightAPI GlobalAPI resolveURL transport params w = Some (w', r) ->
  heap w' = heap w.
Proof.
  unfold calculateRequestURL. destruct (usesEndpoints InsightAPI params).
  - destruct (prepare _ _ _ _ params w) as [[w1 s] |] eqn:Hprepare; simpl; [| discriminate].
    apply prepare_heap in Hprepare.
    destruct s; intros [= <- <-]; exact Hprepare.
  - intros [= <- <-]. reflexivity.
Qed.

(** A descriptor without shorthands is left alone by the folding. *)
Lemma foldShorthands_nothing config w :
  nonEmpty (accept_header (obj w config)) = None ->
  nonEmpty (response_type (obj w config)) = None ->
  foldShorthands config w = w.
Proof. intros Ha Hr. unfold foldShorthands. now rewrite Ha, Hr. Qed.

Lemma fresh_obj_differs (w : World) l :
  is_Some (objs (heap w) !! l) -> fresh (dom (objs (heap w))) <> l.
Proof.
  intros Hl Heq. apply (is_fresh (dom (objs (heap w)))). rewrite Heq. now apply elem_of_dom.
Qed.

Lemma fresh_dict_differs (w : World) l :
  is_Some (dicts (heap w) !! l) -> fresh (dom (dicts (heap w))) <> l.
Proof.
  intros Hl Heq. apply (is_fresh (dom (dicts (heap w)))). rewrite Heq. now apply elem_of_dom.
Qed.



Lemma obj_store_dict l d w c : obj (store_dict l d w) c = obj w c.
Proof. reflexivity. Qed.

Lemma dict_store_obj l c w h : dict (store_obj l c w) h = dict w h.
Proof. reflexivity. Qed.

Lemma dict_store_dict l d w : dict (store_dict l d w) l = d.
Proof. unfold dict, store_dict. cbn. now rewrite lookup_insert_eq. Qed.



End Normalisation.







(** ** Reads, writes and the response cache *)

Section ResponseCache.

Variable InsightAPI GlobalAPI : string.
Variable resolveURL : option string -> option string -> string.
Variable transport : nat -> Request -> Outcome * Z.
Variable random : nat -> Z -> Z.

(** A write deletes the entry stored under the request's URL, then hands
    the request to the transport. *)
Lemma write_deletes_then_sends config w0 w1 normalized :
  normalizeRequest InsightAPI GlobalAPI resolveURL transport config w0
  = Some (w1, Fulfilled normalized) ->
  let key := default "undefined" (url (obj w1 normalized)) in
  storage (self (deleteCachedValue key w1)) !! key = None
  /\ write InsightAPI GlobalAPI resolveURL transport random config w0
     = match axiosRequest transport random normalized 0 (deleteCachedValue key w1) with
       | Some (w3, Fulfilled response) => Some (w3, Fulfilled (response_data response))
       | Some (w3, Rejected e) => Some (w3, Rejected e)
       | None => None
       end.
Proof.
  intros Hnorm. cbv zeta. split.
  - cbn. unfold cabinet_delete. apply lookup_delete_eq.
  - unfold write. rewrite Hnorm. cbn [mbind option_bind].
    destruct (axiosRequest transport random normalized 0 _) as [[w3 [response | e]] |];
      reflexivity.
Qed.

(** C10: once a GET with a positive cache TTL has been normalised, the
    cache is read and written under ["normalized.url"] followed by the
    serialised query parameters of the descriptor (after a [?] when there
    are any); the URL of the normalised request has no part in the key.  A
    live, truthy entry under that key is returned without the transport
    being called; otherwise the response of the request is stored under it
    and, with a TTL of a second or more, is what the cache then holds. *)
Theorem get_cache_key (config : nat) (w w1 : World) (normalized : nat) (query : string) :
  normalizeRequest InsightAPI GlobalAPI resolveURL transport config
    (store_obj config (set_method (Some "GET") (obj w config)) w)
  = Some (w1, Fulfilled normalized) ->
  queryParams (dictOf w1 (params (obj w1 config))) = Some query ->
  cacheTTL (obj w1 normalized) <> 0 ->
  let key := "normalized.url" +:+ (if String.eqb query "" then "" else "?" +:+ query) in
  let found := getCachedValue key w1 in
  (forall v, snd found = Some v -> truthy v = true ->
     get InsightAPI GlobalAPI resolveURL transport random config w
     = Some (fst found, Fulfilled v)
     /\ trace (fst found) = trace w1)
  /\ (truthy_opt (snd found) = false ->
      forall w3 response,
        axiosRequest transport random normalized 0 (fst found) = Some (w3, Fulfilled response) ->
        let stored := setCachedValue key (response_data response) (cacheTTL (obj w1 normalized)) w3 in
        get InsightAPI GlobalAPI resolveURL transport random config w
        = Some (stored, Fulfilled (response_data response))
        /\ (1000 <= cacheTTL (obj w1 normalized) ->
            snd (getCachedValue key stored) = Some (response_data response))).
Proof.
  intros Hnorm Hquery Httl. cbv zeta.
  change ("normalized.url" +:+ (if String.eqb query "" then "" else "?" +:+ query))
    with (fullUrl query).
  apply Z.eqb_neq in Httl.
  split.
  - intros v Hfound Htruthy. split; [| reflexivity].
    unfold get. rewrite Hnorm. cbn [mbind option_bind]. rewrite Hquery, Httl.
    destruct (getCachedValue (fullUrl query) w1) as [w2 cached]. simpl in Hfound. subst cached.
    simpl. now rewrite Htruthy.
  - intros Hmiss w3 response Hrun. split.
    + unfold get. rewrite Hnorm. cbn [mbind option_bind]. rewrite Hquery, Httl.
      destruct (getCachedValue (fullUrl query) w1) as [w2 cached]. simpl in Hmiss, Hrun.
      rewrite Hmiss, Hrun. reflexivity.
    + intros Hlong. now apply getCachedValue_after_set.
Qed.

End ResponseCache.

(** C2, what the code does: a GET of a service's URL, a POST to the same
    URL, and the GET again.  The POST deletes the entry keyed by the URL,
    but the GET stored its response under ["normalized.url"]; the second GET
    is answered from the cache with the response that was cached before the
    write, and no third request for the URL reaches the transport (the
    trace holds the discovery request, the GET and the POST). *)
Theorem write_leaves_cached_get :
  ('(w1, first) ← exampleGet things (fst readsAndWrites);
   '(w2, posted) ← examplePost update w1;
   '(w3, second) ← exampleGet things w2;
   Some (first, posted, second,
         map (fun r => (req_method r, req_url r)) (requests (trace w3)),
         entry_value <$> storage (self w3) !! "normalized.url"))
  = Some (Fulfilled (JStr "reply 1"), Fulfilled (JStr "reply 2"), Fulfilled (JStr "reply 1"),
          [(Some "POST", Some "https://global:api/endpoints/v1/7/residency/default/endpoints");
           (Some "GET", Some "https://api.example/things/v1/7");
           (Some "POST", Some "https://api.example/things/v1/7")],
          Some (JStr "reply 1")).
Proof. vm_compute. reflexivity. Qed.

Lemma othersNormalized_run :
  normalizeRequest Example.InsightAPI Example.GlobalAPI Example.resolveURL Example.backend others
    (store_obj others (set_method (Some "GET") (obj afterFirstGet others)) afterFirstGet)
  = Some (worldAfter othersNormalized afterFirstGet, Fulfilled (normalizedOf othersNormalized)).
Proof. vm_compute. reflexivity. Qed.

Lemma othersNormalized_query :
  queryParams (dictOf (worldAfter othersNormalized afterFirstGet)
                      (params (obj (worldAfter othersNormalized afterFirstGet) others)))
  = Some "".
Proof. vm_compute. reflexivity. Qed.

Lemma othersNormalized_ttl :
  cacheTTL (obj (worldAfter othersNormalized afterFirstGet) (normalizedOf othersNormalized)) <> 0.
Proof. vm_compute. discriminate. Qed.

Lemma othersNormalized_cached :
  snd (getCachedValue ("normalized.url" +:+ (if String.eqb "" "" then "" else "?" +:+ ""))
                      (worldAfter othersNormalized afterFirstGet))
  = Some (JStr "reply 1").
Proof. vm_compute. reflexivity. Qed.

Lemma get_cache_key_witness :
  exampleGet things (fst readsAndWrites) = Some (afterFirstGet, Fulfilled (JStr "reply 1"))
  /\ map req_url (requests (trace afterFirstGet))
     = [Some "https://global:api/endpoints/v1/7/residency/default/endpoints";
        Some "https://api.example/things/v1/7"]
  /\ url (obj (worldAfter othersNormalized afterFirstGet) (normalizedOf othersNormalized))
     = Some "https://api.example/others/v1/7"
  /\ exists w2,
       exampleGet others afterFirstGet = Some (w2, Fulfilled (JStr "reply 1"))
       /\ trace w2 = trace (worldAfter othersNormalized afterFirstGet).
Proof.
  split; [vm_compute; reflexivity |]. split; [vm_compute; reflexivity |].
  split; [vm_compute; reflexivity |].
  destruct (get_cache_key Example.InsightAPI Example.GlobalAPI Example.resolveURL
              Example.backend Example.random others afterFirstGet
              (worldAfter othersNormalized afterFirstGet)
              (normalizedOf othersNormalized) ""
              othersNormalized_run othersNormalized_query othersNormalized_ttl) as [Hhit _].
  destruct (Hhit (JStr "reply 1") othersNormalized_cached eq_refl) as [Hget Htrace].
  eexists. split; [exact Hget | exact Htrace].
Defined.

(** * Further properties of the client *)

(** ** The retry engine, continued *)

Section RetrySchedule.

Variable transport : nat -> Request -> Outcome * Z.
Variable random : nat -> Z -> Z.

Lemma afterRetryDelay_obj config attemptIndex w :
  exists p, obj (afterRetryDelay random config attemptIndex w) config
            = set_params p (obj w config).
Proof.
  unfold afterRetryDelay, ensureParams, generateCacheBuster.
  destruct (params (obj (sleep _ w) config)) as [l |] eqn:Hp.
  - exists (Some l). cbv zeta.
    change (obj (sleep (retryInterval (obj w config) * (attemptIndex + 1)) w) config)
      with (obj w config) in Hp.
    transitivity (obj w config); [reflexivity |].
    destruct (obj w config); simpl in *. now subst.
  - eexists. cbv zeta. unfold new_dict. cbv zeta.
    match goal with
    | |- obj (store_dict ?l ?d ?w0) config = _ =>
        change (obj (store_dict l d w0) config) with (obj w0 config)
    end.
    match goal with
    | |- obj (set_draws ?n ?w0) config = _ =>
        change (obj (set_draws n w0) config) with (obj w0 config)
    end.
    rewrite obj_store_obj. reflexivity.
Qed.

Lemma afterRetryDelay_interval config attemptIndex w :
  retryInterval (obj (afterRetryDelay random config attemptIndex w) config)
  = retryInterval (obj w config).
Proof. destruct (afterRetryDelay_obj config attemptIndex w) as [p ->]. reflexivity. Qed.

Lemma send_result attemptIndex config w :
  snd (send transport attemptIndex config w)
  = ax (fst (transport (sentCount w) (snapshot w (obj w config)))).
Proof.
  unfold send. destruct (transport (sentCount w) _) as [o elapsed]. reflexivity.
Qed.

Lemma retriesDue_none budget i : budget <= i -> retriesDue budget i = O.
Proof.
  intros H. unfold retriesDue.
  assert ((budget - i + 1) / 2 < 1) by (apply Z.div_lt_upper_bound; lia). lia.
Qed.

Lemma retriesDue_more budget i :
  i < budget -> retriesDue budget i = S (retriesDue budget (i + 1 + 1)).
Proof.
  intros H. unfold retriesDue.
  replace (budget - i + 1) with ((budget - (i + 1 + 1) + 1) + 1 * 2) by lia.
  rewrite Z.div_add by lia.
  assert (0 <= (budget - (i + 1 + 1) + 1) / 2) by (apply Z.div_pos; lia).
  lia.
Qed.

(** Every request is answered with a status of 500..599. *)
Hypothesis always_unavailable :
  forall n r, exists response,
    fst (transport n r) = Responded response /\ 500 <= status response <= 599.

Lemma countSent_app t1 t2 : countSent (t1 ++ t2) = (countSent t1 + countSent t2)%nat.
Proof. induction t1 as [| e t1 IH]; simpl; [reflexivity | rewrite IH; lia]. Qed.

Lemma axiosRequest_fuel_schedule fuel : forall config attemptIndex w budget,
  (attemptsLeft (obj w config) attemptIndex < fuel)%nat ->
  retry_count (obj w config) = Some budget ->
  exists w' response evs,
    axiosRequest_fuel transport random fuel config attemptIndex w
    = Some (w', Rejected (BadStatus response))
    /\ trace w' = trace w ++ evs
    /\ attempts evs = retryIndices (retriesDue budget attemptIndex) attemptIndex
    /\ delays evs = retryDelays (retriesDue budget attemptIndex)
                                (retryInterval (obj w config)) attemptIndex
    /\ exists r, last (requests evs) = Some r
                 /\ fst (transport (pred (sentCount w')) r) = Responded response.
Proof.
  induction fuel as [| fuel IH]; intros config attemptIndex w budget Hfuel Hbudget; [lia |].
  rewrite axiosRequest_fuel_step.
  pose proof (send_obj transport attemptIndex config w) as Hheap.
  pose proof (send_trace transport attemptIndex config w) as Htrace.
  pose proof (send_result attemptIndex config w) as Hresult.
  destruct (send transport attemptIndex config w) as [w1 r]. simpl in Hheap, Htrace, Hresult.
  assert (Hobj : obj w1 config = obj w config) by (apply obj_same_heap; exact Hheap).
  destruct (always_unavailable (sentCount w) (snapshot w (obj w config)))
    as (response & Hanswer & Hstatus).
  rewrite Hanswer in Hresult. simpl in Hresult. unfold onRequestResponse in Hresult.
  replace ((status response <? 200) || (400 <=? status response)) with true in Hresult
    by (symmetry; apply orb_true_iff; right; apply Z.leb_le; lia).
  subst r. rewrite Hobj.
  unfold isRetryableError at 1. rewrite Hbudget. simpl reasonStatus. cbv iota.
  replace ((status response =? 0) || (300 <=? status response) && (status response <=? 399)
           || (500 <=? status response) && (status response <=? 599)) with true
    by (symmetry; apply retryableStatus_spec; unfold retryableStatus; lia).
  destruct (Z.leb_spec budget attemptIndex) as [Hdone | Hmore].
  - exists w1, response, [Sent attemptIndex (snapshot w (obj w config))].
    rewrite retriesDue_none by exact Hdone.
    split; [reflexivity |]. split; [exact Htrace |]. split; [reflexivity |].
    split; [reflexivity |].
    exists (snapshot w (obj w config)). split; [reflexivity |].
    unfold sentCount at 1. rewrite Htrace, countSent_app. simpl.
    replace (pred (countSent (trace w) + 1)) with (sentCount w) by (unfold sentCount; lia).
    exact Hanswer.
  - set (w5 := afterRetryDelay random config attemptIndex w1).
    assert (Hbudget5 : retry_count (obj w5 config) = Some budget).
    { unfold w5. rewrite afterRetryDelay_budget, Hobj. exact Hbudget. }
    assert (Hleft : attemptsLeft (obj w config) attemptIndex = Z.to_nat (budget - attemptIndex))
      by (unfold attemptsLeft; now rewrite Hbudget).
    assert (Hleft5 : attemptsLeft (obj w5 config) (attemptIndex + 1 + 1)
                     = Z.to_nat (budget - (attemptIndex + 1 + 1)))
      by (unfold attemptsLeft; now rewrite Hbudget5).
    destruct (IH config (attemptIndex + 1 + 1) w5 budget)
      as (w' & final & evs & Hrun & Htr & Hatt & Hdel & r & Hlast & Hfinal);
      [lia | exact Hbudget5 |].
    exists w', final,
      (Sent attemptIndex (snapshot w (obj w config))
         :: Slept (retryInterval (obj w1 config) * (attemptIndex + 1)) :: evs).
    split; [exact Hrun |]. split.
    + rewrite Htr. unfold w5. rewrite afterRetryDelay_trace, Htrace. now rewrite <- !app_assoc.
    + rewrite retriesDue_more by exact Hmore. simpl.
      replace (attemptIndex + 2) with (attemptIndex + 1 + 1) by lia.
      rewrite Hatt, Hdel. unfold w5. rewrite afterRetryDelay_interval, Hobj.
      split; [reflexivity |]. split; [reflexivity |].
      exists r. split; [| exact Hfinal].
      rewrite last_cons, Hlast. reflexivity.
Qed.

(** X1: against a service that answers every attempt with a 5xx status, a
    request with retry budget [b] started at index [i] is attempted at the
    indices [i, i+2, i+4, ...] as long as the index is below [b], waits
    [retry_interval * (index + 1)] before each retry, and is then rejected
    with the last response: the answer the transport gave to the last
    request sent.  From index 0 that is [ceil (b / 2)] retries, not [b]. *)
Theorem axiosRequest_schedule config attemptIndex w budget :
  retry_count (obj w config) = Some budget ->
  exists w' response evs,
    axiosRequest transport random config attemptIndex w
    = Some (w', Rejected (BadStatus response))
    /\ trace w' = trace w ++ evs
    /\ attempts evs = retryIndices (retriesDue budget attemptIndex) attemptIndex
    /\ delays evs = retryDelays (retriesDue budget attemptIndex)
                                (retryInterval (obj w config)) attemptIndex
    /\ exists r, last (requests evs) = Some r
                 /\ fst (transport (pred (sentCount w')) r) = Responded response.
Proof. intros Hbudget. apply axiosRequest_fuel_schedule; [lia | exact Hbudget]. Qed.

End RetrySchedule.

Lemma always_503_unavailable :
  forall n r, exists response,
    fst (Example.always 503 n r) = Responded response /\ 500 <= status response <= 599.
Proof. intros n r. eexists. split; [reflexivity |]. simpl. lia. Qed.

Lemma retryScenario_budget :
  retry_count (obj (fst retryScenario) (snd retryScenario)) = Some 3.
Proof. vm_compute. reflexivity. Qed.

Lemma axiosRequest_schedule_witness :
  exists w' response evs,
    axiosRequest (Example.always 503) Example.random (snd retryScenario) 0 (fst retryScenario)
    = Some (w', Rejected (BadStatus response))
    /\ trace w' = trace (fst retryScenario) ++ evs
    /\ attempts evs = retryIndices (retriesDue 3 0) 0
    /\ delays evs = retryDelays (retriesDue 3 0)
                                (retryInterval (obj (fst retryScenario) (snd retryScenario))) 0
    /\ exists r, last (requests evs) = Some r
                 /\ fst (Example.always 503 (pred (sentCount w')) r) = Responded response.
Proof.
  exact (axiosRequest_schedule (Example.always 503) Example.random always_503_unavailable
           (snd retryScenario) 0 (fst retryScenario) 3 retryScenario_budget).
Defined.

Section RetryFrame.

Variable transport : nat -> Request -> Outcome * Z.
Variable random : nat -> Z -> Z.

Lemma set_params_same c : set_params (params c) c = c.
Proof. destruct c; reflexivity. Qed.

Lemma set_params_twice p q c : set_params p (set_params q c) = set_params p c.
Proof. destruct c; reflexivity. Qed.

Lemma afterRetryDelay_frame config attemptIndex w :
  let w' := afterRetryDelay random config attemptIndex w in
  self w' = self w
  /\ defaultServiceList w' = defaultServiceList w
  /\ promises w' = promises w
  /\ inflight w' = inflight w
  /\ (forall l, l <> config -> objs (heap w') !! l = objs (heap w) !! l)
  /\ (forall l, is_Some (dicts (heap w) !! l) -> params (obj w config) <> Some l ->
        dicts (heap w') !! l = dicts (heap w) !! l
        /\ is_Some (dicts (heap w') !! l)
        /\ params (obj w' config) <> Some l).
Proof.
  cbv zeta. unfold afterRetryDelay, ensureParams, generateCacheBuster. cbv zeta.
  change (obj (sleep (retryInterval (obj w config) * (attemptIndex + 1)) w) config)
    with (obj w config).
  destruct (params (obj w config)) as [l0 |] eqn:Hp.
  - repeat split; try reflexivity.
    + cbn. rewrite lookup_insert_ne by congruence. reflexivity.
    + cbn. rewrite lookup_insert_ne by congruence. exact H.
    + change (params (obj w config) <> Some l). now rewrite Hp.
  - unfold new_dict. cbv zeta.
    set (fresh_l := fresh (dom (dicts (heap (sleep (retryInterval (obj w config) * (attemptIndex + 1)) w))))).
    assert (Hfresh : forall l, is_Some (dicts (heap w) !! l) -> fresh_l <> l)
      by (intros l Hl; apply (fresh_dict_differs w l Hl)).
    repeat split; try reflexivity.
    + intros l Hl. cbn. rewrite lookup_insert_ne by congruence. reflexivity.
    + cbn. rewrite !lookup_insert_ne by (apply Hfresh; exact H). reflexivity.
    + cbn. rewrite !lookup_insert_ne by (apply Hfresh; exact H). exact H.
    + match goal with
      | |- params (obj (store_dict ?a ?d (set_draws ?n ?w0)) config) <> _ =>
          change (obj (store_dict a d (set_draws n w0)) config) with (obj w0 config)
      end.
      rewrite obj_store_obj. simpl. intros [= Heq]. now apply (Hfresh l H).
Qed.

Lemma axiosRequest_fuel_frame fuel : forall config attemptIndex w w' r,
  axiosRequest_fuel transport random fuel config attemptIndex w = Some (w', r) ->
  untouchedByRequest config w w'.
Proof.
  induction fuel as [| fuel IH]; intros config attemptIndex w w' r; [discriminate |].
  rewrite axiosRequest_fuel_step.
  pose proof (send_obj transport attemptIndex config w) as Hheap.
  assert (Hsend : let w1 := fst (send transport attemptIndex config w) in
                  self w1 = self w /\ defaultServiceList w1 = defaultServiceList w
                  /\ promises w1 = promises w /\ inflight w1 = inflight w).
  { unfold send. destruct (transport (sentCount w) _) as [o elapsed]. now repeat split. }
  destruct (send transport attemptIndex config w) as [w1 r1]. simpl in Hheap, Hsend.
  destruct Hsend as (Hs1 & Hs2 & Hs3 & Hs4).
  assert (Hobj : obj w1 config = obj w config) by (apply obj_same_heap; exact Hheap).
  assert (Hbase : untouchedByRequest config w w1).
  { unfold untouchedByRequest. rewrite Hheap, Hobj. repeat split; try assumption.
    exists (params (obj w config)). symmetry. apply set_params_same. }
  destruct r1 as [response | error]; [intros [= <- <-]; exact Hbase |].
  destruct (isRetryableError (Some error) (obj w1 config) attemptIndex);
    [| intros [= <- <-]; exact Hbase].
  intros Hrun. apply IH in Hrun.
  destruct Hrun as (H1 & H2 & H3 & H4 & H5 & (p & H6) & H7).
  destruct (afterRetryDelay_frame config attemptIndex w1) as (F1 & F2 & F3 & F4 & F5 & F6).
  destruct (afterRetryDelay_obj random config attemptIndex w1) as [q Hq].
  unfold untouchedByRequest. repeat split; try congruence.
  - intros l Hl. rewrite H5, F5 by exact Hl. now rewrite Hheap.
  - exists p. rewrite H6, Hq, Hobj. apply set_params_twice.
  - intros l Hl Hne.
    assert (Hl1 : is_Some (dicts (heap w1) !! l)) by (rewrite Hheap; exact Hl).
    assert (Hne1 : params (obj w1 config) <> Some l) by (rewrite Hobj; exact Hne).
    destruct (F6 l Hl1 Hne1) as (G1 & G2 & G3).
    rewrite H7 by assumption. rewrite G1. now rewrite Hheap.
Qed.

(** X2: [axiosRequest] always settles.  Without a [retry_count] it makes
    exactly one attempt; with a budget [b], started at index [i], it makes
    at most [max 1 (b - i + 1)] attempts, at strictly increasing indices. *)
Theorem axiosRequest_settles config attemptIndex w :
  exists w' r evs,
    axiosRequest transport random config attemptIndex w = Some (w', r)
    /\ trace w' = trace w ++ evs
    /\ increasingFrom attemptIndex (attempts evs)
    /\ match retry_count (obj w config) with
       | None => attempts evs = [attemptIndex]
       | Some budget =>
           1 <= Z.of_nat (length (attempts evs)) <= Z.max 1 (budget - attemptIndex + 1)
       end.
Proof.
  destruct (retry_count (obj w config)) as [budget |] eqn:Hbudget.
  - destruct (axiosRequest_fuel_enough transport random
                (S (attemptsLeft (obj w config) attemptIndex)) config attemptIndex w)
      as (w' & r & evs & Hrun & Htrace & Hinc & Hlen); [lia |].
    exists w', r, evs. repeat split; try assumption; [lia |].
    unfold attemptsLeft in Hlen. rewrite Hbudget in Hlen. lia.
  - rewrite axiosRequest_without_budget by exact Hbudget.
    pose proof (send_trace transport attemptIndex config w) as Htrace.
    destruct (send transport attemptIndex config w) as [w1 r]. simpl in Htrace.
    exists w1, r, [Sent attemptIndex (snapshot w (obj w config))].
    repeat split; [exact Htrace | simpl; lia].
Qed.

(** X3: a response whose status is neither 0 nor 500..599 settles the call
    at once, whatever the retry budget: it is the result when the status is
    200..399 and the rejection otherwise (a 404 is never retried, a 302
    counts as success). *)
Theorem axiosRequest_first_answer_decides config attemptIndex w response :
  fst (transport (sentCount w) (snapshot w (obj w config))) = Responded response ->
  status response <> 0 ->
  ~ 500 <= status response <= 599 ->
  axiosRequest transport random config attemptIndex w
  = Some (fst (send transport attemptIndex config w),
          if (200 <=? status response) && (status response <? 400)
          then Fulfilled response else Rejected (BadStatus response))
  /\ trace (fst (send transport attemptIndex config w))
     = trace w ++ [Sent attemptIndex (snapshot w (obj w config))].
Proof.
  intros Hanswer Hnot0 Hnot5. split; [| apply send_trace].
  unfold axiosRequest. rewrite axiosRequest_fuel_step.
  pose proof (send_result transport attemptIndex config w) as Hresult.
  pose proof (send_obj transport attemptIndex config w) as Hheap.
  destruct (send transport attemptIndex config w) as [w1 r]. simpl in Hresult, Hheap |- *.
  rewrite Hanswer in Hresult. simpl in Hresult. unfold onRequestResponse in Hresult.
  destruct (Z.leb_spec 200 (status response)) as [H200 | H200];
    destruct (Z.ltb_spec (status response) 400) as [H400 | H400]; simpl.
  - replace ((status response <? 200) || (400 <=? status response)) with false in Hresult
      by (symmetry; apply orb_false_iff; split; [apply Z.ltb_ge | apply Z.leb_gt]; lia).
    now subst r.
  - replace ((status response <? 200) || (400 <=? status response)) with true in Hresult
      by (symmetry; apply orb_true_iff; right; apply Z.leb_le; lia).
    subst r.
    destruct (isRetryableError (Some (BadStatus response)) (obj w1 config) attemptIndex) eqn:Hretry;
      [| reflexivity].
    apply isRetryableError_true in Hretry.
    destruct Hretry as (b & _ & _ & [Hnone | (e & s & [= <-] & [= <-] & Hs)]); [discriminate |].
    unfold retryableStatus in Hs. lia.
  - replace ((status response <? 200) || (400 <=? status response)) with true in Hresult
      by (symmetry; apply orb_true_iff; left; apply Z.ltb_lt; lia).
    subst r.
    destruct (isRetryableError (Some (BadStatus response)) (obj w1 config) attemptIndex) eqn:Hretry;
      [| reflexivity].
    apply isRetryableError_true in Hretry.
    destruct Hretry as (b & _ & _ & [Hnone | (e & s & [= <-] & [= <-] & Hs)]); [discriminate |].
    unfold retryableStatus in Hs. lia.
  - lia.
Qed.

(** X4: [axiosRequest] reads and writes only its own descriptor and the
    trace.  The client's cache, its stored resolutions, the default list,
    every other descriptor and every plain object other than the
    descriptor's [params] are as before, and of the descriptor only
    [params] can have changed. *)
Theorem axiosRequest_untouched config attemptIndex w w' r :
  axiosRequest transport random config attemptIndex w = Some (w', r) ->
  storage (self w') = storage (self w)
  /\ endpointResolution (self w') = endpointResolution (self w)
  /\ defaultServiceList w' = defaultServiceList w
  /\ (forall l, l <> config -> objs (heap w') !! l = objs (heap w) !! l)
  /\ (exists p, obj w' config = set_params p (obj w config))
  /\ (forall l, is_Some (dicts (heap w) !! l) -> params (obj w config) <> Some l ->
        dicts (heap w') !! l = dicts (heap w) !! l).
Proof.
  intros Hrun. apply axiosRequest_fuel_frame in Hrun.
  destruct Hrun as (H1 & H2 & _ & _ & H5 & H6 & H7).
  rewrite H1. repeat split; assumption.
Qed.

End RetryFrame.

Lemma retryScenario_404 :
  fst (Example.always 404 (sentCount (fst retryScenario))
         (snapshot (fst retryScenario) (obj (fst retryScenario) (snd retryScenario))))
  = Responded {| status := 404; response_data := JNull |}.
Proof. reflexivity. Qed.

Lemma axiosRequest_first_answer_decides_witness :
  axiosRequest (Example.always 404) Example.random (snd retryScenario) 0 (fst retryScenario)
  = Some (fst (send (Example.always 404) 0 (snd retryScenario) (fst retryScenario)),
          Rejected (BadStatus {| status := 404; response_data := JNull |})).
Proof.
  refine (proj1 (axiosRequest_first_answer_decides (Example.always 404) Example.random
                   (snd retryScenario) 0 (fst retryScenario)
                   {| status := 404; response_data := JNull |} retryScenario_404 _ _)).
  - simpl. lia.
  - simpl. lia.
Defined.

Lemma retryScenario_run :
  exists w' r,
    axiosRequest (Example.always 503) Example.random (snd retryScenario) 0 (fst retryScenario)
    = Some (w', r).
Proof.
  destruct (axiosRequest_fuel_enough (Example.always 503) Example.random
              (S (attemptsLeft (obj (fst retryScenario) (snd retryScenario)) 0))
              (snd retryScenario) 0 (fst retryScenario))
    as (w' & r & _ & Hrun & _); [lia |].
  now exists w', r.
Qed.

Lemma axiosRequest_untouched_witness :
  exists w' r,
    axiosRequest (Example.always 503) Example.random (snd retryScenario) 0 (fst retryScenario)
    = Some (w', r)
    /\ storage (self w') = storage (self (fst retryScenario))
    /\ defaultServiceList w' = defaultServiceList (fst retryScenario).
Proof.
  destruct retryScenario_run as (w' & r & Hrun).
  exists w', r. split; [exact Hrun |].
  destruct (axiosRequest_untouched (Example.always 503) Example.random
              (snd retryScenario) 0 (fst retryScenario) w' r Hrun) as (H1 & _ & H3 & _).
  split; [exact H1 | exact H3].
Defined.

(** ** Reads and writes, continued *)

Lemma setCachedValue_short_ttl_noop key v ttl w :
  ttl < 1000 -> setCachedValue key v ttl w = w.
Proof.
  intros Httl. unfold setCachedValue. destruct (Z.ltb_spec ttl 1000); [reflexivity | lia].
Qed.

Section CacheDiscipline.

Variable InsightAPI GlobalAPI : string.
Variable resolveURL : option string -> option string -> string.
Variable transport : nat -> Request -> Outcome * Z.
Variable random : nat -> Z -> Z.

(** X5: a write ([post], [put], [delete], [form]) never puts anything in
    the cache.  Whatever the outcome, the cache after the call is the cache
    as normalisation left it, without the entry under the request's URL. *)
Theorem write_never_caches config w0 w1 normalized w3 r :
  normalizeRequest InsightAPI GlobalAPI resolveURL transport config w0
  = Some (w1, Fulfilled normalized) ->
  write InsightAPI GlobalAPI resolveURL transport random config w0 = Some (w3, r) ->
  storage (self w3)
  = delete (default "undefined" (url (obj w1 normalized))) (storage (self w1)).
Proof.
  intros Hnorm Hwrite. unfold write in Hwrite. rewrite Hnorm in Hwrite.
  cbn [mbind option_bind] in Hwrite.
  destruct (axiosRequest transport random normalized 0 _) as [[w3' r'] |] eqn:Hrun;
    [| discriminate].
  apply axiosRequest_fuel_frame in Hrun. destruct Hrun as (Hself & _).
  cbn [mbind option_bind] in Hwrite.
  assert (w3 = w3') by (destruct r'; now injection Hwrite as <- _). subst w3'.
  rewrite Hself. reflexivity.
Qed.

Lemma get_after_lookup config w w1 normalized query :
  normalizeRequest InsightAPI GlobalAPI resolveURL transport config
    (store_obj config (set_method (Some "GET") (obj w config)) w)
  = Some (w1, Fulfilled normalized) ->
  queryParams (dictOf w1 (params (obj w1 config))) = Some query ->
  truthy_opt (snd (getLookup query normalized w1)) = false ->
  get InsightAPI GlobalAPI resolveURL transport random config w
  = match axiosRequest transport random normalized 0 (fst (getLookup query normalized w1)) with
    | Some (w3, Rejected e) => Some (w3, Rejected e)
    | Some (w3, Fulfilled response) =>
        Some (if cacheTTL (obj w1 normalized) =? 0 then w3
              else setCachedValue (fullUrl query) (response_data response)
                                  (cacheTTL (obj w1 normalized)) w3,
              Fulfilled (response_data response))
    | None => None
    end.
Proof.
  intros Hnorm Hquery Hmiss. unfold get. rewrite Hnorm. cbn [mbind option_bind].
  rewrite Hquery. fold (getLookup query normalized w1).
  destruct (getLookup query normalized w1) as [w2 cached]. simpl in Hmiss |- *.
  rewrite Hmiss.
  destruct (axiosRequest transport random normalized 0 w2) as [[w3 [response | e]] |];
    reflexivity.
Qed.

(** X6: a GET that fails is rejected with the failure of the request, as
    it is, and leaves nothing in the cache: the cache is as the lookup left
    it. *)
Theorem get_failure_not_cached config w w1 normalized query w3 e :
  normalizeRequest InsightAPI GlobalAPI resolveURL transport config
    (store_obj config (set_method (Some "GET") (obj w config)) w)
  = Some (w1, Fulfilled normalized) ->
  queryParams (dictOf w1 (params (obj w1 config))) = Some query ->
  truthy_opt (snd (getLookup query normalized w1)) = false ->
  axiosRequest transport random normalized 0 (fst (getLookup query normalized w1))
  = Some (w3, Rejected e) ->
  get InsightAPI GlobalAPI resolveURL transport random config w = Some (w3, Rejected e)
  /\ storage (self w3) = storage (self (fst (getLookup query normalized w1))).
Proof.
  intros Hnorm Hquery Hmiss Hrun.
  rewrite (get_after_lookup _ _ _ _ _ Hnorm Hquery Hmiss), Hrun. split; [reflexivity |].
  apply axiosRequest_fuel_frame in Hrun. destruct Hrun as (Hself & _). now rewrite Hself.
Qed.

(** X7: a GET whose TTL is absent, [false], 0 or negative neither reads
    nor writes the cache: the request always goes out, and the cache after
    the call is the cache as normalisation left it. *)
Theorem get_uncached config w w1 normalized query w3 r :
  normalizeRequest InsightAPI GlobalAPI resolveURL transport config
    (store_obj config (set_method (Some "GET") (obj w config)) w)
  = Some (w1, Fulfilled normalized) ->
  queryParams (dictOf w1 (params (obj w1 config))) = Some query ->
  cacheTTL (obj w1 normalized) = 0 ->
  axiosRequest transport random normalized 0 w1 = Some (w3, r) ->
  get InsightAPI GlobalAPI resolveURL transport random config w
  = Some (w3, match r with
              | Fulfilled response => Fulfilled (response_data response)
              | Rejected e => Rejected e
              end)
  /\ storage (self w3) = storage (self w1).
Proof.
  intros Hnorm Hquery Httl Hrun.
  assert (Hlookup : getLookup query normalized w1 = (w1, None))
    by (unfold getLookup; now rewrite Httl).
  rewrite (get_after_lookup _ _ _ _ _ Hnorm Hquery) by (now rewrite Hlookup).
  rewrite Hlookup. cbn [fst]. rewrite Hrun, Httl. split.
  - destruct r; reflexivity.
  - apply axiosRequest_fuel_frame in Hrun. destruct Hrun as (Hself & _). now rewrite Hself.
Qed.

(** X8: a GET with a TTL of 1..999 ms consults the cache but never fills
    it: the response is returned and the cache is as the lookup left it. *)
Theorem get_short_ttl_not_stored config w w1 normalized query w3 response :
  normalizeRequest InsightAPI GlobalAPI resolveURL transport config
    (store_obj config (set_method (Some "GET") (obj w config)) w)
  = Some (w1, Fulfilled normalized) ->
  queryParams (dictOf w1 (params (obj w1 config))) = Some query ->
  0 < cacheTTL (obj w1 normalized) < 1000 ->
  truthy_opt (snd (getCachedValue (fullUrl query) w1)) = false ->
  axiosRequest transport random normalized 0 (fst (getCachedValue (fullUrl query) w1))
  = Some (w3, Fulfilled response) ->
  get InsightAPI GlobalAPI resolveURL transport random config w
  = Some (w3, Fulfilled (response_data response))
  /\ storage (self w3) = storage (self (fst (getCachedValue (fullUrl query) w1))).
Proof.
  intros Hnorm Hquery Httl Hmiss Hrun.
  assert (Hlookup : getLookup query normalized w1 = getCachedValue (fullUrl query) w1).
  { unfold getLookup. destruct (Z.eqb_spec (cacheTTL (obj w1 normalized)) 0); [lia | reflexivity]. }
  rewrite (get_after_lookup _ _ _ _ _ Hnorm Hquery) by (now rewrite Hlookup).
  rewrite Hlookup, Hrun.
  destruct (Z.eqb_spec (cacheTTL (obj w1 normalized)) 0); [lia |].
  rewrite setCachedValue_short_ttl_noop by lia.
  split; [reflexivity |].
  apply axiosRequest_fuel_frame in Hrun. destruct Hrun as (Hself & _). now rewrite Hself.
Qed.

End CacheDiscipline.

Lemma postScenario_normalized :
  normalizeRequest Example.InsightAPI Example.GlobalAPI Example.resolveURL Example.backend
    (snd postScenario) (fst postScenario)
  = Some (worldAfter postNormalized (fst postScenario), Fulfilled (normalizedOf postNormalized)).
Proof. vm_compute. reflexivity. Qed.

Lemma postScenario_written :
  exists w3 r,
    write Example.InsightAPI Example.GlobalAPI Example.resolveURL Example.backend Example.random
          (snd postScenario) (fst postScenario) = Some (w3, r).
Proof. eexists _, _. vm_compute. reflexivity. Qed.

Lemma write_never_caches_witness :
  exists w3 r,
    write Example.InsightAPI Example.GlobalAPI Example.resolveURL Example.backend Example.random
          (snd postScenario) (fst postScenario) = Some (w3, r)
    /\ storage (self w3)
       = delete (default "undefined"
                   (url (obj (worldAfter postNormalized (fst postScenario))
                             (normalizedOf postNormalized))))
                (storage (self (worldAfter postNormalized (fst postScenario)))).
Proof.
  destruct postScenario_written as (w3 & r & Hwrite).
  exists w3, r. split; [exact Hwrite |].
  exact (write_never_caches Example.InsightAPI Example.GlobalAPI Example.resolveURL
           Example.backend Example.random _ _ _ _ _ _ postScenario_normalized Hwrite).
Defined.

Lemma getScenario_normalized_404 :
  normalizeRequest Example.InsightAPI Example.GlobalAPI Example.resolveURL (Example.always 404)
    (snd (getScenario (Some (TtlNumber 60000))))
    (store_obj (snd (getScenario (Some (TtlNumber 60000))))
       (set_method (Some "GET") (obj (fst (getScenario (Some (TtlNumber 60000))))
                                     (snd (getScenario (Some (TtlNumber 60000))))))
       (fst (getScenario (Some (TtlNumber 60000)))))
  = Some (getW1 (Example.always 404) (Some (TtlNumber 60000)),
          Fulfilled (getN (Example.always 404) (Some (TtlNumber 60000)))).
Proof. vm_compute. reflexivity. Qed.

Lemma getScenario_query_404 :
  queryParams (dictOf (getW1 (Example.always 404) (Some (TtlNumber 60000)))
                 (params (obj (getW1 (Example.always 404) (Some (TtlNumber 60000)))
                              (snd (getScenario (Some (TtlNumber 60000)))))))
  = Some "".
Proof. vm_compute. reflexivity. Qed.

Lemma getScenario_miss_404 :
  truthy_opt (snd (getLookup "" (getN (Example.always 404) (Some (TtlNumber 60000)))
                             (getW1 (Example.always 404) (Some (TtlNumber 60000))))) = false.
Proof. vm_compute. reflexivity. Qed.

Lemma getScenario_rejected_404 :
  axiosRequest (Example.always 404) Example.random
    (getN (Example.always 404) (Some (TtlNumber 60000))) 0
    (fst (getLookup "" (getN (Example.always 404) (Some (TtlNumber 60000)))
                    (getW1 (Example.always 404) (Some (TtlNumber 60000)))))
  = Some (worldAfter
            (getSent (Example.always 404) (Some (TtlNumber 60000))
               (fst (getLookup "" (getN (Example.always 404) (Some (TtlNumber 60000)))
                               (getW1 (Example.always 404) (Some (TtlNumber 60000))))))
            Example.world0,
          Rejected (BadStatus {| status := 404; response_data := JNull |})).
Proof. vm_compute. reflexivity. Qed.

Lemma get_failure_not_cached_witness :
  exists w3,
    get Example.InsightAPI Example.GlobalAPI Example.resolveURL (Example.always 404)
        Example.random (snd (getScenario (Some (TtlNumber 60000))))
        (fst (getScenario (Some (TtlNumber 60000))))
    = Some (w3, Rejected (BadStatus {| status := 404; response_data := JNull |}))
    /\ storage (self w3)
       = storage (self (fst (getLookup "" (getN (Example.always 404) (Some (TtlNumber 60000)))
                                       (getW1 (Example.always 404) (Some (TtlNumber 60000)))))).
Proof.
  eexists.
  exact (get_failure_not_cached Example.InsightAPI Example.GlobalAPI Example.resolveURL
           (Example.always 404) Example.random _ _ _ _ _ _ _
           getScenario_normalized_404 getScenario_query_404 getScenario_miss_404
           getScenario_rejected_404).
Defined.

Lemma getScenario_normalized_plain :
  normalizeRequest Example.InsightAPI Example.GlobalAPI Example.resolveURL Example.backend
    (snd (getScenario None))
    (store_obj (snd (getScenario None))
       (set_method (Some "GET") (obj (fst (getScenario None)) (snd (getScenario None))))
       (fst (getScenario None)))
  = Some (getW1 Example.backend None, Fulfilled (getN Example.backend None)).
Proof. vm_compute. reflexivity. Qed.

Lemma getScenario_query_plain :
  queryParams (dictOf (getW1 Example.backend None)
                 (params (obj (getW1 Example.backend None) (snd (getScenario None)))))
  = Some "".
Proof. vm_compute. reflexivity. Qed.

Lemma getScenario_ttl_plain :
  cacheTTL (obj (getW1 Example.backend None) (getN Example.backend None)) = 0.
Proof. vm_compute. reflexivity. Qed.

Lemma getScenario_sent_plain :
  axiosRequest Example.backend Example.random (getN Example.backend None) 0
    (getW1 Example.backend None)
  = Some (worldAfter (getSent Example.backend None (getW1 Example.backend None)) Example.world0,
          Fulfilled {| status := 200; response_data := JStr "reply 1" |}).
Proof. vm_compute. reflexivity. Qed.

Lemma get_uncached_witness :
  exists w3,
    get Example.InsightAPI Example.GlobalAPI Example.resolveURL Example.backend
        Example.random (snd (getScenario None)) (fst (getScenario None))
    = Some (w3, Fulfilled (JStr "reply 1"))
    /\ storage (self w3) = storage (self (getW1 Example.backend None)).
Proof.
  eexists.
  exact (get_uncached Example.InsightAPI Example.GlobalAPI Example.resolveURL
           Example.backend Example.random _ _ _ _ _ _ _
           getScenario_normalized_plain getScenario_query_plain getScenario_ttl_plain
           getScenario_sent_plain).
Defined.

Lemma getScenario_normalized_short :
  normalizeRequest Example.InsightAPI Example.GlobalAPI Example.resolveURL Example.backend
    (snd (getScenario (Some (TtlNumber 500))))
    (store_obj (snd (getScenario (Some (TtlNumber 500))))
       (set_method (Some "GET") (obj (fst (getScenario (Some (TtlNumber 500))))
                                     (snd (getScenario (Some (TtlNumber 500))))))
       (fst (getScenario (Some (TtlNumber 500)))))
  = Some (getW1 Example.backend (Some (TtlNumber 500)),
          Fulfilled (getN Example.backend (Some (TtlNumber 500)))).
Proof. vm_compute. reflexivity. Qed.

Lemma getScenario_query_short :
  queryParams (dictOf (getW1 Example.backend (Some (TtlNumber 500)))
                 (params (obj (getW1 Example.backend (Some (TtlNumber 500)))
                              (snd (getScenario (Some (TtlNumber 500)))))))
  = Some "".
Proof. vm_compute. reflexivity. Qed.

Lemma getScenario_ttl_short :
  0 < cacheTTL (obj (getW1 Example.backend (Some (TtlNumber 500)))
                    (getN Example.backend (Some (TtlNumber 500)))) < 1000.
Proof. vm_compute. split; reflexivity. Qed.

Lemma getScenario_miss_short :
  truthy_opt (snd (getCachedValue (fullUrl "") (getW1 Example.backend (Some (TtlNumber 500)))))
  = false.
Proof. vm_compute. reflexivity. Qed.

Lemma getScenario_sent_short :
  axiosRequest Example.backend Example.random (getN Example.backend (Some (TtlNumber 500))) 0
    (fst (getCachedValue (fullUrl "") (getW1 Example.backend (Some (TtlNumber 500)))))
  = Some (worldAfter
            (getSent Example.backend (Some (TtlNumber 500))
               (fst (getCachedValue (fullUrl "") (getW1 Example.backend (Some (TtlNumber 500))))))
            Example.world0,
          Fulfilled {| status := 200; response_data := JStr "reply 1" |}).
Proof. vm_compute. reflexivity. Qed.

Lemma get_short_ttl_not_stored_witness :
  exists w3,
    get Example.InsightAPI Example.GlobalAPI Example.resolveURL Example.backend
        Example.random (snd (getScenario (Some (TtlNumber 500))))
        (fst (getScenario (Some (TtlNumber 500))))
    = Some (w3, Fulfilled (JStr "reply 1"))
    /\ storage (self w3)
       = storage (self (fst (getCachedValue (fullUrl "")
                               (getW1 Example.backend (Some (TtlNumber 500)))))).
Proof.
  eexists.
  exact (get_short_ttl_not_stored Example.InsightAPI Example.GlobalAPI Example.resolveURL
           Example.backend Example.random _ _ _ _ _ _ _
           getScenario_normalized_short getScenario_query_short getScenario_ttl_short
           getScenario_miss_short getScenario_sent_short).
Defined.

(** ** The request URL *)

(** X9: how the version shapes the URL.  A positive number [n] gives the
    segment of the string ["v" n]; an absent version, an empty string, zero
    and a negative number give no segment at all. *)
Theorem requestPath_version (p : APIRequestParams) (host : string) :
  (forall n, 0 < n ->
     requestPath (set_version (Some (VersionNumber n)) p) host
     = requestPath (set_version (Some (VersionString ("v" +:+ toDecimal n))) p) host)
  /\ (forall n, n <= 0 ->
        requestPath (set_version (Some (VersionNumber n)) p) host
        = requestPath (set_version None p) host)
  /\ requestPath (set_version (Some (VersionString "")) p) host
     = requestPath (set_version None p) host.
Proof.
  unfold requestPath. simpl. repeat split.
  - intros n Hn. destruct (Z.ltb_spec 0 n) as [_ | H]; [| lia].
    assert (Hassoc : forall a b : string, a +:+ "/v" +:+ b = a +:+ "/" +:+ "v" +:+ b)
      by reflexivity.
    now rewrite Hassoc.
  - intros n Hn. destruct (Z.ltb_spec 0 n) as [H | _]; [lia | reflexivity].
Qed.

(** X10: how the account and the path shape the URL.  The account ids
    ["0"] and [""] count as no account; an empty path counts as no path;
    a path gets a leading slash exactly when it has none. *)
Theorem requestPath_account_and_path (p : APIRequestParams) (host : string) :
  requestPath (set_account_id (Some "0") p) host = requestPath (set_account_id None p) host
  /\ requestPath (set_account_id (Some "") p) host = requestPath (set_account_id None p) host
  /\ requestPath (set_path (Some "") p) host = requestPath (set_path None p) host
  /\ (forall c rest, c <> "/"%char ->
        requestPath (set_path (Some (String c rest)) p) host
        = requestPath (set_path (Some (String "/" (String c rest))) p) host).
Proof.
  unfold requestPath. simpl. repeat split.
  intros c rest Hc. destruct (Ascii.eqb_spec c "/"); [contradiction |]. reflexivity.
Qed.

(** ** Normalisation, continued *)

Lemma nonEmpty_None_accept c :
  nonEmpty (accept_header (set_accept_header None c)) = None.
Proof. reflexivity. Qed.

(** What the folding of the shorthands leaves in the descriptor. *)
Lemma foldShorthands_result config w :
  let c := obj w config in
  let c' := obj (foldShorthands config w) config in
  nonEmpty (accept_header c') = None
  /\ nonEmpty (response_type c') = None
  /\ service_name c' = service_name c
  /\ service_stack c' = service_stack c
  /\ url c' = url c
  /\ (forall t, nonEmpty (response_type c) = Some t -> responseType c' = Some t)
  /\ (forall a, nonEmpty (accept_header c) = Some a ->
        exists h, headers c' = Some h
                  /\ assoc "Accept" (dict (foldShorthands config w) h) = Some (JStr a)
                  /\ (forall h0, headers c = Some h0 ->
                        h = h0
                        /\ forall k, k <> "Accept" ->
                             assoc k (dict (foldShorthands config w) h) = assoc k (dict w h0))).
Proof.
  cbv zeta. unfold foldShorthands.
  destruct (nonEmpty (accept_header (obj w config))) as [accept |] eqn:Ha.
  - destruct (headers (obj w config)) as [h |] eqn:Hh.
    + rewrite obj_store_dict. rewrite obj_store_obj. cbn [response_type set_accept_header].
      destruct (nonEmpty (response_type (obj w config))) as [t |] eqn:Hr;
        rewrite ?obj_store_obj; cbn; rewrite ?Hh; repeat split; try reflexivity; try assumption.
      * intros t' [= <-]. reflexivity.
      * intros a [= <-]. exists h. rewrite !dict_store_obj, dict_store_dict.
        split; [reflexivity |]. split; [apply assoc_assign_same |].
        intros h0 [= <-]. split; [reflexivity |]. intros k Hk.
        now rewrite assoc_assign_other by congruence.
      * intros t'. discriminate.
      * intros a [= <-]. exists h. rewrite !dict_store_obj, dict_store_dict.
        split; [reflexivity |]. split; [apply assoc_assign_same |].
        intros h0 [= <-]. split; [reflexivity |]. intros k Hk.
        now rewrite assoc_assign_other by congruence.
    + unfold new_dict. cbv zeta.
      set (l := fresh (dom (dicts (heap w)))).
      rewrite !obj_store_dict, !obj_store_obj. cbn [response_type set_accept_header set_headers].
      destruct (nonEmpty (response_type (obj w config))) as [t |] eqn:Hr;
        rewrite ?obj_store_obj; cbn; repeat split; try reflexivity; try assumption.
      * intros t' [= <-]. reflexivity.
      * intros a [= <-]. exists l. rewrite !dict_store_obj, dict_store_dict.
        split; [reflexivity |]. split; [apply assoc_assign_same |].
        intros h0. discriminate.
      * intros t'. discriminate.
      * intros a [= <-]. exists l. rewrite !dict_store_obj, dict_store_dict.
        split; [reflexivity |]. split; [apply assoc_assign_same |].
        intros h0. discriminate.
  - destruct (nonEmpty (response_type (obj w config))) as [t |] eqn:Hr;
      rewrite ?obj_store_obj; cbn; repeat split; try reflexivity; try assumption.
    + intros t' [= <-]. reflexivity.
    + intros a. discriminate.
    + intros t'. discriminate.
    + intros a. discriminate.
Qed.

Section NormalisationMore.

Variable InsightAPI GlobalAPI : string.
Variable resolveURL : option string -> option string -> string.
Variable transport : nat -> Request -> Outcome * Z.

Lemma hasIdentity_fold config w :
  hasIdentity (obj (foldShorthands config w) config) = hasIdentity (obj w config).
Proof.
  destruct (foldShorthands_result config w) as (_ & _ & Hn & Hs & _).
  unfold hasIdentity. now rewrite Hn, Hs.
Qed.

(** X11: normalising a descriptor that has no service identity a second
    time changes nothing: the first pass has folded the shorthands away,
    the second returns the same object and leaves the world as it is. *)
Theorem normalizeRequest_idempotent config w w1 normalized :
  hasIdentity (obj w config) = false ->
  normalizeRequest InsightAPI GlobalAPI resolveURL transport config w
  = Some (w1, Fulfilled normalized) ->
  normalizeRequest InsightAPI GlobalAPI resolveURL transport normalized w1
  = Some (w1, Fulfilled normalized).
Proof.
  intros Hid Hrun. unfold normalizeRequest in Hrun. rewrite Hid in Hrun.
  injection Hrun as <- <-.
  unfold normalizeRequest. rewrite hasIdentity_fold, Hid.
  destruct (foldShorthands_result config w) as (Ha & Hr & _).
  now rewrite foldShorthands_nothing.
Qed.

(** X12: the request [normalizeRequest] returns carries no [accept_header]
    and no [response_type] any more.  An [accept_header] that was in effect
    is the [Accept] entry of its [headers] (replacing an earlier one); a
    [response_type] that was in effect is its [responseType]. *)
Theorem normalizeRequest_folds_shorthands config w w' normalized :
  normalizeRequest InsightAPI GlobalAPI resolveURL transport config w
  = Some (w', Fulfilled normalized) ->
  nonEmpty (accept_header (obj w' normalized)) = None
  /\ nonEmpty (response_type (obj w' normalized)) = None
  /\ (forall a, nonEmpty (accept_header (normalizeSource config w)) = Some a ->
        exists h, headers (obj w' normalized) = Some h
                  /\ assoc "Accept" (dict w' h) = Some (JStr a))
  /\ (forall t, nonEmpty (response_type (normalizeSource config w)) = Some t ->
        responseType (obj w' normalized) = Some t).
Proof.
  intros Hrun. unfold normalizeRequest in Hrun. unfold normalizeSource.
  destruct (hasIdentity (obj w config)).
  - unfold new_obj in Hrun. cbv zeta in Hrun.
    set (n := fresh (dom (objs (heap w)))) in *.
    set (merged := objectAssign (globalServiceParams (self w)) (obj w config)) in *.
    destruct (calculateRequestURL _ _ _ _ _ _) as [[w2 r] |] eqn:Hurl;
      cbn [mbind option_bind] in Hrun; [| discriminate].
    apply calculateRequestURL_heap in Hurl.
    destruct r as [u | e]; [| discriminate].
    injection Hrun as <- <-.
    assert (Hobj2 : obj w2 n = merged).
    { rewrite (obj_same_heap _ _ _ Hurl). apply obj_store_obj. }
    rewrite Hobj2.
    destruct (foldShorthands_result n (store_obj n (set_url (Some u) merged) w2))
      as (Ha & Hr & _ & _ & _ & Ht & Hacc).
    rewrite obj_store_obj in Ht, Hacc.
    split; [exact Ha |]. split; [exact Hr |]. split.
    + intros a Hsome. destruct (Hacc a Hsome) as (h & Hh & Hassoc & _).
      exists h. split; [exact Hh | exact Hassoc].
    + exact Ht.
  - injection Hrun as <- <-.
    destruct (foldShorthands_result config w) as (Ha & Hr & _ & _ & _ & Ht & Hacc).
    split; [exact Ha |]. split; [exact Hr |]. split.
    + intros a Hsome. destruct (Hacc a Hsome) as (h & Hh & Hassoc & _).
      exists h. split; [exact Hh | exact Hassoc].
    + exact Ht.
Qed.

(** A descriptor whose host comes from the locator table: nothing is
    asked of the discovery service. *)
Lemma normalizeRequest_static config w :
  hasIdentity (obj w config) = true ->
  let merged := objectAssign (globalServiceParams (self w)) (obj w config) in
  usesEndpoints InsightAPI merged = false ->
  exists w' normalized,
    normalizeRequest InsightAPI GlobalAPI resolveURL transport config w
    = Some (w', Fulfilled normalized)
    /\ url (obj w' normalized)
       = Some (requestPath merged (resolveURL (service_stack merged) None))
    /\ trace w' = trace w
    /\ self w' = self w
    /\ promises w' = promises w
    /\ inflight w' = inflight w
    /\ defaultServiceList w' = defaultServiceList w.
Proof.
  intros Hid merged Hstatic. unfold normalizeRequest. rewrite Hid.
  unfold new_obj. cbv zeta.
  set (n := fresh (dom (objs (heap w)))).
  rewrite obj_store_obj. fold merged.
  unfold calculateRequestURL. rewrite Hstatic. cbn [mbind option_bind].
  rewrite obj_store_obj.
  eexists _, n. split; [reflexivity |].
  set (w3 := store_obj n (set_url _ merged) (store_obj n merged w)).
  assert (Hframe : forall c w0,
             trace (foldShorthands c w0) = trace w0 /\ self (foldShorthands c w0) = self w0
             /\ promises (foldShorthands c w0) = promises w0
             /\ inflight (foldShorthands c w0) = inflight w0
             /\ defaultServiceList (foldShorthands c w0) = defaultServiceList w0).
  { intros c w0. unfold foldShorthands.
    destruct (nonEmpty (accept_header (obj w0 c))); [destruct (headers (obj w0 c)) |];
      cbv zeta; unfold new_dict; cbv zeta;
      destruct (nonEmpty (response_type _)); repeat split; reflexivity. }
  destruct (Hframe n w3) as (H1 & H2 & H3 & H4 & H5).
  destruct (foldShorthands_result n w3) as (_ & _ & _ & _ & Hurl & _).
  unfold w3 in Hurl at 2. rewrite obj_store_obj in Hurl.
  split; [exact Hurl |]. rewrite H1, H2, H3, H4, H5. repeat split; reflexivity.
Qed.

(** X13: once [setGlobalParameters] has set [noEndpointsResolution], a
    request that does not set the flag itself is normalised without any
    discovery: nothing is sent, no resolution is stored, and the host is the
    locator's default for the service stack. *)
Theorem noEndpointsResolution_suppresses_discovery config w :
  hasIdentity (obj w config) = true ->
  noEndpointsResolution (obj w config) = None ->
  let w0 := setGlobalParameters (set_noEndpointsResolution (Some true) emptyParams) w in
  let merged := objectAssign (globalServiceParams (self w0)) (obj w config) in
  exists w' normalized,
    normalizeRequest InsightAPI GlobalAPI resolveURL transport config w0
    = Some (w', Fulfilled normalized)
    /\ url (obj w' normalized)
       = Some (requestPath merged (resolveURL (service_stack merged) None))
    /\ trace w' = trace w
    /\ endpointResolution (self w') = endpointResolution (self w)
    /\ storage (self w') = storage (self w)
    /\ inflight w' = inflight w.
Proof.
  intros Hid Hflag. cbv zeta.
  destruct (normalizeRequest_static config
              (setGlobalParameters (set_noEndpointsResolution (Some true) emptyParams) w))
    as (w' & normalized & Hrun & Hurl & Htrace & Hself & _ & Hinflight & _).
  - exact Hid.
  - cbv zeta.
    match goal with
    | |- usesEndpoints _ ?m = false =>
        assert (Hset : noEndpointsResolution m = Some true)
    end.
    { unfold objectAssign at 1. cbn [noEndpointsResolution].
      change (noEndpointsResolution (obj w config) = None) in Hflag.
      unfold obj in *. cbn in *. rewrite Hflag. reflexivity. }
    unfold usesEndpoints. rewrite Hset.
    destruct (nonEmpty _); [| reflexivity].
    destruct (service_stack _); [| reflexivity].
    apply andb_false_r.
  - exists w', normalized. split; [exact Hrun |]. split; [exact Hurl |].
    rewrite Htrace, Hself, Hinflight. repeat split; reflexivity.
Qed.


End NormalisationMore.

Lemma shorthandScenario_plain :
  hasIdentity (obj (fst shorthandScenario) (snd shorthandScenario)) = false.
Proof. vm_compute. reflexivity. Qed.

Lemma shorthandScenario_normalized :
  normalizeRequest Example.InsightAPI Example.GlobalAPI Example.resolveURL Example.unreachable
    (snd shorthandScenario) (fst shorthandScenario)
  = Some (worldAfter (normalizeExample shorthandScenario) (fst shorthandScenario),
          Fulfilled (normalizedOf (normalizeExample shorthandScenario))).
Proof. vm_compute. reflexivity. Qed.

Lemma normalizeRequest_idempotent_witness :
  normalizeRequest Example.InsightAPI Example.GlobalAPI Example.resolveURL Example.unreachable
    (normalizedOf (normalizeExample shorthandScenario))
    (worldAfter (normalizeExample shorthandScenario) (fst shorthandScenario))
  = Some (worldAfter (normalizeExample shorthandScenario) (fst shorthandScenario),
          Fulfilled (normalizedOf (normalizeExample shorthandScenario))).
Proof.
  exact (normalizeRequest_idempotent Example.InsightAPI Example.GlobalAPI Example.resolveURL
           Example.unreachable _ _ _ _ shorthandScenario_plain shorthandScenario_normalized).
Defined.

Lemma sharedHeadersScenario_normalized :
  normalizeRequest Example.InsightAPI Example.GlobalAPI Example.resolveURL Example.unreachable
    (snd sharedHeadersScenario) (fst sharedHeadersScenario)
  = Some (worldAfter (normalizeExample sharedHeadersScenario) (fst sharedHeadersScenario),
          Fulfilled (normalizedOf (normalizeExample sharedHeadersScenario))).
Proof. vm_compute. reflexivity. Qed.

Lemma sharedHeadersScenario_accept :
  nonEmpty (accept_header (normalizeSource (snd sharedHeadersScenario) (fst sharedHeadersScenario)))
  = Some "text/csv".
Proof. vm_compute. reflexivity. Qed.

Lemma normalizeRequest_folds_shorthands_witness :
  nonEmpty (accept_header (obj (worldAfter (normalizeExample sharedHeadersScenario)
                                           (fst sharedHeadersScenario))
                               (normalizedOf (normalizeExample sharedHeadersScenario)))) = None
  /\ exists h,
       headers (obj (worldAfter (normalizeExample sharedHeadersScenario)
                                (fst sharedHeadersScenario))
                    (normalizedOf (normalizeExample sharedHeadersScenario))) = Some h
       /\ assoc "Accept" (dict (worldAfter (normalizeExample sharedHeadersScenario)
                                           (fst sharedHeadersScenario)) h)
          = Some (JStr "text/csv").
Proof.
  destruct (normalizeRequest_folds_shorthands Example.InsightAPI Example.GlobalAPI
              Example.resolveURL Example.unreachable _ _ _ _ sharedHeadersScenario_normalized)
    as (Ha & _ & Hacc & _).
  split; [exact Ha |]. exact (Hacc "text/csv" sharedHeadersScenario_accept).
Defined.

Lemma getScenario_identity :
  hasIdentity (obj (fst (getScenario None)) (snd (getScenario None))) = true.
Proof. vm_compute. reflexivity. Qed.

Lemma getScenario_no_flag :
  noEndpointsResolution (obj (fst (getScenario None)) (snd (getScenario None))) = None.
Proof. vm_compute. reflexivity. Qed.

Lemma noEndpointsResolution_suppresses_discovery_witness :
  exists w' normalized,
    normalizeRequest Example.InsightAPI Example.GlobalAPI Example.resolveURL Example.backend
      (snd (getScenario None))
      (setGlobalParameters (set_noEndpointsResolution (Some true) emptyParams)
         (fst (getScenario None)))
    = Some (w', Fulfilled normalized)
    /\ trace w' = trace (fst (getScenario None)).
Proof.
  destruct (noEndpointsResolution_suppresses_discovery Example.InsightAPI Example.GlobalAPI
              Example.resolveURL Example.backend _ _ getScenario_identity getScenario_no_flag)
    as (w' & normalized & Hrun & _ & Htrace & _).
  exists w', normalized. split; [exact Hrun | exact Htrace].
Defined.


Lemma global_is_not_insight : Example.GlobalAPI <> Example.InsightAPI.
Proof. discriminate. Qed.


(** ** Endpoint discovery, continued *)

Lemma assoc_assign {A : Type} k k' (x : A) l :
  assoc k' (assign k x l) = if String.eqb k k' then Some x else assoc k' l.
Proof.
  destruct (String.eqb_spec k k') as [<- | Hne].
  - apply assoc_assign_same.
  - now apply assoc_assign_other.
Qed.

Lemma assoc_app {A : Type} k (l1 l2 : list (string * A)) :
  assoc k (l1 ++ l2) = orElse (assoc k l1) (assoc k l2).
Proof.
  induction l1 as [| [k' x] l1 IH]; simpl; [reflexivity |].
  destruct (String.eqb k k'); [reflexivity | exact IH].
Qed.

Lemma assoc_inList {A : Type} k (l : list (string * A)) :
  inList k (map fst l) = true <-> is_Some (assoc k l).
Proof.
  induction l as [| [k' x] l IH]; simpl.
  - split; [discriminate | intros [? ?]; discriminate].
  - destruct (String.eqb k k'); simpl; [split; [eauto | reflexivity] | exact IH].
Qed.

Lemma translateHost_scheme v h : translateHost v = Some h -> withScheme h.
Proof.
  destruct v as [| b | n | s | items | props |]; try discriminate.
  unfold translateHost, withScheme. intros Hh.
  exists (if startsWith "http" s then s else "https://" +:+ s).
  split; [congruence |].
  destruct (startsWith "http" s) eqn:Hs; [exact Hs | reflexivity].
Qed.

(** The translated collection binds every service of the response, each to
    the translation of the host the response gives last for it. *)
Lemma translate_assoc es : forall acc t,
  translate es acc = Some t ->
  forall k, assoc k t = match assoc k (rev es) with
                        | Some v => translateHost v
                        | None => assoc k acc
                        end.
Proof.
  induction es as [| [k0 v0] es IH]; intros acc t Ht k; simpl in *.
  - now injection Ht as <-.
  - destruct (translateHost v0) as [h0 |] eqn:Hh0; [| discriminate].
    rewrite (IH _ _ Ht k), assoc_app. simpl.
    destruct (assoc k (rev es)) as [v |]; simpl; [reflexivity |].
    rewrite assoc_assign, (String.eqb_sym k0 k).
    destruct (String.eqb k k0) eqn:Hk; [| reflexivity].
    apply String.eqb_eq in Hk. now subst.
Qed.

Lemma assoc_rev_Some {A : Type} k (l : list (string * A)) :
  is_Some (assoc k (rev l)) <-> is_Some (assoc k l).
Proof.
  rewrite <- !assoc_inList, !inList_In, map_rev. symmetry. apply in_rev.
Qed.

Section DiscoveryMore.

Variable InsightAPI GlobalAPI : string.
Variable resolveURL : option string -> option string -> string.

(** X15: when the discovery request succeeds, every host of the resulting
    collection starts with ["http"] (a host given without a scheme got
    ["https://"] in front), every service the response names is in the
    collection, and the collection is what the cache holds for the account
    for the next 15 minutes. *)
Theorem discovery_success_collection (c : Inflight) (response : AxiosResponse) (w : World)
    (collection : JsVal) :
  snd (getServiceEndpoints_then InsightAPI resolveURL c (Fulfilled response) w)
  = Fulfilled collection ->
  let w' := fst (getServiceEndpoints_then InsightAPI resolveURL c (Fulfilled response) w) in
  (forall name host, getProperty collection name = Some host -> withScheme host)
  /\ (forall es name, entries (response_data response) = Some es ->
        is_Some (assoc name es) -> hasOwnProperty collection name = true)
  /\ storage (self w') !! endpointsCacheKey (call_account c)
     = Some {| entry_value := collection; entry_expires := clock w + 15 * 60 * 1000 |}
  /\ snd (getCachedValue (endpointsCacheKey (call_account c)) w') = Some collection.
Proof.
  unfold getServiceEndpoints_then.
  destruct (entries (response_data response)) as [es |] eqn:Hes; [| discriminate].
  destruct (translate es []) as [translated |] eqn:Ht; [| discriminate].
  cbn [fst snd]. intros [= <-]. cbv zeta.
  pose proof (translate_assoc es [] translated Ht) as Hassoc.
  repeat split.
  - intros name host Hhost. simpl in Hhost. rewrite Hassoc in Hhost.
    destruct (assoc name (rev es)) as [v |]; [| discriminate].
    now apply (translateHost_scheme v).
  - intros es' name [= <-] Hbound. simpl. apply assoc_inList.
    rewrite Hassoc. apply assoc_rev_Some in Hbound. destruct Hbound as [v Hv]. rewrite Hv.
    destruct (translateHost v) as [h |] eqn:Hh; [eauto |].
    exfalso. clear Hassoc.
    assert (Hin : In v (map snd es)).
    { clear -Hv. apply in_rev. rewrite <- map_rev.
      induction (rev es) as [| [k' x] l IH]; simpl in *; [discriminate |].
      destruct (String.eqb name k'); [injection Hv as ->; now left | right; now apply IH]. }
    clear Hv Hes. revert Ht Hin. generalize (@nil (string * JsVal)) as acc.
    induction es as [| [k0 v0] es IH]; intros acc Ht Hin; simpl in *; [contradiction |].
    destruct (translateHost v0) as [h0 |] eqn:Hh0; [| discriminate].
    destruct Hin as [-> | Hin]; [congruence | now apply (IH _ Ht)].
  - rewrite setCachedValue_long, storage_set_storage by lia.
    unfold cabinet_set. now rewrite lookup_insert_eq.
  - apply getCachedValue_after_set. lia.
Qed.

(** X16: [getServiceEndpoints] answers from the cache when the account's
    entry is live and truthy: nothing is sent and the promise it returns is
    already fulfilled with the cached value.  When the entry is missing or
    has expired, the discovery request goes out. *)
Theorem getServiceEndpoints_cache (accountId : string) (serviceList : ServiceListRef)
    (w : World) :
  let key := endpointsCacheKey accountId in
  let after := getServiceEndpoints_call GlobalAPI resolveURL accountId serviceList w in
  (forall e, storage (self w) !! key = Some e -> clock w <= entry_expires e ->
             truthy (entry_value e) = true ->
             trace (fst after) = trace w
             /\ inflight (fst after) = inflight w
             /\ settled (snd after) (fst after) = Some (Fulfilled (entry_value e)))
  /\ ((storage (self w) !! key = None
       \/ exists e, storage (self w) !! key = Some e /\ entry_expires e < clock w) ->
      trace (fst after)
      = trace w ++ [Sent 0 (endpointsRequest GlobalAPI resolveURL accountId
                                              (derefList serviceList w))]
      /\ settled (snd after) (fst after) = None).
Proof.
  cbv zeta. split.
  - intros e He Hlive Htruthy.
    unfold getServiceEndpoints_call, getCachedValue, cabinet_get. cbv zeta. rewrite He.
    destruct (Z.ltb_spec (entry_expires e) (clock w)) as [Hlt | _]; [lia |].
    cbn [fst snd truthy_opt]. rewrite Htruthy. cbn.
    unfold settled. cbn. now rewrite lookup_insert_eq.
  - intros Hgone.
    assert (Hmiss : truthy_opt
                      (snd (getCachedValue (endpointsCacheKey accountId) w)) = false).
    { unfold getCachedValue, cabinet_get. cbv zeta.
      destruct Hgone as [-> | (e & -> & Hexp)]; [reflexivity |].
      destruct (Z.ltb_spec (entry_expires e) (clock w)); [reflexivity | lia]. }
    rewrite getServiceEndpoints_call_miss by exact Hmiss.
    split; [reflexivity |]. unfold settled. cbn. now rewrite lookup_insert_eq.
Qed.


End DiscoveryMore.

Lemma discoveryCall_collection :
  snd (getServiceEndpoints_then Example.InsightAPI Example.resolveURL discoveryCall
         (Fulfilled discoveryResponse) Example.world0)
  = Fulfilled (JObj [("aims", JStr "https://api.example");
                     ("iris", JStr "http://iris.example")]).
Proof. vm_compute. reflexivity. Qed.

Lemma discovery_success_collection_witness :
  snd (getServiceEndpoints_then Example.InsightAPI Example.resolveURL discoveryCall
         (Fulfilled discoveryResponse) Example.world0)
  = Fulfilled (JObj [("aims", JStr "https://api.example");
                     ("iris", JStr "http://iris.example")])
  /\ snd (getCachedValue (endpointsCacheKey (call_account discoveryCall))
            (fst (getServiceEndpoints_then Example.InsightAPI Example.resolveURL discoveryCall
                    (Fulfilled discoveryResponse) Example.world0)))
     = Some (JObj [("aims", JStr "https://api.example");
                   ("iris", JStr "http://iris.example")]).
Proof.
  split; [exact discoveryCall_collection |].
  exact (proj2 (proj2 (proj2
           (discovery_success_collection Example.InsightAPI Example.resolveURL
              discoveryCall discoveryResponse Example.world0 _ discoveryCall_collection)))).
Defined.

Lemma append_inj_r (prefix a b : string) : prefix +:+ a = prefix +:+ b -> a = b.
Proof.
  induction prefix as [| c prefix IH]; simpl; [trivial |].
  intros H. apply IH. now injection H.
Qed.

Lemma endpointsCacheKey_inj a b : endpointsCacheKey a = endpointsCacheKey b -> a = b.
Proof. unfold endpointsCacheKey. apply append_inj_r. Qed.

Lemma getCachedValue_other key key' w :
  key' <> key ->
  storage (self (fst (getCachedValue key w))) !! key' = storage (self w) !! key'.
Proof.
  intros Hne. unfold getCachedValue, cabinet_get. cbv zeta.
  destruct (storage (self w) !! key) as [e |]; [| reflexivity].
  destruct (entry_expires e <? clock w); [| reflexivity].
  cbn. now rewrite lookup_delete_ne by congruence.
Qed.

Lemma setCachedValue_other key key' v ttl w :
  key' <> key ->
  storage (self (setCachedValue key v ttl w)) !! key' = storage (self w) !! key'.
Proof.
  intros Hne. unfold setCachedValue. destruct (ttl <? 1000); [reflexivity |].
  cbn. unfold cabinet_set. now rewrite lookup_insert_ne by congruence.
Qed.

Lemma setCachedValue_resolution key v ttl w :
  endpointResolution (self (setCachedValue key v ttl w)) = endpointResolution (self w).
Proof. unfold setCachedValue. destruct (ttl <? 1000); reflexivity. Qed.

Section Accounts.

Variable InsightAPI GlobalAPI : string.
Variable resolveURL : option string -> option string -> string.

Lemma getServiceEndpoints_call_other accountId serviceList w key' :
  key' <> endpointsCacheKey accountId ->
  let w' := fst (getServiceEndpoints_call GlobalAPI resolveURL accountId serviceList w) in
  storage (self w') !! key' = storage (self w) !! key'
  /\ endpointResolution (self w') = endpointResolution (self w).
Proof.
  intros Hne. cbv zeta.
  pose proof (getCachedValue_other (endpointsCacheKey accountId) key' w Hne) as Hget.
  unfold getServiceEndpoints_call, getCachedValue in *. cbv zeta in *.
  match goal with
  | |- context [truthy_opt ?v] => destruct (truthy_opt v)
  end; (split; [exact Hget | reflexivity]).
Qed.

(** X18: resolutions of different accounts leave each other's stored
    promise and cache entry in place: entering [prepare] for one account,
    continuing it after its [await], and the answer to its discovery
    request do not replace or remove what is stored for another account.
    What a cache entry reads as can still change.  The failure handler
    caches the static default list itself (line 423), so when a first
    resolution for another account pushes a new service onto that list,
    the entry shows the new service too; an entry that is any other value
    reads as before. *)
Theorem prepare_other_accounts requestParams w a :
  a <> accountOf requestParams w ->
  let inPlace (w' : World) :=
    endpointResolution (self w') !! a = endpointResolution (self w) !! a
    /\ storage (self w') !! endpointsCacheKey a = storage (self w) !! endpointsCacheKey a in
  let entered := fst (prepare_enter GlobalAPI resolveURL requestParams w) in
  inPlace entered
  /\ (forall collection,
        let resumed := fst (prepare_resume GlobalAPI resolveURL (accountOf requestParams w)
                              requestParams collection w) in
        inPlace resumed /\ forall v, view resumed v = view w v)
  /\ (forall c o elapsed, call_account c = accountOf requestParams w ->
        let answered := answer InsightAPI resolveURL c o elapsed w in
        inPlace answered /\ forall v, view answered v = view w v)
  /\ (forall e, storage (self w) !! endpointsCacheKey a = Some e ->
        (entry_value e <> JStatic -> view entered (entry_value e) = view w (entry_value e))
        /\ (entry_value e = JStatic ->
            endpointResolution (self w) !! accountOf requestParams w = None ->
            inList (serviceOf requestParams) (defaultServiceList w) = false ->
            view entered (entry_value e)
            = JArr (map JStr (defaultServiceList w ++ [serviceOf requestParams])))).
Proof.
  intros Hne. cbv zeta.
  assert (Hkey : endpointsCacheKey a <> endpointsCacheKey (accountOf requestParams w))
    by (intros H; apply Hne; now apply endpointsCacheKey_inj).
  assert (Hview : forall w1 w2 v, defaultServiceList w1 = defaultServiceList w2 ->
                                  view w1 v = view w2 v)
    by (intros w1 w2 v Hsame; destruct v; simpl; now rewrite ?Hsame).
  split; [| split; [| split]].
  - unfold prepare_enter.
    destruct (endpointResolution (self w) !! accountOf requestParams w); [now split |].
    match goal with
    | |- context [getServiceEndpoints_call _ _ ?acc ?l ?w1] =>
        destruct (getServiceEndpoints_call_other acc l w1 _ Hkey) as [Hs Hr];
        destruct (getServiceEndpoints_call GlobalAPI resolveURL acc l w1) as [w2 p]
    end.
    cbn in *. rewrite lookup_insert_ne by congruence. rewrite Hr, Hs.
    destruct (inList _ _); now split.
  - intros collection. split; [| intros v; apply Hview, prepare_resume_static].
    unfold prepare_resume.
    destruct (hasOwnProperty _ (serviceOf requestParams)); [now split |].
    match goal with
    | |- context [getServiceEndpoints_call _ _ ?acc ?l ?w1] =>
        destruct (getServiceEndpoints_call_other acc l w1 _ Hkey) as [Hs Hr];
        destruct (getServiceEndpoints_call GlobalAPI resolveURL acc l w1) as [w2 p]
    end.
    cbn in *. rewrite lookup_insert_ne by congruence. rewrite Hr, Hs.
    unfold cabinet_delete. rewrite lookup_delete_ne by congruence. now split.
  - intros c o elapsed Hc. split; [| intros v; apply Hview, answer_static].
    unfold answer, getServiceEndpoints_then. rewrite Hc.
    destruct (ax o) as [response | error].
    + destruct (entries (response_data response)) as [es |]; [| now split].
      destruct (translate es []); [| now split].
      cbn. rewrite setCachedValue_resolution, setCachedValue_other by exact Hkey. now split.
    + cbn. rewrite setCachedValue_resolution, setCachedValue_other by exact Hkey. now split.
  - intros e _. split.
    + intros Hplain. destruct (entry_value e); try reflexivity. contradiction.
    + intros -> Hnone Hnew. unfold prepare_enter. rewrite Hnone, Hnew.
      match goal with
      | |- context [getServiceEndpoints_call _ _ ?acc ?l ?w1] =>
          pose proof (getServiceEndpoints_call_static GlobalAPI resolveURL acc l w1) as Hcall;
          destruct (getServiceEndpoints_call GlobalAPI resolveURL acc l w1) as [w2 p]
      end.
      cbn in *. now rewrite Hcall.
Qed.

Lemma pick_app_pending ws x w :
  pick ws w = None -> settled (waiter_promise x) w = None -> pick (ws ++ [x]) w = None.
Proof.
  intros Hws Hx. induction ws as [| y ws IH]; simpl in *.
  - now rewrite Hx.
  - destruct (settled (waiter_promise y) w); [discriminate |].
    destruct (pick ws w) as [[[z s] rest] |]; [discriminate |].
    now rewrite IH.
Qed.

(** X19: a call of [prepare] for an account whose resolution is stored and
    still pending joins it.  With no other continuation due, the call does
    nothing but wait on the stored promise: the world is as before, so no
    request is sent and no resolution replaced. *)
Theorem step_joins_pending (l : Loop) (requestParams : APIRequestParams) (p : nat) :
  endpointResolution (self (world l)) !! accountOf requestParams (world l) = Some p ->
  promises (world l) !! p = Some Pending ->
  pick (waiting l) (world l) = None ->
  step InsightAPI GlobalAPI resolveURL l (CallPrepare requestParams)
  = {| world := world l;
       waiting := waiting l
                  ++ [{| waiter_call := calls l; waiter_promise := p;
                         waiter_then := AfterAwait (accountOf requestParams (world l))
                                                   requestParams |}];
       returned := returned l;
       calls := S (calls l) |}.
Proof.
  intros Hstored Hpending Hquiet. unfold step.
  rewrite (prepare_enter_joins GlobalAPI resolveURL requestParams (world l) p Hstored).
  unfold continue. cbn [drain waiting world].
  rewrite pick_app_pending; [reflexivity | exact Hquiet |].
  unfold settled. cbn. now rewrite Hpending.
Qed.

End Accounts.

Lemma other_account_differs :
  "7" <> accountOf (Example.service "C" "9") failedWorld.
Proof. discriminate. Qed.

Lemma failedWorld_entry :
  storage (self failedWorld) !! endpointsCacheKey "7"
  = Some {| entry_value := JStatic; entry_expires := 300040 |}.
Proof. vm_compute. reflexivity. Qed.

Lemma failedWorld_unresolved :
  endpointResolution (self failedWorld) !! accountOf (Example.service "C" "9") failedWorld
  = None.
Proof. vm_compute. reflexivity. Qed.

Lemma failedWorld_new :
  inList (serviceOf (Example.service "C" "9")) (defaultServiceList failedWorld) = false.
Proof. vm_compute. reflexivity. Qed.

Lemma failedWorld_list :
  defaultServiceList failedWorld = defaultServiceList Example.world0 ++ ["A"].
Proof. vm_compute. reflexivity. Qed.

Lemma prepare_other_accounts_witness :
  storage (self failedWorld) !! endpointsCacheKey "7"
  = Some {| entry_value := JStatic; entry_expires := 300040 |}
  /\ view (fst (prepare_enter Example.GlobalAPI Example.resolveURL
                  (Example.service "C" "9") failedWorld)) JStatic
     = JArr (map JStr ((defaultServiceList Example.world0 ++ ["A"]) ++ ["C"])).
Proof.
  split; [exact failedWorld_entry |].
  rewrite <- failedWorld_list.
  exact (proj2 (proj2 (proj2 (proj2
           (prepare_other_accounts Example.InsightAPI Example.GlobalAPI
              Example.resolveURL (Example.service "C" "9") failedWorld "7"
              other_account_differs))) _ failedWorld_entry)
           eq_refl failedWorld_unresolved failedWorld_new).
Defined.

Lemma pendingLoop_stored :
  endpointResolution (self (world pendingLoop))
    !! accountOf (Example.service "B" "7") (world pendingLoop) = Some 0%nat.
Proof. vm_compute. reflexivity. Qed.

Lemma pendingLoop_pending : promises (world pendingLoop) !! 0%nat = Some Pending.
Proof. vm_compute. reflexivity. Qed.

Lemma pendingLoop_quiet : pick (waiting pendingLoop) (world pendingLoop) = None.
Proof. vm_compute. reflexivity. Qed.

Lemma step_joins_pending_witness :
  world (step Example.InsightAPI Example.GlobalAPI Example.resolveURL pendingLoop
           (CallPrepare (Example.service "B" "7")))
  = world pendingLoop.
Proof.
  exact (f_equal world
           (step_joins_pending Example.InsightAPI Example.GlobalAPI Example.resolveURL
              pendingLoop (Example.service "B" "7") 0%nat
              pendingLoop_stored pendingLoop_pending pendingLoop_quiet)).
Defined.

(** ** The first resolution of an account, run to completion *)

Section FirstResolution.

Variable InsightAPI GlobalAPI : string.
Variable resolveURL : option string -> option string -> string.
Variable transport : nat -> Request -> Outcome * Z.

Lemma In_firstServiceList requestParams w :
  In (serviceOf requestParams) (firstServiceList requestParams w).
Proof.
  unfold firstServiceList.
  destruct (inList (serviceOf requestParams) (defaultServiceList w)) eqn:Hin.
  - now apply inList_In.
  - apply in_or_app. right. now left.
Qed.

Lemma prepare_enter_first requestParams w :
  inflight w = [] ->
  endpointResolution (self w) !! accountOf requestParams w = None ->
  truthy_opt (snd (getCachedValue (endpointsCacheKey (accountOf requestParams w)) w)) = false ->
  let entered := fst (prepare_enter GlobalAPI resolveURL requestParams w) in
  prepare_enter GlobalAPI resolveURL requestParams w = (entered, fresh (dom (promises w)))
  /\ inflight entered = [firstCall GlobalAPI resolveURL requestParams w]
  /\ defaultServiceList entered = firstServiceList requestParams w
  /\ trace entered = trace w ++ [Sent 0 (call_request (firstCall GlobalAPI resolveURL requestParams w))]
  /\ defaultAccountId (self entered) = defaultAccountId (self w)
  /\ endpointResolution (self entered) !! accountOf requestParams w
     = Some (fresh (dom (promises w))).
Proof.
  intros Hidle Hnone Hmiss. cbv zeta. unfold prepare_enter, firstCall, firstServiceList.
  rewrite Hnone.
  destruct (inList (serviceOf requestParams) (defaultServiceList w)).
  - rewrite getServiceEndpoints_call_miss by exact Hmiss.
    cbn. rewrite Hidle, lookup_insert_eq. repeat split.
  - rewrite getServiceEndpoints_call_miss by exact Hmiss.
    cbn. rewrite Hidle, lookup_insert_eq. repeat split.
Qed.

Lemma prepare_first requestParams w :
  inflight w = [] ->
  endpointResolution (self w) !! accountOf requestParams w = None ->
  truthy_opt (snd (getCachedValue (endpointsCacheKey (accountOf requestParams w)) w)) = false ->
  prepare InsightAPI GlobalAPI resolveURL transport requestParams w
  = match snd (firstAnswered InsightAPI GlobalAPI resolveURL transport requestParams w) with
    | Rejected e => Some (firstSettled InsightAPI GlobalAPI resolveURL transport requestParams w, Rejected e)
    | Fulfilled collection =>
        let '(w3, next) := prepare_resume GlobalAPI resolveURL (accountOf requestParams w)
                             requestParams collection (firstSettled InsightAPI GlobalAPI resolveURL transport requestParams w) in
        match next with
        | Return c => Some (w3, Fulfilled c)
        | ReturnPromise q =>
            s' ← settled q (settle InsightAPI resolveURL transport w3);
            Some (settle InsightAPI resolveURL transport w3, s')
        end
    end.
Proof.
  intros Hidle Hnone Hmiss.
  destruct (prepare_enter_first requestParams w Hidle Hnone Hmiss)
    as (Henter & Hinflight & _).
  unfold prepare. rewrite Henter.
  assert (Hsettle : settle InsightAPI resolveURL transport
                      (fst (prepare_enter GlobalAPI resolveURL requestParams w))
                    = firstSettled InsightAPI GlobalAPI resolveURL transport requestParams w).
  { unfold settle. rewrite Hinflight. cbn [fold_left].
    unfold firstSettled, firstAnswered, answer. cbv zeta.
    destruct (transport (call_index (firstCall GlobalAPI resolveURL requestParams w))
                        (call_request (firstCall GlobalAPI resolveURL requestParams w))) as [o elapsed].
    cbn [fst snd].
    destruct (getServiceEndpoints_then _ _ _ _ _) as [w2 s]. reflexivity. }
  rewrite Hsettle.
  assert (Hsettled : settled (fresh (dom (promises w))) (firstSettled InsightAPI GlobalAPI resolveURL transport requestParams w)
                     = Some (snd (firstAnswered InsightAPI GlobalAPI resolveURL transport requestParams w))).
  { unfold settled, firstSettled. cbn. now rewrite lookup_insert_eq. }
  rewrite Hsettled. cbn [mbind option_bind].
  destruct (snd (firstAnswered InsightAPI GlobalAPI resolveURL transport requestParams w)) as [collection | e]; [| reflexivity].
  destruct (prepare_resume _ _ _ _ _ _) as [w3 [c | q]]; reflexivity.
Qed.

Lemma setCachedValue_trace key v ttl w : trace (setCachedValue key v ttl w) = trace w.
Proof. unfold setCachedValue. now destruct (ttl <? 1000). Qed.

Lemma firstSettled_trace requestParams w :
  inflight w = [] ->
  endpointResolution (self w) !! accountOf requestParams w = None ->
  truthy_opt (snd (getCachedValue (endpointsCacheKey (accountOf requestParams w)) w)) = false ->
  trace (firstSettled InsightAPI GlobalAPI resolveURL transport requestParams w)
  = trace w ++ [Sent 0 (call_request (firstCall GlobalAPI resolveURL requestParams w))].
Proof.
  intros Hidle Hnone Hmiss.
  destruct (prepare_enter_first requestParams w Hidle Hnone Hmiss)
    as (_ & _ & _ & Htrace & _).
  rewrite <- Htrace. unfold firstSettled, firstAnswered, getServiceEndpoints_then.
  cbv zeta. cbn [trace set_promises].
  destruct (ax _) as [response | e]; [| cbn [fst]; now rewrite setCachedValue_trace].
  destruct (entries (response_data response)) as [es |]; [| reflexivity].
  destruct (translate es []) as [translated |]; [| reflexivity].
  cbn [fst]. now rewrite setCachedValue_trace.
Qed.

Lemma usesEndpoints_service params :
  usesEndpoints InsightAPI params = true -> service_name params = Some (serviceOf params).
Proof.
  unfold usesEndpoints, serviceOf, nonEmpty.
  destruct (service_name params) as [n |]; [reflexivity | discriminate].
Qed.

(** X20: when the first discovery request of an account fails (the
    service is unreachable, or it answers outside 200..399), the request
    being prepared is still given a URL: the one on the default host, with
    the usual path segments.  One request has been sent, the discovery
    request, and it is not repeated. *)
Theorem discovery_failure_routes_to_default (params : APIRequestParams) (w : World)
    (e : Reason) :
  usesEndpoints InsightAPI params = true ->
  inflight w = [] ->
  endpointResolution (self w) !! accountOf params w = None ->
  truthy_opt (snd (getCachedValue (endpointsCacheKey (accountOf params w)) w)) = false ->
  ax (fst (transport (sentCount w) (call_request (firstCall GlobalAPI resolveURL params w)))) = Rejected e ->
  exists w',
    calculateRequestURL InsightAPI GlobalAPI resolveURL transport params w
    = Some (w', Fulfilled (requestPath params (resolveURL (Some InsightAPI) None)))
    /\ trace w' = trace w ++ [Sent 0 (call_request (firstCall GlobalAPI resolveURL params w))].
Proof.
  intros Huses Hidle Hnone Hmiss Hfail.
  exists (firstSettled InsightAPI GlobalAPI resolveURL transport params w). split; [| now apply firstSettled_trace].
  destruct (prepare_enter_first params w Hidle Hnone Hmiss) as (_ & _ & Hlist & _).
  unfold calculateRequestURL. rewrite Huses, prepare_first by assumption.
  assert (Hanswered : snd (firstAnswered InsightAPI GlobalAPI resolveURL transport params w)
                      = Fulfilled (JObj (fallbackLocations InsightAPI resolveURL
                                           (firstServiceList params w)))).
  { unfold firstAnswered. cbv zeta. cbn [call_index firstCall] in *. rewrite Hfail.
    unfold getServiceEndpoints_then. cbn [snd call_list firstCall derefList].
    unfold derefList. cbn [defaultServiceList set_clock set_inflight]. now rewrite Hlist. }
  rewrite Hanswered.
  pose proof (fallbackLocations_lookup InsightAPI resolveURL _ _
                (In_firstServiceList params w)) as Hlookup.
  unfold prepare_resume.
  replace (hasOwnProperty _ (serviceOf params)) with true.
  - cbn [mbind option_bind view]. now rewrite Hlookup.
  - symmetry. cbn [view]. unfold hasOwnProperty. apply assoc_inList.
    unfold getProperty in Hlookup. rewrite Hlookup. eauto.
Qed.

Lemma translate_strings es : forall acc,
  Forall (fun e => exists h, snd e = JStr h) es -> is_Some (translate es acc).
Proof.
  induction es as [| [k v] es IH]; intros acc Hes; simpl; [eauto |].
  inversion Hes as [| ? ? [h Hh] Hrest]; subst. simpl in Hh. subst v. simpl.
  now apply IH.
Qed.

(** X21: when the first discovery request of an account succeeds with a
    map of host names, the request being prepared goes to the host the
    response gives for its service, with a scheme put in front where the
    response has none, followed by the usual path segments.  One request
    has been sent, the discovery request. *)
Theorem discovery_success_routes (params : APIRequestParams) (w : World)
    (response : AxiosResponse) (es : list (string * JsVal)) (host : string) :
  usesEndpoints InsightAPI params = true ->
  inflight w = [] ->
  endpointResolution (self w) !! accountOf params w = None ->
  truthy_opt (snd (getCachedValue (endpointsCacheKey (accountOf params w)) w)) = false ->
  ax (fst (transport (sentCount w) (call_request (firstCall GlobalAPI resolveURL params w)))) = Fulfilled response ->
  entries (response_data response) = Some es ->
  Forall (fun e => exists h, snd e = JStr h) es ->
  assoc (serviceOf params) (rev es) = Some (JStr host) ->
  exists w',
    calculateRequestURL InsightAPI GlobalAPI resolveURL transport params w
    = Some (w', Fulfilled (requestPath params
                             (if startsWith "http" host then host else "https://" +:+ host)))
    /\ trace w' = trace w ++ [Sent 0 (call_request (firstCall GlobalAPI resolveURL params w))]
    /\ is_Some (snd (getCachedValue (endpointsCacheKey (accountOf params w)) w')).
Proof.
  intros Huses Hidle Hnone Hmiss Hok Hes Hstrings Hhost.
  exists (firstSettled InsightAPI GlobalAPI resolveURL transport params w).
  destruct (translate_strings es [] Hstrings) as [translated Ht].
  pose proof (translate_assoc es [] translated Ht (serviceOf params)) as Hassoc.
  rewrite Hhost in Hassoc. simpl in Hassoc.
  assert (Hanswered : firstAnswered InsightAPI GlobalAPI resolveURL transport params w
                      = (setCachedValue (endpointsCacheKey (accountOf params w))
                           (JObj translated) (15 * 60 * 1000)
                           (set_clock (clock (fst (prepare_enter GlobalAPI resolveURL params w))
                                       + Z.max 0 (snd (transport (sentCount w)
                                                         (call_request (firstCall GlobalAPI resolveURL params w)))))
                              (set_inflight [] (fst (prepare_enter GlobalAPI resolveURL
                                                       params w)))),
                         Fulfilled (JObj translated))).
  { unfold firstAnswered. cbv zeta. cbn [call_index firstCall] in *. rewrite Hok.
    unfold getServiceEndpoints_then. now rewrite Hes, Ht. }
  split; [| split; [now apply firstSettled_trace |]].
  - unfold calculateRequestURL. rewrite Huses, prepare_first by assumption.
    rewrite Hanswered. cbn [snd]. unfold prepare_resume.
    replace (hasOwnProperty _ (serviceOf params)) with true.
    + cbn [mbind option_bind view]. unfold getProperty. now rewrite Hassoc.
    + symmetry. cbn [view]. unfold hasOwnProperty. apply assoc_inList. rewrite Hassoc. eauto.
  - unfold firstSettled. rewrite Hanswered. cbn [fst snd].
    match goal with
    | |- is_Some (snd (getCachedValue ?k (set_promises ?m ?x))) =>
        change (snd (getCachedValue k (set_promises m x))) with (snd (getCachedValue k x))
    end.
    rewrite getCachedValue_after_set by lia. eauto.
Qed.

Lemma settle_idle w : inflight w = [] -> settle InsightAPI resolveURL transport w = w.
Proof.
  intros Hidle. unfold settle. rewrite Hidle. destruct w. simpl in *. now subst.
Qed.

End FirstResolution.

Lemma things_uses_endpoints :
  usesEndpoints Example.InsightAPI (Example.service "things" "7") = true.
Proof. reflexivity. Qed.

Lemma world0_unresolved :
  endpointResolution (self Example.world0)
    !! accountOf (Example.service "things" "7") Example.world0 = None.
Proof. vm_compute. reflexivity. Qed.

Lemma world0_not_cached :
  truthy_opt (snd (getCachedValue
                     (endpointsCacheKey (accountOf (Example.service "things" "7")
                                                   Example.world0))
                     Example.world0)) = false.
Proof. vm_compute. reflexivity. Qed.

Lemma unreachable_fails :
  ax (fst (Example.unreachable (sentCount Example.world0)
             (call_request (firstCall Example.GlobalAPI Example.resolveURL
                              (Example.service "things" "7") Example.world0))))
  = Rejected NetworkError.
Proof. reflexivity. Qed.

Lemma discovery_failure_routes_to_default_witness :
  exists w',
    calculateRequestURL Example.InsightAPI Example.GlobalAPI Example.resolveURL
      Example.unreachable (Example.service "things" "7") Example.world0
    = Some (w', Fulfilled (requestPath (Example.service "things" "7")
                             (Example.resolveURL (Some Example.InsightAPI) None))).
Proof.
  destruct (discovery_failure_routes_to_default Example.InsightAPI Example.GlobalAPI
              Example.resolveURL Example.unreachable (Example.service "things" "7")
              Example.world0 NetworkError things_uses_endpoints eq_refl
              world0_unresolved world0_not_cached unreachable_fails)
    as (w' & Hurl & _).
  exists w'. exact Hurl.
Defined.

Lemma backend_answers :
  ax (fst (Example.backend (sentCount Example.world0)
             (call_request (firstCall Example.GlobalAPI Example.resolveURL
                              (Example.service "things" "7") Example.world0))))
  = Fulfilled {| status := 200; response_data := JObj backendHosts |}.
Proof. vm_compute. reflexivity. Qed.

Lemma backendHosts_strings : Forall (fun e => exists h, snd e = JStr h) backendHosts.
Proof. unfold backendHosts. apply Forall_map, Forall_forall. intros name _. now eexists. Qed.

Lemma backendHosts_things :
  assoc (serviceOf (Example.service "things" "7")) (rev backendHosts)
  = Some (JStr "api.example").
Proof. vm_compute. reflexivity. Qed.

Lemma discovery_success_routes_witness :
  exists w',
    calculateRequestURL Example.InsightAPI Example.GlobalAPI Example.resolveURL
      Example.backend (Example.service "things" "7") Example.world0
    = Some (w', Fulfilled (requestPath (Example.service "things" "7")
                             (if startsWith "http" "api.example" then "api.example"
                              else "https://" +:+ "api.example"))).
Proof.
  destruct (discovery_success_routes Example.InsightAPI Example.GlobalAPI
              Example.resolveURL Example.backend (Example.service "things" "7")
              Example.world0 _ backendHosts "api.example" things_uses_endpoints eq_refl
              world0_unresolved world0_not_cached backend_answers eq_refl
              backendHosts_strings backendHosts_things)
    as (w' & Hurl & _).
  exists w'. exact Hurl.
Defined.

Section Poisoned.

Variable InsightAPI GlobalAPI : string.
Variable resolveURL : option string -> option string -> string.
Variable transport : nat -> Request -> Outcome * Z.

(** X22: when the first discovery request of an account is answered with
    something that is not a map of host names (no body, or a host that is
    not a string), the success handler raises: [prepare] rejects, and the
    rejected promise stays stored for the account.  Every later [prepare]
    for that account rejects the same way without sending anything,
    whatever the service would answer by then. *)
Theorem malformed_discovery_is_remembered (params : APIRequestParams) (w : World)
    (response : AxiosResponse) :
  inflight w = [] ->
  endpointResolution (self w) !! accountOf params w = None ->
  truthy_opt (snd (getCachedValue (endpointsCacheKey (accountOf params w)) w)) = false ->
  ax (fst (transport (sentCount w)
             (call_request (firstCall GlobalAPI resolveURL params w)))) = Fulfilled response ->
  (forall es, entries (response_data response) = Some es -> translate es [] = None) ->
  exists w',
    prepare InsightAPI GlobalAPI resolveURL transport params w = Some (w', Rejected TypeError)
    /\ trace w' = trace w ++ [Sent 0 (call_request (firstCall GlobalAPI resolveURL params w))]
    /\ forall later params',
         accountOf params' w = accountOf params w ->
         prepare InsightAPI GlobalAPI resolveURL later params' w'
         = Some (w', Rejected TypeError).
Proof.
  intros Hidle Hnone Hmiss Hok Hbad.
  exists (firstSettled InsightAPI GlobalAPI resolveURL transport params w).
  destruct (prepare_enter_first GlobalAPI resolveURL params w Hidle Hnone Hmiss)
    as (_ & _ & _ & _ & Haccount & Hstored).
  assert (Hanswered : firstAnswered InsightAPI GlobalAPI resolveURL transport params w
                      = (set_clock (clock (fst (prepare_enter GlobalAPI resolveURL params w))
                                    + Z.max 0 (snd (transport (sentCount w)
                                        (call_request (firstCall GlobalAPI resolveURL
                                                         params w)))))
                           (set_inflight [] (fst (prepare_enter GlobalAPI resolveURL
                                                    params w))),
                         Rejected TypeError)).
  { unfold firstAnswered. cbv zeta. cbn [call_index firstCall] in *. rewrite Hok.
    unfold getServiceEndpoints_then.
    destruct (entries (response_data response)) as [es |] eqn:Hes; [| reflexivity].
    now rewrite (Hbad es eq_refl). }
  split; [| split; [now apply firstSettled_trace |]].
  - rewrite prepare_first by assumption. now rewrite Hanswered.
  - intros later params' Hsame.
    unfold firstSettled. rewrite Hanswered. cbn [fst snd].
    remember (fst (prepare_enter GlobalAPI resolveURL params w)) as entered eqn:Hentered in *.
    unfold prepare, prepare_enter.
    match goal with
    | |- context [endpointResolution (self ?x) !! accountOf params' ?x] =>
        replace (endpointResolution (self x) !! accountOf params' x)
          with (Some (fresh (dom (promises w))))
    end.
    + rewrite settle_idle by reflexivity.
      unfold settled. cbn [promises set_promises]. rewrite lookup_insert_eq.
      reflexivity.
    + rewrite <- Hstored, <- Hsame. unfold accountOf. cbn. now rewrite Haccount.
Qed.

End Poisoned.

Lemma empty_body_answers :
  ax (fst (Example.always 200 (sentCount Example.world0)
             (call_request (firstCall Example.GlobalAPI Example.resolveURL
                              (Example.service "things" "7") Example.world0))))
  = Fulfilled {| status := 200; response_data := JNull |}.
Proof. reflexivity. Qed.

Lemma empty_body_has_no_entries :
  forall es, entries (response_data {| status := 200; response_data := JNull |}) = Some es ->
             translate es [] = None.
Proof. discriminate. Qed.

Lemma malformed_discovery_is_remembered_witness :
  exists w',
    prepare Example.InsightAPI Example.GlobalAPI Example.resolveURL (Example.always 200)
      (Example.service "things" "7") Example.world0
    = Some (w', Rejected TypeError)
    /\ prepare Example.InsightAPI Example.GlobalAPI Example.resolveURL Example.backend
         (Example.service "others" "7") w'
       = Some (w', Rejected TypeError).
Proof.
  destruct (malformed_discovery_is_remembered Example.InsightAPI Example.GlobalAPI
              Example.resolveURL (Example.always 200) (Example.service "things" "7")
              Example.world0 _ eq_refl world0_unresolved world0_not_cached
              empty_body_answers empty_body_has_no_entries)
    as (w' & Hfirst & _ & Hlater).
  exists w'. split; [exact Hfirst |].
  exact (Hlater Example.backend (Example.service "others" "7") eq_refl).
Defined.

(** ** Authentication *)

Lemma append_assoc (a b c : string) : (a +:+ b) +:+ c = a +:+ (b +:+ c).
Proof.
  induction a as [| x a IH]; [reflexivity |].
  change (String x ((a +:+ b) +:+ c) = String x (a +:+ (b +:+ c))). now rewrite IH.
Qed.

Section AuthenticationRequests.

Variable InsightAPI GlobalAPI : string.
Variable resolveURL : option string -> option string -> string.
Variable transport : nat -> Request -> Outcome * Z.
Variable random : nat -> Z -> Z.

(** What posting the authentication descriptor comes to, with the global
    parameters at their defaults. *)
Lemma aimsAuthenticate_post (headersOf : list (string * JsVal)) (payload : JsVal) (w : World) :
  GlobalAPI <> InsightAPI ->
  globalServiceParams (self w) = defaultServiceParams InsightAPI ->
  let request := {| req_method := Some "POST";
                    req_url := Some (resolveURL (Some GlobalAPI) None
                                     +:+ "/aims/v1/authenticate");
                    req_headers := Some headersOf;
                    req_params := None;
                    req_data := Some payload |} in
  let started := new_dict headersOf w in
  let config := new_obj (aimsAuthenticate GlobalAPI (snd started) payload) (fst started) in
  exists w',
    post InsightAPI GlobalAPI resolveURL transport random (snd config) (fst config)
    = Some (w', match ax (fst (transport (sentCount w) request)) with
                | Fulfilled response => Fulfilled (response_data response)
                | Rejected e => Rejected e
                end)
    /\ trace w' = trace w ++ [Sent 0 request]
    /\ endpointResolution (self w') = endpointResolution (self w).
Proof.
  intros Hother Hglobals. cbv zeta.
  unfold new_dict, new_obj. cbv zeta. cbn [fst snd].
  set (h := fresh (dom (dicts (heap w)))).
  set (w1 := store_dict h headersOf w).
  set (c := fresh (dom (objs (heap w1)))).
  unfold post, write. rewrite obj_store_obj.
  unfold normalizeRequest. rewrite !obj_store_obj.
  cbn [hasIdentity set_method aimsAuthenticate service_name service_stack].
  unfold new_obj. cbv zeta.
  rewrite !obj_store_obj.
  set (w0 := store_obj c _ (store_obj c _ w1)).
  replace (globalServiceParams (self w0)) with (defaultServiceParams InsightAPI)
    by (symmetry; exact Hglobals).
  set (n := fresh (dom (objs (heap w0)))).
  set (merged := objectAssign _ _).
  assert (Hstatic : usesEndpoints InsightAPI merged = false).
  { unfold usesEndpoints. cbn.
    destruct (String.eqb_spec GlobalAPI InsightAPI); [contradiction | reflexivity]. }
  unfold calculateRequestURL. rewrite Hstatic. cbn [mbind option_bind].
  rewrite obj_store_obj.
  assert (Hpath : requestPath merged (resolveURL (service_stack merged) None)
                  = resolveURL (Some GlobalAPI) None +:+ "/aims/v1/authenticate").
  { unfold requestPath. cbn. rewrite !append_assoc. reflexivity. }
  rewrite Hpath.
  set (u := resolveURL (Some GlobalAPI) None +:+ "/aims/v1/authenticate").
  set (w3 := store_obj n (set_url (Some u) merged) (store_obj n merged w0)).
  rewrite foldShorthands_nothing
    by (unfold w3; rewrite obj_store_obj; reflexivity).
  assert (Hobj : obj w3 n = set_url (Some u) merged) by apply obj_store_obj.
  rewrite Hobj. cbn [url set_url default].
  rewrite (axiosRequest_without_budget transport random)
    by (change (retry_count (obj w3 n) = None); rewrite Hobj; reflexivity).
  cbn [mbind option_bind]. unfold send.
  set (wd := deleteCachedValue _ w3).
  change (obj wd n) with (obj w3 n). rewrite Hobj.
  change (sentCount wd) with (sentCount w).
  assert (Hsnapshot : snapshot wd (set_url (Some u) merged)
                      = {| req_method := Some "POST"; req_url := Some u;
                           req_headers := Some headersOf;
                           req_params := None; req_data := Some payload |}).
  { unfold snapshot.
    cbn [method url headers params data set_url merged objectAssign orElse set_method
         aimsAuthenticate defaultServiceParams dictOf].
    f_equal. f_equal. unfold dict. cbn. now rewrite lookup_insert_eq. }
  rewrite Hsnapshot.
  destruct (transport (sentCount w) _) as [o elapsed]. cbn [fst].
  eexists. split; [destruct (ax o); reflexivity |].
  split; reflexivity.
Qed.

(** X23: with the global parameters at their defaults, [authenticate]
    sends exactly one request, a POST to [/aims/v1/authenticate] on the
    global stack that carries the header [Authorization: Basic] followed by
    the encoded [user:pass] and whose body is empty unless an MFA code is
    given; no endpoint discovery takes place, the request is not retried,
    and the call gives the body of a 200..399 response and rejects
    otherwise. *)
Theorem authenticate_posts_credentials (base64Encode : string -> string)
    (user pass : string) (mfa : option string) (w : World) :
  GlobalAPI <> InsightAPI ->
  globalServiceParams (self w) = defaultServiceParams InsightAPI ->
  let request := {| req_method := Some "POST";
                    req_url := Some (resolveURL (Some GlobalAPI) None
                                     +:+ "/aims/v1/authenticate");
                    req_headers :=
                      Some [("Authorization",
                             JStr ("Basic " +:+ base64Encode (user +:+ ":" +:+ pass)))];
                    req_params := None;
                    req_data := Some (match mfa with
                                      | Some (String _ _ as code) =>
                                          JObj [("mfa_code", JStr code)]
                                      | _ => JObj []
                                      end) |} in
  exists w',
    authenticate InsightAPI GlobalAPI resolveURL transport random base64Encode user pass mfa w
    = Some (w', match ax (fst (transport (sentCount w) request)) with
                | Fulfilled response => Fulfilled (response_data response)
                | Rejected e => Rejected e
                end)
    /\ trace w' = trace w ++ [Sent 0 request]
    /\ endpointResolution (self w') = endpointResolution (self w).
Proof.
  intros Hother Hglobals. cbv zeta.
  replace (match mfa with
           | Some (String _ _ as code) => JObj [("mfa_code", JStr code)]
           | _ => JObj []
           end) with (mfaPayload mfa) by now destruct mfa as [[| ? ?] |].
  apply (aimsAuthenticate_post _ (mfaPayload mfa) w Hother Hglobals).
Qed.

(** X24: with the global parameters at their defaults,
    [authenticateWithMFASessionToken] sends exactly one request, a POST to
    [/aims/v1/authenticate] on the global stack that carries the session
    token in the header [X-AIMS-Session-Token] and the MFA code in the
    body; no endpoint discovery takes place, the request is not retried,
    and the call gives the body of a 200..399 response and rejects
    otherwise. *)
Theorem authenticateWithMFASessionToken_posts_token (token mfa_code : string) (w : World) :
  GlobalAPI <> InsightAPI ->
  globalServiceParams (self w) = defaultServiceParams InsightAPI ->
  let request := {| req_method := Some "POST";
                    req_url := Some (resolveURL (Some GlobalAPI) None
                                     +:+ "/aims/v1/authenticate");
                    req_headers := Some [("X-AIMS-Session-Token", JStr token)];
                    req_params := None;
                    req_data := Some (JObj [("mfa_code", JStr mfa_code)]) |} in
  exists w',
    authenticateWithMFASessionToken InsightAPI GlobalAPI resolveURL transport random
      token mfa_code w
    = Some (w', match ax (fst (transport (sentCount w) request)) with
                | Fulfilled response => Fulfilled (response_data response)
                | Rejected e => Rejected e
                end)
    /\ trace w' = trace w ++ [Sent 0 request]
    /\ endpointResolution (self w') = endpointResolution (self w).
Proof.
  intros Hother Hglobals.
  apply (aimsAuthenticate_post _ (JObj [("mfa_code", JStr mfa_code)]) w Hother Hglobals).
Qed.

End AuthenticationRequests.

Lemma world0_defaults :
  globalServiceParams (self Example.world0) = defaultServiceParams Example.InsightAPI.
Proof. reflexivity. Qed.

Lemma authenticate_posts_credentials_witness :
  exists w',
    trace w'
    = trace Example.world0
      ++ [Sent 0 {| req_method := Some "POST";
                    req_url := Some (Example.resolveURL (Some Example.GlobalAPI) None
                                     +:+ "/aims/v1/authenticate");
                    req_headers :=
                      Some [("Authorization",
                             JStr ("Basic " +:+ exampleEncode ("ada" +:+ ":" +:+ "pw")))];
                    req_params := None;
                    req_data := Some (JObj [("mfa_code", JStr "123456")]) |}].
Proof.
  destruct (authenticate_posts_credentials Example.InsightAPI Example.GlobalAPI
              Example.resolveURL Example.numbered Example.random exampleEncode
              "ada" "pw" (Some "123456") Example.world0
              global_is_not_insight world0_defaults)
    as (w' & _ & Htrace & _).
  exists w'. exact Htrace.
Defined.

Lemma authenticateWithMFASessionToken_posts_token_witness :
  exists w',
    trace w'
    = trace Example.world0
      ++ [Sent 0 {| req_method := Some "POST";
                    req_url := Some (Example.resolveURL (Some Example.GlobalAPI) None
                                     +:+ "/aims/v1/authenticate");
                    req_headers := Some [("X-AIMS-Session-Token", JStr "t0k3n")];
                    req_params := None;
                    req_data := Some (JObj [("mfa_code", JStr "123456")]) |}].
Proof.
  destruct (authenticateWithMFASessionToken_posts_token Example.InsightAPI Example.GlobalAPI
              Example.resolveURL Example.numbered Example.random
              "t0k3n" "123456" Example.world0
              global_is_not_insight world0_defaults)
    as (w' & _ & Htrace & _).
  exists w'. exact Htrace.
Defined.

(** ** The lifetime of a cached value *)

(** X25: a value cached with a lifetime of a second or more is answered
    for the lifetime rounded down to whole seconds, and not after: cached
    for 1999 ms, it is gone after 1001 ms.  It is kept for at least 999 ms
    less than asked for and never longer than asked for. *)
Theorem cached_value_lifetime (key : string) (v : JsVal) (ttl : Z) (w : World) (d : Z) :
  1000 <= ttl -> 0 <= d ->
  let later := set_clock (clock w + d) (setCachedValue key v ttl w) in
  snd (getCachedValue key later) = (if d <=? 1000 * (ttl / 1000) then Some v else None)
  /\ (d <= ttl - 999 -> snd (getCachedValue key later) = Some v)
  /\ (ttl < d -> snd (getCachedValue key later) = None).
Proof.
  intros Httl Hd. cbv zeta.
  assert (Hget : snd (getCachedValue key
                        (set_clock (clock w + d) (setCachedValue key v ttl w)))
                 = if d <=? 1000 * (ttl / 1000) then Some v else None).
  { rewrite setCachedValue_long by exact Httl.
    unfold getCachedValue, cabinet_get, cabinet_set. cbn.
    rewrite lookup_insert_eq. cbn.
    destruct (Z.ltb_spec (clock w + ttl / 1000 * 1000) (clock w + d));
      destruct (Z.leb_spec d (1000 * (ttl / 1000))); try reflexivity; lia. }
  pose proof (Z.mul_div_le ttl 1000 ltac:(lia)) as Hle.
  pose proof (Z.mod_pos_bound ttl 1000 ltac:(lia)) as Hmod.
  pose proof (Z.div_mod ttl 1000 ltac:(lia)) as Hdiv.
  rewrite Hget. repeat split.
  - intros Hearly. destruct (Z.leb_spec d (1000 * (ttl / 1000))); [reflexivity | lia].
  - intros Hlate. destruct (Z.leb_spec d (1000 * (ttl / 1000))); [lia | reflexivity].
Qed.

Lemma cached_value_lifetime_witness :
  snd (getCachedValue "k"
         (set_clock (clock Example.world0 + 1001)
                    (setCachedValue "k" (JStr "v") 1999 Example.world0)))
  = None.
Proof.
  exact (proj1 (cached_value_lifetime "k" (JStr "v") 1999 Example.world0 1001
                  ltac:(lia) ltac:(lia))).
Defined.

(** ** The cache buster of a retry *)

Section CacheBuster.

Variable random : nat -> Z -> Z.

(** X26: before a retry the descriptor's [params] get a [breaker] entry
    (the object is created when the descriptor has none): one of the seven
    verbs, a hash, and the index the retry is counted under, one more than
    the index of the failed attempt.  An earlier [breaker] is replaced, the
    other parameters stay, and two random numbers are drawn. *)
Theorem retry_sets_breaker (config : nat) (attemptIndex : Z) (w : World) :
  0 <= random (draws w) (Z.of_nat (length verbs)) < Z.of_nat (length verbs) ->
  let w' := afterRetryDelay random config attemptIndex w in
  exists l verb hash,
    params (obj w' config) = Some l
    /\ In verb verbs
    /\ assoc "breaker" (dict w' l)
       = Some (JStr (verb +:+ "-" +:+ hash +:+ "-" +:+ toDecimal (attemptIndex + 1)))
    /\ (forall k, k <> "breaker" ->
          assoc k (dict w' l) = assoc k (default [] (dictOf w (params (obj w config)))))
    /\ draws w' = S (S (draws w)).
Proof.
  intros Hrange. cbv zeta.
  assert (Hverb : In (nth (Z.to_nat (random (draws w) (Z.of_nat (length verbs)))) verbs
                          "undefined") verbs)
    by (apply nth_In; apply Nat2Z.inj_lt; rewrite Z2Nat.id; lia).
  unfold afterRetryDelay, ensureParams, generateCacheBuster. cbv zeta.
  change (obj (sleep (retryInterval (obj w config) * (attemptIndex + 1)) w) config)
    with (obj w config).
  destruct (params (obj w config)) as [l0 |] eqn:Hp.
  - eexists l0, _, _. split; [| split; [exact Hverb | split; [| split]]].
    + match goal with
      | |- params (obj (store_dict ?a ?d (set_draws ?n ?w0)) config) = _ =>
          change (obj (store_dict a d (set_draws n w0)) config) with (obj w config)
      end.
      exact Hp.
    + rewrite dict_store_dict. apply assoc_assign_same.
    + intros k Hk. rewrite dict_store_dict.
      rewrite assoc_assign_other by congruence. reflexivity.
    + reflexivity.
  - unfold new_dict. cbv zeta.
    eexists _, _, _. split; [| split; [exact Hverb | split; [| split]]].
    + match goal with
      | |- params (obj (store_dict ?a ?d (set_draws ?n ?w0)) config) = _ =>
          change (obj (store_dict a d (set_draws n w0)) config) with (obj w0 config)
      end.
      rewrite obj_store_obj. reflexivity.
    + rewrite dict_store_dict. apply assoc_assign_same.
    + intros k Hk. rewrite dict_store_dict.
      rewrite assoc_assign_other by congruence.
      unfold dict. cbn. now rewrite lookup_insert_eq.
    + reflexivity.
Qed.

End CacheBuster.

Lemma retryScenario_draw :
  0 <= Example.random (draws (fst retryScenario)) (Z.of_nat (length verbs))
    < Z.of_nat (length verbs).
Proof. vm_compute. split; [discriminate | reflexivity]. Qed.

Lemma retry_sets_breaker_witness :
  exists l verb hash,
    params (obj (afterRetryDelay Example.random (snd retryScenario) 0 (fst retryScenario))
                (snd retryScenario)) = Some l
    /\ In verb verbs
    /\ assoc "breaker"
         (dict (afterRetryDelay Example.random (snd retryScenario) 0 (fst retryScenario)) l)
       = Some (JStr (verb +:+ "-" +:+ hash +:+ "-" +:+ toDecimal (0 + 1))).
Proof.
  destruct (retry_sets_breaker Example.random (snd retryScenario) 0 (fst retryScenario)
              retryScenario_draw)
    as (l & verb & hash & Hparams & Hverb & Hbreaker & _).
  exists l, verb, hash. split; [exact Hparams | split; [exact Hverb | exact Hbreaker]].
Defined.
